(** * TrafficGuru: lane processes, SJF policy family, scheduler core

    A shallow embedding of the C sources

      - include/lane_process.h, include/trafficguru.h
      - src/lane_process.c      (queue bookkeeping, quadrant fields)
      - src/sjf_scheduler.c     (the five SJF policies)
      - src/main.c              (command line, simulation driver, vehicle
                                 generator and the scheduler core:
                                 schedule_next_lane, context_switch,
                                 execute_lane_time_slice, ...)
      - src/visualization.c     (handle_user_input)

    C [int] values are [Z] with the 32-bit wrap-around written out
    ([wrap_int]); [time_t] values are [Z]; the four-element lane array is a
    [list LaneProcess] read with [!!] and written with [<[_:=_]>]; a
    [LaneProcess*] is an index into that array.  The program's mutexes are
    kept as the list of mutexes the running thread holds, so that locking a
    mutex twice shows up as [Deadlock]. *)

From Stdlib Require Import ZArith Lia Bool List Ascii.
From Stdlib Require String SpecFloat.
From stdpp Require Import base decidable option list.

#[local] Open Scope Z_scope.

(** ** C integers *)

Definition INT_MAX : Z := 2147483647.
Definition INT_MIN : Z := -2147483648.

(** Two's-complement reduction of a mathematical integer to a C [int]. *)
Definition wrap_int (z : Z) : Z := (z + 2147483648) mod 4294967296 - 2147483648.

Definition in_int_range (z : Z) : Prop := INT_MIN <= z <= INT_MAX.

(** ** Constants of trafficguru.h

    lane_process.h defines VEHICLE_CROSS_TIME as 2; trafficguru.h, which
    every .c file includes after it, redefines it as 3, and that is the value
    the translation units see. *)

Definition NUM_LANES : nat := 4.
Definition MAX_QUEUE_CAPACITY : Z := 20.
Definition DEFAULT_TIME_QUANTUM : Z := 3.
Definition CONTEXT_SWITCH_TIME : Z := 500.
Definition VEHICLE_CROSS_TIME : Z := 3.
Definition BATCH_EXIT_SIZE : Z := 3.
Definition VEHICLE_ARRIVAL_RATE_MIN : Z := 3.
Definition VEHICLE_ARRIVAL_RATE_MAX : Z := 8.

(** ** The vehicle queue (queue.h) *)

(** Modelled from the spec: queue.h and queue.c are not among the sources.
    The spec describes a capacity-bounded FIFO of vehicle ids whose enqueue
    fails when full and whose dequeue fails when empty; the callers in
    lane_process.c and main.c test [enqueue]'s result for truth and treat a
    [dequeue] result of -1 as "empty". *)
Record Queue : Type := mkQueue {
  items : list Z;
  capacity : Z
}.

Definition create_queue (cap : Z) : Queue := mkQueue [] cap.

Definition get_size (q : Queue) : Z := Z.of_nat (length (items q)).

Definition is_empty (q : Queue) : bool := get_size q =? 0.

Definition enqueue (q : Queue) (v : Z) : bool * Queue :=
  if get_size q <? capacity q
  then (true, mkQueue (items q ++ [v]) (capacity q))
  else (false, q).

Definition dequeue (q : Queue) : Z * Queue :=
  match items q with
  | [] => (-1, q)
  | v :: rest => (v, mkQueue rest (capacity q))
  end.

(** ** Lane processes (lane_process.h) *)

Inductive LaneState : Type := WAITING | READY | RUNNING | BLOCKED.

#[global] Instance LaneState_eq_dec : EqDecision LaneState.
Proof. solve_decision. Defined.

Definition LaneState_eqb (a b : LaneState) : bool :=
  match a, b with
  | WAITING, WAITING | READY, READY | RUNNING, RUNNING | BLOCKED, BLOCKED => true
  | _, _ => false
  end.

Record LaneProcess : Type := mkLane {
  lane_id : Z;
  queue : Queue;
  queue_length : Z;
  max_queue_length : Z;
  state : LaneState;
  priority : Z;
  waiting_time : Z;
  last_arrival_time : Z;
  last_service_time : Z;
  total_vehicles_served : Z;
  total_waiting_time : Z;
  requested_quadrants : Z;
  allocated_quadrants : Z
}.

(** Field updates, one per assignment form that occurs in the sources. *)

Definition set_state (s : LaneState) (l : LaneProcess) : LaneProcess :=
  mkLane (lane_id l) (queue l) (queue_length l) (max_queue_length l) s
         (priority l) (waiting_time l) (last_arrival_time l)
         (last_service_time l) (total_vehicles_served l)
         (total_waiting_time l) (requested_quadrants l) (allocated_quadrants l).

Definition set_waiting_time (t : Z) (l : LaneProcess) : LaneProcess :=
  mkLane (lane_id l) (queue l) (queue_length l) (max_queue_length l) (state l)
         (priority l) t (last_arrival_time l)
         (last_service_time l) (total_vehicles_served l)
         (total_waiting_time l) (requested_quadrants l) (allocated_quadrants l).

Definition set_queue (q : Queue) (l : LaneProcess) : LaneProcess :=
  mkLane (lane_id l) q (queue_length l) (max_queue_length l) (state l)
         (priority l) (waiting_time l) (last_arrival_time l)
         (last_service_time l) (total_vehicles_served l)
         (total_waiting_time l) (requested_quadrants l) (allocated_quadrants l).

Definition set_queue_length (n : Z) (l : LaneProcess) : LaneProcess :=
  mkLane (lane_id l) (queue l) n (max_queue_length l) (state l)
         (priority l) (waiting_time l) (last_arrival_time l)
         (last_service_time l) (total_vehicles_served l)
         (total_waiting_time l) (requested_quadrants l) (allocated_quadrants l).

Definition set_last_arrival_time (t : Z) (l : LaneProcess) : LaneProcess :=
  mkLane (lane_id l) (queue l) (queue_length l) (max_queue_length l) (state l)
         (priority l) (waiting_time l) t
         (last_service_time l) (total_vehicles_served l)
         (total_waiting_time l) (requested_quadrants l) (allocated_quadrants l).

Definition set_requested_quadrants (n : Z) (l : LaneProcess) : LaneProcess :=
  mkLane (lane_id l) (queue l) (queue_length l) (max_queue_length l) (state l)
         (priority l) (waiting_time l) (last_arrival_time l)
         (last_service_time l) (total_vehicles_served l)
         (total_waiting_time l) n (allocated_quadrants l).

Definition set_allocated_quadrants (n : Z) (l : LaneProcess) : LaneProcess :=
  mkLane (lane_id l) (queue l) (queue_length l) (max_queue_length l) (state l)
         (priority l) (waiting_time l) (last_arrival_time l)
         (last_service_time l) (total_vehicles_served l)
         (total_waiting_time l) (requested_quadrants l) n.

Definition set_last_service_time (n : Z) (l : LaneProcess) : LaneProcess :=
  mkLane (lane_id l) (queue l) (queue_length l) (max_queue_length l) (state l)
         (priority l) (waiting_time l) (last_arrival_time l)
         n (total_vehicles_served l)
         (total_waiting_time l) (requested_quadrants l) (allocated_quadrants l).

Definition set_total_vehicles_served (n : Z) (l : LaneProcess) : LaneProcess :=
  mkLane (lane_id l) (queue l) (queue_length l) (max_queue_length l) (state l)
         (priority l) (waiting_time l) (last_arrival_time l)
         (last_service_time l) n
         (total_waiting_time l) (requested_quadrants l) (allocated_quadrants l).

Definition set_total_waiting_time (n : Z) (l : LaneProcess) : LaneProcess :=
  mkLane (lane_id l) (queue l) (queue_length l) (max_queue_length l) (state l)
         (priority l) (waiting_time l) (last_arrival_time l)
         (last_service_time l) (total_vehicles_served l)
         n (requested_quadrants l) (allocated_quadrants l).

(** [init_lane_process] for a valid lane id and capacity; [now] is the value
    of [time(NULL)]. *)
Definition init_lane_process (id : Z) (max_capacity : Z) (now : Z) : LaneProcess :=
  mkLane id (create_queue max_capacity) 0 max_capacity WAITING 2 0 now 0 0 0 0 0.

(** ** The scheduler (scheduler.h)

    scheduler.h is not among the sources; the record below has the fields
    that [init_scheduler] initialises. *)

Inductive SchedulingAlgorithm : Type :=
  SJF | MULTILEVEL_FEEDBACK | PRIORITY_ROUND_ROBIN.

Record ExecutionRecord : Type := mkRecord {
  er_lane_id : Z;
  er_start_time : Z;
  er_end_time : Z;
  er_duration : Z;
  er_vehicles_processed : Z
}.

Record Scheduler : Type := mkScheduler {
  algorithm : SchedulingAlgorithm;
  ready_queue : Queue;
  time_quantum : Z;
  context_switch_time : Z;
  current_lane : Z;                                  (* -1: none *)
  execution_history : option (list ExecutionRecord); (* None: NULL *)
  history_size : Z;
  history_index : Z;
  total_context_switches : Z;
  last_schedule_time : Z;
  scheduler_running : bool
}.

Definition set_algorithm (a : SchedulingAlgorithm) (s : Scheduler) : Scheduler :=
  mkScheduler a (ready_queue s) (time_quantum s) (context_switch_time s)
    (current_lane s) (execution_history s) (history_size s) (history_index s)
    (total_context_switches s) (last_schedule_time s) (scheduler_running s).

Definition set_ready_queue (q : Queue) (s : Scheduler) : Scheduler :=
  mkScheduler (algorithm s) q (time_quantum s) (context_switch_time s)
    (current_lane s) (execution_history s) (history_size s) (history_index s)
    (total_context_switches s) (last_schedule_time s) (scheduler_running s).

Definition set_current_lane (n : Z) (s : Scheduler) : Scheduler :=
  mkScheduler (algorithm s) (ready_queue s) (time_quantum s)
    (context_switch_time s) n (execution_history s) (history_size s)
    (history_index s) (total_context_switches s) (last_schedule_time s)
    (scheduler_running s).

Definition set_history (h : option (list ExecutionRecord)) (idx : Z)
    (s : Scheduler) : Scheduler :=
  mkScheduler (algorithm s) (ready_queue s) (time_quantum s)
    (context_switch_time s) (current_lane s) h (history_size s) idx
    (total_context_switches s) (last_schedule_time s) (scheduler_running s).

Definition with_time_quantum (n : Z) (s : Scheduler) : Scheduler :=
  mkScheduler (algorithm s) (ready_queue s) n (context_switch_time s)
    (current_lane s) (execution_history s) (history_size s) (history_index s)
    (total_context_switches s) (last_schedule_time s) (scheduler_running s).

Definition set_last_schedule_time (t : Z) (s : Scheduler) : Scheduler :=
  mkScheduler (algorithm s) (ready_queue s) (time_quantum s)
    (context_switch_time s) (current_lane s) (execution_history s)
    (history_size s) (history_index s) (total_context_switches s) t
    (scheduler_running s).

Definition set_scheduler_running (b : bool) (s : Scheduler) : Scheduler :=
  mkScheduler (algorithm s) (ready_queue s) (time_quantum s)
    (context_switch_time s) (current_lane s) (execution_history s)
    (history_size s) (history_index s) (total_context_switches s)
    (last_schedule_time s) b.

(** [init_scheduler]; [history_ok] tells whether the malloc of the history
    buffer succeeded, [blank] is the content of the fresh buffer. *)
Definition init_scheduler (a : SchedulingAlgorithm) (now : Z)
    (history_ok : bool) (blank : ExecutionRecord) : Scheduler :=
  mkScheduler a (create_queue 20) DEFAULT_TIME_QUANTUM CONTEXT_SWITCH_TIME (-1)
    (if history_ok then Some (replicate 1000 blank) else None)
    (if history_ok then 1000 else 0) 0 0 now false.

(** ** C floats

    The [float] computations of the sources (policy scores, cumulated wait
    times) are kept abstract: an implementation of this class provides the
    type, its arithmetic, the comparison and the literals that occur. *)

Class CFloat : Type := {
  float : Type;
  float_of_int : Z -> float;
  fadd : float -> float -> float;
  fsub : float -> float -> float;
  fmul : float -> float -> float;
  fdiv : float -> float -> float;
  flt : float -> float -> bool;
  FLT_MAX : float;
  float_zero : float;      (* 0.0f *)
  float_tenth : float;     (* 0.1f *)
  float_fifth : float;     (* 0.2f *)
  float_sixty : float      (* 60.0f *)
}.

(** ** Performance metrics (performance_metrics.h)

    The header is not among the sources; the record has the fields that
    main.c writes, the rest of the structure is [metrics_other]. *)

Record PerformanceMetrics `{CFloat} (Other : Type) : Type := mkMetrics {
  total_vehicles_processed : Z;
  lane_throughput : list Z;
  lane_wait_times : list float;
  metrics_other : Other
}.
Arguments mkMetrics {_ _} _ _ _ _.
Arguments total_vehicles_processed {_ _} _.
Arguments lane_throughput {_ _} _.
Arguments lane_wait_times {_ _} _.
Arguments metrics_other {_ _} _.

(** ** Mutexes *)

Inductive Mutex : Type :=
| queue_lock (lane : nat)     (* lanes[lane].queue_lock *)
| scheduler_lock              (* scheduler.scheduler_lock *)
| global_state_lock.          (* g_traffic_system->global_state_lock *)

Definition Mutex_eqb (a b : Mutex) : bool :=
  match a, b with
  | queue_lock i, queue_lock j => Nat.eqb i j
  | scheduler_lock, scheduler_lock => true
  | global_state_lock, global_state_lock => true
  | _, _ => false
  end.

Definition holds (m : Mutex) (l : list Mutex) : bool := existsb (Mutex_eqb m) l.

Definition release (m : Mutex) (l : list Mutex) : list Mutex :=
  filter (fun x => negb (Mutex_eqb m x)) l.

Arguments holds : simpl never.
Arguments release : simpl never.

(** ** The allocator's state (bankers_algorithm.h)

    Modelled from the spec: bankers_algorithm.h, which declares the
    [BankersState] that the system structure embeds, is not among the
    sources.  The spec gives the allocator "total quadrants (4),
    allocation[lane], request[lane], available = total - sum of the
    allocations". *)

Record BankersState : Type := mkBankers {
  total_quadrants : Z;
  allocation : list Z;
  request : list Z;
  available : Z
}.

(** ** Collaborators that are not among the sources

    Modelled from the spec: multilevel_scheduler.c, priority_rr_scheduler.c,
    performance_metrics.c, emergency_system.c and the deadlock detector are
    called from main.c but are not among the sources.  The spec gives the two
    policies the contract of every policy (a side-effect-free function of the
    scheduler and the lanes that returns a lane index or none); the metrics
    and emergency operations act on the structure they are handed; the
    deadlock sweep rewrites the lane array. *)

Class Collaborators `{CFloat} : Type := {
  MetricsOther : Type;
  EmergencySystem : Type;
  schedule_next_lane_multilevel : Scheduler -> list LaneProcess -> Z;
  schedule_next_lane_priority_rr : Scheduler -> list LaneProcess -> Z;
  update_context_switch_count :
    PerformanceMetrics MetricsOther -> PerformanceMetrics MetricsOther;
  update_time_based_metrics :
    PerformanceMetrics MetricsOther -> Z -> PerformanceMetrics MetricsOther;
  update_emergency_progress : EmergencySystem -> EmergencySystem;
  (* generate_random_emergency followed by add_emergency_vehicle for a lane *)
  add_random_emergency : EmergencySystem -> Z -> EmergencySystem;
  detect_and_resolve_advanced_deadlock : list LaneProcess -> list LaneProcess
}.

Section Program.

Context `{FL : CFloat} `{CO : !Collaborators}.

(** ** The global system state (TrafficGuruSystem and the file-level statics)

    [held] lists the mutexes the executing thread holds, [busy] those held by
    the other threads at this moment (they make a [trylock] fail); [clock] is
    what [time(NULL)] returns and [usec] the microseconds elapsed since that
    second began; [rand_src] is what the coming calls of [rand()] return. *)

Record World : Type := mkWorld {
  lanes : list LaneProcess;
  scheduler : Scheduler;
  metrics : PerformanceMetrics MetricsOther;
  emergency_system : EmergencySystem;
  simulation_running : bool;
  simulation_paused : bool;
  total_vehicles_generated : Z;
  min_arrival_rate : Z;
  max_arrival_rate : Z;
  keep_running : bool;
  show_help : bool;
  pause_requested : bool;
  deadlock_check_counter : Z;
  clock : Z;
  rand_src : nat -> Z;
  held : list Mutex;
  busy : list Mutex;
  usec : Z;
  bankers_state : BankersState
}.

Definition set_lanes (x : list LaneProcess) (w : World) : World :=
  mkWorld x (scheduler w) (metrics w) (emergency_system w)
    (simulation_running w) (simulation_paused w)
    (total_vehicles_generated w) (min_arrival_rate w) (max_arrival_rate w)
    (keep_running w) (show_help w) (pause_requested w)
    (deadlock_check_counter w) (clock w) (rand_src w) (held w) (busy w) (usec w) (bankers_state w).

Definition set_scheduler (x : Scheduler) (w : World) : World :=
  mkWorld (lanes w) x (metrics w) (emergency_system w)
    (simulation_running w) (simulation_paused w)
    (total_vehicles_generated w) (min_arrival_rate w) (max_arrival_rate w)
    (keep_running w) (show_help w) (pause_requested w)
    (deadlock_check_counter w) (clock w) (rand_src w) (held w) (busy w) (usec w) (bankers_state w).

Definition set_metrics (x : PerformanceMetrics MetricsOther) (w : World) : World :=
  mkWorld (lanes w) (scheduler w) x (emergency_system w)
    (simulation_running w) (simulation_paused w)
    (total_vehicles_generated w) (min_arrival_rate w) (max_arrival_rate w)
    (keep_running w) (show_help w) (pause_requested w)
    (deadlock_check_counter w) (clock w) (rand_src w) (held w) (busy w) (usec w) (bankers_state w).

Definition set_emergency_system (x : EmergencySystem) (w : World) : World :=
  mkWorld (lanes w) (scheduler w) (metrics w) x (simulation_running w)
    (simulation_paused w) (total_vehicles_generated w) (min_arrival_rate w)
    (max_arrival_rate w) (keep_running w) (show_help w) (pause_requested w)
    (deadlock_check_counter w) (clock w) (rand_src w) (held w) (busy w) (usec w) (bankers_state w).

Definition set_simulation_running (x : bool) (w : World) : World :=
  mkWorld (lanes w) (scheduler w) (metrics w) (emergency_system w) x
    (simulation_paused w) (total_vehicles_generated w) (min_arrival_rate w)
    (max_arrival_rate w) (keep_running w) (show_help w) (pause_requested w)
    (deadlock_check_counter w) (clock w) (rand_src w) (held w) (busy w) (usec w) (bankers_state w).

Definition set_simulation_paused (x : bool) (w : World) : World :=
  mkWorld (lanes w) (scheduler w) (metrics w) (emergency_system w)
    (simulation_running w) x (total_vehicles_generated w)
    (min_arrival_rate w) (max_arrival_rate w) (keep_running w) (show_help w)
    (pause_requested w) (deadlock_check_counter w) (clock w) (rand_src w)
    (held w) (busy w) (usec w) (bankers_state w).

Definition set_total_vehicles_generated (x : Z) (w : World) : World :=
  mkWorld (lanes w) (scheduler w) (metrics w) (emergency_system w)
    (simulation_running w) (simulation_paused w) x (min_arrival_rate w)
    (max_arrival_rate w) (keep_running w) (show_help w) (pause_requested w)
    (deadlock_check_counter w) (clock w) (rand_src w) (held w) (busy w) (usec w) (bankers_state w).

Definition set_min_arrival_rate (x : Z) (w : World) : World :=
  mkWorld (lanes w) (scheduler w) (metrics w) (emergency_system w)
    (simulation_running w) (simulation_paused w)
    (total_vehicles_generated w) x (max_arrival_rate w)
    (keep_running w) (show_help w) (pause_requested w)
    (deadlock_check_counter w) (clock w) (rand_src w) (held w) (busy w) (usec w) (bankers_state w).

Definition set_max_arrival_rate (x : Z) (w : World) : World :=
  mkWorld (lanes w) (scheduler w) (metrics w) (emergency_system w)
    (simulation_running w) (simulation_paused w)
    (total_vehicles_generated w) (min_arrival_rate w) x
    (keep_running w) (show_help w) (pause_requested w)
    (deadlock_check_counter w) (clock w) (rand_src w) (held w) (busy w) (usec w) (bankers_state w).

Definition set_keep_running (x : bool) (w : World) : World :=
  mkWorld (lanes w) (scheduler w) (metrics w) (emergency_system w)
    (simulation_running w) (simulation_paused w)
    (total_vehicles_generated w) (min_arrival_rate w) (max_arrival_rate w) x
    (show_help w) (pause_requested w) (deadlock_check_counter w) (clock w)
    (rand_src w) (held w) (busy w) (usec w) (bankers_state w).

Definition set_show_help (x : bool) (w : World) : World :=
  mkWorld (lanes w) (scheduler w) (metrics w) (emergency_system w)
    (simulation_running w) (simulation_paused w)
    (total_vehicles_generated w) (min_arrival_rate w) (max_arrival_rate w)
    (keep_running w) x (pause_requested w) (deadlock_check_counter w)
    (clock w) (rand_src w) (held w) (busy w) (usec w) (bankers_state w).

Definition set_pause_requested (x : bool) (w : World) : World :=
  mkWorld (lanes w) (scheduler w) (metrics w) (emergency_system w)
    (simulation_running w) (simulation_paused w)
    (total_vehicles_generated w) (min_arrival_rate w) (max_arrival_rate w)
    (keep_running w) (show_help w) x (deadlock_check_counter w) (clock w)
    (rand_src w) (held w) (busy w) (usec w) (bankers_state w).

Definition set_deadlock_check_counter (x : Z) (w : World) : World :=
  mkWorld (lanes w) (scheduler w) (metrics w) (emergency_system w)
    (simulation_running w) (simulation_paused w)
    (total_vehicles_generated w) (min_arrival_rate w) (max_arrival_rate w)
    (keep_running w) (show_help w) (pause_requested w) x (clock w)
    (rand_src w) (held w) (busy w) (usec w) (bankers_state w).

Definition set_clock (x : Z) (w : World) : World :=
  mkWorld (lanes w) (scheduler w) (metrics w) (emergency_system w)
    (simulation_running w) (simulation_paused w)
    (total_vehicles_generated w) (min_arrival_rate w) (max_arrival_rate w)
    (keep_running w) (show_help w) (pause_requested w)
    (deadlock_check_counter w) x (rand_src w) (held w) (busy w) (usec w) (bankers_state w).

Definition set_rand_src (x : nat -> Z) (w : World) : World :=
  mkWorld (lanes w) (scheduler w) (metrics w) (emergency_system w)
    (simulation_running w) (simulation_paused w)
    (total_vehicles_generated w) (min_arrival_rate w) (max_arrival_rate w)
    (keep_running w) (show_help w) (pause_requested w)
    (deadlock_check_counter w) (clock w) x (held w) (busy w) (usec w) (bankers_state w).

Definition set_held (x : list Mutex) (w : World) : World :=
  mkWorld (lanes w) (scheduler w) (metrics w) (emergency_system w)
    (simulation_running w) (simulation_paused w)
    (total_vehicles_generated w) (min_arrival_rate w) (max_arrival_rate w)
    (keep_running w) (show_help w) (pause_requested w)
    (deadlock_check_counter w) (clock w) (rand_src w) x (busy w) (usec w) (bankers_state w).

Definition set_busy (x : list Mutex) (w : World) : World :=
  mkWorld (lanes w) (scheduler w) (metrics w) (emergency_system w)
    (simulation_running w) (simulation_paused w)
    (total_vehicles_generated w) (min_arrival_rate w) (max_arrival_rate w)
    (keep_running w) (show_help w) (pause_requested w)
    (deadlock_check_counter w) (clock w) (rand_src w) (held w) x (usec w) (bankers_state w).

Definition set_usec (x : Z) (w : World) : World :=
  mkWorld (lanes w) (scheduler w) (metrics w) (emergency_system w)
    (simulation_running w) (simulation_paused w)
    (total_vehicles_generated w) (min_arrival_rate w) (max_arrival_rate w)
    (keep_running w) (show_help w) (pause_requested w)
    (deadlock_check_counter w) (clock w) (rand_src w) (held w) (busy w) x
    (bankers_state w).

Definition set_bankers_state (x : BankersState) (w : World) : World :=
  mkWorld (lanes w) (scheduler w) (metrics w) (emergency_system w)
    (simulation_running w) (simulation_paused w)
    (total_vehicles_generated w) (min_arrival_rate w) (max_arrival_rate w)
    (keep_running w) (show_help w) (pause_requested w)
    (deadlock_check_counter w) (clock w) (rand_src w) (held w) (busy w)
    (usec w) x.

(** Time in microseconds, and the passing of time. *)
Definition now_us (w : World) : Z := clock w * 1000000 + usec w.

Definition set_time (t : Z) (w : World) : World :=
  set_usec (t mod 1000000) (set_clock (t / 1000000) w).

Definition elapse (microseconds : Z) (w : World) : World :=
  set_time (now_us w + microseconds) w.

(** ** The execution monad

    A C function is a computation over the world that either returns
    ([Done]), blocks for ever on a mutex its own thread already holds
    ([Deadlock]: the mutexes are created with default attributes, so
    re-locking is not recursive), or indexes the lane array out of range
    ([OutOfBounds]). *)

Inductive outcome (A : Type) : Type :=
| Done (a : A) (w : World)
| Deadlock
| OutOfBounds.
Arguments Done {A} a w.
Arguments Deadlock {A}.
Arguments OutOfBounds {A}.

Definition M (A : Type) : Type := World -> outcome A.

Definition ret {A : Type} (a : A) : M A := fun w => Done a w.

Definition bind {A B : Type} (m : M A) (k : A -> M B) : M B :=
  fun w =>
    match m w with
    | Done a w' => k a w'
    | Deadlock => Deadlock
    | OutOfBounds => OutOfBounds
    end.

#[local] Notation "'do' x <- m ; k" := (bind m (fun x => k))
  (at level 10, x name, m at level 100, k at level 200, only parsing).
#[local] Notation "'do' ' p <- m ; k" := (bind m (fun x => let p := x in k))
  (at level 10, p pattern, m at level 100, k at level 200, only parsing).
#[local] Notation "m >> k" := (bind m (fun _ => k))
  (at level 100, k at level 200, right associativity, only parsing).

Definition get : M World := fun w => Done w w.
Definition modify (f : World -> World) : M unit := fun w => Done tt (f w).
Definition when (b : bool) (m : M unit) : M unit := if b then m else ret tt.

(** pthread_mutex_lock, pthread_mutex_unlock, pthread_mutex_trylock *)

Definition lock (m : Mutex) : M unit :=
  fun w => if holds m (held w) then Deadlock
           else Done tt (set_held (m :: held w) w).

Definition unlock (m : Mutex) : M unit :=
  modify (fun w => set_held (release m (held w)) w).

Definition trylock (m : Mutex) : M bool :=
  fun w => if holds m (held w) || holds m (busy w) then Done false w
           else Done true (set_held (m :: held w) w).

(** time(NULL) *)
Definition time_now : M Z := fun w => Done (clock w) w.

(** Reading and writing [lanes[i]]. *)

Definition get_lane (i : nat) : M LaneProcess :=
  fun w => match lanes w !! i with
           | Some l => Done l w
           | None => OutOfBounds
           end.

Definition modify_lane (i : nat) (f : LaneProcess -> LaneProcess) : M unit :=
  fun w => match lanes w !! i with
           | Some l => Done tt (set_lanes (<[i:=f l]> (lanes w)) w)
           | None => OutOfBounds
           end.

Definition get_scheduler : M Scheduler := fun w => Done (scheduler w) w.
Definition modify_scheduler (f : Scheduler -> Scheduler) : M unit :=
  modify (fun w => set_scheduler (f (scheduler w)) w).

(** [for (int i = 0; i < n; i++) body(i)], collecting what the bodies
    return. *)
Fixpoint for_each {A : Type} (idxs : list nat) (body : nat -> M A) : M (list A) :=
  match idxs with
  | [] => ret []
  | i :: rest =>
      do x <- body i;
      do xs <- for_each rest body;
      ret (x :: xs)
  end.

Definition for_lanes {A : Type} (body : nat -> M A) : M (list A) :=
  for_each (seq 0 NUM_LANES) body.

(** A lane index held in a C [int]: [&lanes[n]]. *)
Definition lane_index (n : Z) : M nat :=
  fun w => if (0 <=? n) && (Z.to_nat n <? length (lanes w))%nat
           then Done (Z.to_nat n) w else OutOfBounds.

(** ** lane_process.c

    A [LaneProcess*] argument is the index of the lane; the NULL checks that
    open each function have no counterpart, and neither has the NULL test of
    [lane->queue] (a lane always owns a queue here). *)

Definition add_vehicle_to_lane (lane : nat) (vehicle_id : Z) : M unit :=
  lock (queue_lock lane) >>
  do l <- get_lane lane;
  (if fst (enqueue (queue l) vehicle_id) then
     let q := snd (enqueue (queue l) vehicle_id) in
     modify_lane lane (set_queue q) >>
     modify_lane lane (set_queue_length (get_size q)) >>
     do now <- time_now;
     modify_lane lane (set_last_arrival_time now)
   else ret tt) >>
  unlock (queue_lock lane).

Definition remove_vehicle_from_lane_unlocked (lane : nat) : M Z :=
  do l <- get_lane lane;
  let vehicle_id := fst (dequeue (queue l)) in
  let q := snd (dequeue (queue l)) in
  modify_lane lane (set_queue q) >>
  modify_lane lane (set_queue_length (get_size q)) >>
  ret vehicle_id.

Definition remove_vehicle_from_lane (lane : nat) : M Z :=
  lock (queue_lock lane) >>
  do l <- get_lane lane;
  let vehicle_id := fst (dequeue (queue l)) in
  let q := snd (dequeue (queue l)) in
  modify_lane lane (set_queue q) >>
  modify_lane lane (set_queue_length (get_size q)) >>
  unlock (queue_lock lane) >>
  ret vehicle_id.

Definition get_lane_queue_length (lane : nat) : M Z :=
  lock (queue_lock lane) >>
  do l <- get_lane lane;
  unlock (queue_lock lane) >>
  ret (queue_length l).

Definition update_lane_state (lane : nat) (new_state : LaneState) : M unit :=
  lock (queue_lock lane) >>
  modify_lane lane (set_state new_state) >>
  unlock (queue_lock lane).

Definition is_lane_ready (lane : nat) : M bool :=
  lock (queue_lock lane) >>
  do l <- get_lane lane;
  unlock (queue_lock lane) >>
  ret (LaneState_eqb (state l) READY && (0 <? queue_length l)).

Definition get_lane_average_wait_time (lane : nat) : M float :=
  do l0 <- get_lane lane;
  if total_vehicles_served l0 =? 0 then ret float_zero
  else
    lock (queue_lock lane) >>
    do l <- get_lane lane;
    unlock (queue_lock lane) >>
    ret (fdiv (float_of_int (total_waiting_time l))
              (float_of_int (total_vehicles_served l))).

Definition get_lane_throughput (lane : nat) : M Z :=
  lock (queue_lock lane) >>
  do l <- get_lane lane;
  unlock (queue_lock lane) >>
  ret (total_vehicles_served l).

Definition request_intersection_quadrants (lane : nat) (quadrants : Z) : M unit :=
  lock (queue_lock lane) >>
  modify_lane lane (set_requested_quadrants quadrants) >>
  unlock (queue_lock lane).

Definition release_intersection_quadrants (lane : nat) : M unit :=
  lock (queue_lock lane) >>
  modify_lane lane (set_allocated_quadrants 0) >>
  modify_lane lane (set_requested_quadrants 0) >>
  unlock (queue_lock lane).

Definition is_lane_blocked (lane : nat) : M bool :=
  lock (queue_lock lane) >>
  do l <- get_lane lane;
  unlock (queue_lock lane) >>
  ret (LaneState_eqb (state l) BLOCKED).

Definition update_lane_metrics (lane : nat) : M unit :=
  lock (queue_lock lane) >>
  do l <- get_lane lane;
  when (1000 <? waiting_time l) (modify_lane lane (set_waiting_time 0)) >>
  unlock (queue_lock lane).

(** ** sjf_scheduler.c

    Each policy first copies, lane by lane and under that lane's lock, the
    fields it needs into local arrays, and then runs its selection loop over
    the copies.  The [Scheduler*] and [lanes] arguments are those of the
    global system (the NULL tests have no counterpart). *)

Record sjf_locals : Type := mkSjf {
  sjf_best_lane : Z;
  sjf_min_estimated_time : Z;
  sjf_earliest_arrival : Z
}.

Definition sjf_loop_body (snap : list (LaneState * Z * Z)) (v : sjf_locals)
    (i : nat) : sjf_locals :=
  match snap !! i with
  | Some (READY, queue_length_i, arrival_time_i) =>
      let estimated_time := wrap_int (queue_length_i * VEHICLE_CROSS_TIME) in
      if estimated_time <? sjf_min_estimated_time v then
        mkSjf (Z.of_nat i) estimated_time arrival_time_i
      else if estimated_time =? sjf_min_estimated_time v then
        if arrival_time_i <? sjf_earliest_arrival v then
          mkSjf (Z.of_nat i) (sjf_min_estimated_time v) arrival_time_i
        else v
      else v
  | _ => v
  end.

Definition schedule_next_lane_sjf : M Z :=
  do now <- time_now;
  do snap <- for_lanes (fun i =>
    lock (queue_lock i) >>
    do l <- get_lane i;
    unlock (queue_lock i) >>
    ret (state l, queue_length l, last_arrival_time l));
  ret (sjf_best_lane
         (fold_left (sjf_loop_body snap) (seq 0 NUM_LANES)
                    (mkSjf (-1) INT_MAX now))).

Definition srtf_loop_body (snap : list (LaneState * Z)) (v : Z * Z) (i : nat)
    : Z * Z :=
  let '(best_lane, min_remaining_time) := v in
  match snap !! i with
  | Some (READY, queue_length_i) =>
      let remaining_time := wrap_int (queue_length_i * VEHICLE_CROSS_TIME) in
      if remaining_time <? min_remaining_time
      then (Z.of_nat i, remaining_time) else v
  | _ => v
  end.

Definition schedule_next_lane_srtf : M Z :=
  do snap <- for_lanes (fun i =>
    lock (queue_lock i) >>
    do l <- get_lane i;
    unlock (queue_lock i) >>
    ret (state l, queue_length l));
  ret (fst (fold_left (srtf_loop_body snap) (seq 0 NUM_LANES) (-1, INT_MAX))).

(** The three float-scored policies share the shape of their selection
    loop; [score] is the expression computed for a READY lane. *)
Definition float_loop_body {S : Type} (snap : list (LaneState * S))
    (score : S -> float) (v : Z * float) (i : nat) : Z * float :=
  let '(best_lane, min_score) := v in
  match snap !! i with
  | Some (READY, x) =>
      if flt (score x) min_score then (Z.of_nat i, score x) else v
  | _ => v
  end.

Definition aging_score (x : Z * Z) : float :=
  let '(queue_length_i, waiting_time_i) := x in
  let estimated_time := float_of_int (wrap_int (queue_length_i * VEHICLE_CROSS_TIME)) in
  let aging_factor := fmul (float_of_int waiting_time_i) float_tenth in
  fsub estimated_time aging_factor.

Definition schedule_next_lane_sjf_with_aging : M Z :=
  do snap <- for_lanes (fun i =>
    lock (queue_lock i) >>
    do l <- get_lane i;
    unlock (queue_lock i) >>
    ret (state l, (queue_length l, waiting_time l)));
  ret (fst (fold_left (float_loop_body snap aging_score) (seq 0 NUM_LANES)
                      (-1, FLT_MAX))).

Definition enhanced_score (x : Z * Z * float) : float :=
  let '(queue_length_i, waiting_time_i, avg_wait_i) := x in
  let processing_time := float_of_int (wrap_int (queue_length_i * VEHICLE_CROSS_TIME)) in
  let waiting_bonus := fmul (float_of_int waiting_time_i) float_fifth in
  let fairness_penalty := fmul avg_wait_i float_tenth in
  fadd (fsub processing_time waiting_bonus) fairness_penalty.

Definition schedule_next_lane_enhanced_sjf : M Z :=
  do snap <- for_lanes (fun i =>
    lock (queue_lock i) >>
    do l <- get_lane i;
    do avg_wait <- get_lane_average_wait_time i;
    unlock (queue_lock i) >>
    ret (state l, (queue_length l, waiting_time l, avg_wait)));
  ret (fst (fold_left (float_loop_body snap enhanced_score) (seq 0 NUM_LANES)
                      (-1, FLT_MAX))).

Definition predictive_score (x : Z * Z) : float :=
  let '(queue_length_i, throughput_i) := x in
  let avg_service_time :=
    if 0 <? throughput_i then fdiv float_sixty (float_of_int throughput_i)
    else float_of_int VEHICLE_CROSS_TIME in
  fmul (float_of_int queue_length_i) avg_service_time.

Definition schedule_next_lane_predictive_sjf : M Z :=
  do snap <- for_lanes (fun i =>
    lock (queue_lock i) >>
    do l <- get_lane i;
    do throughput <- get_lane_throughput i;
    unlock (queue_lock i) >>
    ret (state l, (queue_length l, throughput)));
  ret (fst (fold_left (float_loop_body snap predictive_score) (seq 0 NUM_LANES)
                      (-1, FLT_MAX))).

(** ** libc: rand() and usleep()

    [usleep] lets the time advance by the microseconds slept. *)

Definition rand : M Z :=
  fun w => Done (Z.abs (rand_src w 0%nat))
                (set_rand_src (fun n => rand_src w (S n)) w).

Definition usleep (microseconds : Z) : M unit := modify (elapse microseconds).

(** ** The scheduler core (second half of main.c)

    The [Scheduler*] and [LaneProcess lanes[4]] arguments always designate
    the scheduler and the lane array of the global system.  The [default:]
    branch of the switch in [schedule_next_lane] is for values outside the
    enumeration and has no counterpart. *)

Definition context_switch (from_lane to_lane : option nat) : M unit :=
  (match from_lane with
   | Some f =>
       lock (queue_lock f) >>
       do l <- get_lane f;
       (if LaneState_eqb (state l) RUNNING then
          if 0 <? queue_length l
          then modify_lane f (set_state READY)
          else modify_lane f (set_state WAITING)
        else ret tt) >>
       unlock (queue_lock f)
   | None => ret tt
   end) >>
  (match to_lane with
   | Some t =>
       lock (queue_lock t) >>
       do l <- get_lane t;
       (if LaneState_eqb (state l) READY then
          modify_lane t (set_state RUNNING) >>
          modify_lane t (set_waiting_time 0)
        else ret tt) >>
       unlock (queue_lock t)
   | None => ret tt
   end) >>
  (* scheduler->total_context_switches++;  is commented out in the source *)
  do s <- get_scheduler;
  usleep (wrap_int (context_switch_time s * 1000)) >>
  usleep 1000000.

Definition validate_single_lane_running : M bool :=
  do flags <- for_lanes (fun i =>
    do ok <- trylock (queue_lock i);
    if ok then
      do l <- get_lane i;
      unlock (queue_lock i) >>
      ret (LaneState_eqb (state l) RUNNING)
    else ret false);
  let running_count := Z.of_nat (length (filter (fun b => b = true) flags)) in
  if 1 <? running_count then ret false else ret true.

Definition schedule_next_lane : M Z :=
  lock scheduler_lock >>
  do s <- get_scheduler;
  do next_lane <-
    (match algorithm s with
     | SJF => schedule_next_lane_sjf
     | MULTILEVEL_FEEDBACK =>
         do w <- get; ret (schedule_next_lane_multilevel (scheduler w) (lanes w))
     | PRIORITY_ROUND_ROBIN =>
         do w <- get; ret (schedule_next_lane_priority_rr (scheduler w) (lanes w))
     end);
  (if negb (next_lane =? current_lane s) && negb (next_lane =? -1) then
     do from_lane <-
       (if 0 <=? current_lane s
        then do i <- lane_index (current_lane s); ret (Some i)
        else ret None);
     do to_lane <- lane_index next_lane;
     context_switch from_lane (Some to_lane) >>
     modify_scheduler (set_current_lane next_lane) >>
     (do ok <- trylock global_state_lock;
      when ok
        (modify (fun w => set_metrics (update_context_switch_count (metrics w)) w) >>
         unlock global_state_lock)) >>
     (do valid <- validate_single_lane_running; ret tt)
   else ret tt) >>
  do now <- time_now;
  modify_scheduler (set_last_schedule_time now) >>
  unlock scheduler_lock >>
  ret next_lane.

Definition record_execution (lane_id start_time end_time vehicles_processed : Z)
    : M unit :=
  do s0 <- get_scheduler;
  match execution_history s0 with
  | None => ret tt
  | Some _ =>
      do ok <- trylock scheduler_lock;
      when ok
        (do s <- get_scheduler;
         (match execution_history s with
          | Some h =>
              if (0 <=? history_index s)
                 && (Z.to_nat (history_index s) <? length h)%nat
              then
                modify_scheduler
                  (set_history
                     (Some (<[Z.to_nat (history_index s) :=
                               mkRecord lane_id start_time end_time
                                        (wrap_int (end_time - start_time))
                                        vehicles_processed]> h))
                     (Z.rem (wrap_int (history_index s + 1)) (history_size s)))
              else fun _ => OutOfBounds
          | None => ret tt
          end) >>
         unlock scheduler_lock)
  end.

(** The three metric updates of [execute_lane_time_slice]; the two arrays
    are indexed by [lane->lane_id]. *)
Definition count_processed_vehicle (id : Z) (wait_time_sec : Z)
    (m : PerformanceMetrics MetricsOther) : PerformanceMetrics MetricsOther :=
  let i := Z.to_nat id in
  mkMetrics
    (wrap_int (total_vehicles_processed m + 1))
    (match lane_throughput m !! i with
     | Some n => <[i := wrap_int (n + 1)]> (lane_throughput m)
     | None => lane_throughput m
     end)
    (match lane_wait_times m !! i with
     | Some x => <[i := fadd x (float_of_int wait_time_sec)]> (lane_wait_times m)
     | None => lane_wait_times m
     end)
    (metrics_other m).

Definition execute_lane_time_slice (lane : nat) (time_quantum : Z) : M unit :=
  do start_time <- time_now;
  lock global_state_lock >>
  lock (queue_lock lane) >>
  do vehicle_id <- remove_vehicle_from_lane_unlocked lane;
  do vehicles_processed <-
    (if negb (vehicle_id =? -1) then
       do now <- time_now;
       do l <- get_lane lane;
       let wait_time_sec := wrap_int (now - last_arrival_time l) in
       let wait_time_sec := if wait_time_sec <? 0 then 0 else wait_time_sec in
       modify (fun w =>
         set_metrics (count_processed_vehicle (lane_id l) wait_time_sec (metrics w)) w) >>
       unlock (queue_lock lane) >>
       unlock global_state_lock >>
       do r <- rand;
       usleep (2000000 + Z.rem r 2000000) >>
       lock global_state_lock >>
       lock (queue_lock lane) >>
       ret 1
     else ret 0);
  do end_time <- time_now;
  do l1 <- get_lane lane;
  record_execution (lane_id l1) start_time end_time vehicles_processed >>
  do l2 <- get_lane lane;
  when ((queue_length l2 =? 0) && LaneState_eqb (state l2) RUNNING)
       (modify_lane lane (set_state WAITING)) >>
  unlock (queue_lock lane) >>
  unlock global_state_lock.

(** [while (!is_empty(q)) dequeue(q);] with the queue's size as fuel. *)
Fixpoint drain (fuel : nat) (q : Queue) : Queue :=
  match fuel with
  | O => q
  | S n => if is_empty q then q else drain n (snd (dequeue q))
  end.

Definition set_scheduling_algorithm (a : SchedulingAlgorithm) : M unit :=
  do ok <- trylock scheduler_lock;
  when ok
    (modify_scheduler (set_algorithm a) >>
     modify_scheduler (set_current_lane (-1)) >>
     do w <- get;
     when (simulation_running w)
       (for_lanes (fun i =>
          lock (queue_lock i) >>
          do l <- get_lane i;
          when (LaneState_eqb (state l) RUNNING)
               (modify_lane i
                  (set_state (if 0 <? queue_length l then READY else WAITING))) >>
          unlock (queue_lock i)) >>
        modify_scheduler (fun s =>
          set_ready_queue (drain (length (items (ready_queue s))) (ready_queue s)) s)) >>
     unlock scheduler_lock).

(** [calculate_average_wait_time] and [calculate_fairness_index]: the loop
    calls [get_lane_average_wait_time] lane by lane; the sums are taken over
    what it returned.  [active_lanes] counts up to 4.  The literal 1.0f is
    [(float)1]. *)

Definition wait_total (v : float * Z) (lane_wait : float) : float * Z :=
  let '(total_wait, active_lanes) := v in
  if flt float_zero lane_wait
  then (fadd total_wait lane_wait, active_lanes + 1)
  else v.

Definition calculate_average_wait_time : M float :=
  do waits <- for_lanes get_lane_average_wait_time;
  let '(total_wait, active_lanes) := fold_left wait_total waits (float_zero, 0) in
  ret (if 0 <? active_lanes then fdiv total_wait (float_of_int active_lanes)
       else float_zero).

Definition wait_sums (v : float * float * Z) (lane_wait : float) : float * float * Z :=
  let '(sum_wait, sum_wait_sq, active_lanes) := v in
  if flt float_zero lane_wait
  then (fadd sum_wait lane_wait, fadd sum_wait_sq (fmul lane_wait lane_wait),
        active_lanes + 1)
  else v.

Definition calculate_fairness_index : M float :=
  do wait_times <- for_lanes get_lane_average_wait_time;
  let '(sum_wait, sum_wait_sq, active_lanes) :=
    fold_left wait_sums wait_times (float_zero, float_zero, 0) in
  ret (if flt float_zero sum_wait && (0 <? active_lanes)
       then fdiv (fmul sum_wait sum_wait)
                 (fmul (float_of_int active_lanes) sum_wait_sq)
       else float_of_int 1).

Definition calculate_context_switch_overhead : M Z :=
  do ok <- trylock scheduler_lock;
  if ok then
    do s <- get_scheduler;
    unlock scheduler_lock >>
    ret (wrap_int (total_context_switches s * context_switch_time s))
  else ret 0.

Definition start_scheduler : M unit :=
  lock scheduler_lock >>
  modify_scheduler (set_scheduler_running true) >>
  do now <- time_now;
  modify_scheduler (set_last_schedule_time now) >>
  unlock scheduler_lock.

Definition stop_scheduler : M unit :=
  lock scheduler_lock >>
  modify_scheduler (set_scheduler_running false) >>
  unlock scheduler_lock.

Definition get_scheduling_algorithm : M SchedulingAlgorithm :=
  do ok <- trylock scheduler_lock;
  if ok then
    do s <- get_scheduler;
    unlock scheduler_lock >>
    ret (algorithm s)
  else ret SJF.

(** [get_execution_history] returns the buffer and stores the number of
    records through its [count] argument; here it returns both. *)
Definition get_execution_history : M (option (list ExecutionRecord) * Z) :=
  do ok <- trylock scheduler_lock;
  do count <-
    (if ok then
       do s <- get_scheduler;
       unlock scheduler_lock >>
       ret (if history_index s <? history_size s
            then history_index s else history_size s)
     else ret 0);
  do s <- get_scheduler;
  ret (execution_history s, count).

Definition add_lane_to_ready_queue (lane : nat) : M unit :=
  do ok <- trylock scheduler_lock;
  when ok
    (do l <- get_lane lane;
     modify_scheduler (fun s =>
       set_ready_queue (snd (enqueue (ready_queue s) (lane_id l))) s) >>
     unlock scheduler_lock).

(** The [lane] argument is only tested against NULL. *)
Definition remove_lane_from_ready_queue (lane : nat) : M unit :=
  do ok <- trylock scheduler_lock;
  when ok
    (modify_scheduler (fun s =>
       set_ready_queue (snd (dequeue (ready_queue s))) s) >>
     unlock scheduler_lock).

Definition get_ready_queue_size : M Z :=
  do ok <- trylock scheduler_lock;
  if ok then
    do s <- get_scheduler;
    unlock scheduler_lock >>
    ret (get_size (ready_queue s))
  else ret 0.

Definition is_ready_queue_empty : M bool :=
  do size <- get_ready_queue_size;
  ret (size =? 0).

(** ** The threads of main.c and lane_process.c, one loop iteration each

    The loop conditions ([simulation_running], [keep_running]) are the guards
    of the transition relation below. *)

Definition EMERGENCY_PROBABILITY : Z := 100.
Definition SIMULATION_UPDATE_INTERVAL : Z := 300000.

Definition vehicle_generator_iteration : M unit :=
  do w <- get;
  if negb (simulation_paused w) then
    let max_sec := max_arrival_rate w in
    let min_sec := if max_sec <? min_arrival_rate w then max_sec
                   else min_arrival_rate w in
    do r1 <- rand;
    let sleep_time_sec := wrap_int (Z.rem r1 (wrap_int (max_sec - min_sec + 1)) + min_sec) in
    do r2 <- rand;
    let sleep_time_us :=
      wrap_int (wrap_int (sleep_time_sec * 1000000) + wrap_int (Z.rem r2 1000 * 1000)) in
    do r3 <- rand;
    let lane_idx := Z.rem r3 (Z.of_nat NUM_LANES) in
    do lane <- lane_index lane_idx;
    lock global_state_lock >>
    do w1 <- get;
    let new_vehicle_id := total_vehicles_generated w1 in
    modify (set_total_vehicles_generated (wrap_int (new_vehicle_id + 1))) >>
    unlock global_state_lock >>
    add_vehicle_to_lane lane new_vehicle_id >>
    do r4 <- rand;
    when (Z.rem r4 EMERGENCY_PROBABILITY =? 0)
         (modify (fun w =>
            set_emergency_system (add_random_emergency (emergency_system w) lane_idx) w)) >>
    lock (queue_lock lane) >>
    do l <- get_lane lane;
    when (LaneState_eqb (state l) WAITING)
         (modify_lane lane (set_state READY) >>
          modify_lane lane (set_waiting_time 0)) >>
    unlock (queue_lock lane) >>
    usleep sleep_time_us
  else usleep 500000.

Definition update_simulation_state : M unit :=
  lock global_state_lock >>
  do now <- time_now;
  modify (fun w => set_metrics (update_time_based_metrics (metrics w) now) w) >>
  modify (fun w => set_emergency_system (update_emergency_progress (emergency_system w)) w) >>
  unlock global_state_lock >>
  modify (fun w => set_deadlock_check_counter (wrap_int (deadlock_check_counter w + 1)) w) >>
  do w <- get;
  when (100 <=? deadlock_check_counter w)
       (modify (fun w => set_lanes (detect_and_resolve_advanced_deadlock (lanes w)) w) >>
        modify (set_deadlock_check_counter 0)).

Definition process_traffic_events : M unit :=
  do next_lane <- schedule_next_lane;
  if negb (next_lane =? -1) then
    do lane <- lane_index next_lane;
    do s <- get_scheduler;
    execute_lane_time_slice lane (time_quantum s)
  else ret tt.

Definition simulation_main_loop_iteration : M unit :=
  do w <- get;
  when (negb (simulation_paused w))
       (update_simulation_state >> process_traffic_events) >>
  usleep SIMULATION_UPDATE_INTERVAL.

Definition lane_process_thread_iteration (lane : nat) : M unit :=
  lock (queue_lock lane) >>
  do r <- rand;
  when (Z.rem r 10 =? 0)
       (do r' <- rand; add_vehicle_to_lane lane (Z.rem r' 1000)) >>
  do l <- get_lane lane;
  (if (0 <? queue_length l) && LaneState_eqb (state l) WAITING then
     modify_lane lane (set_state READY)
   else if (queue_length l =? 0) && negb (LaneState_eqb (state l) RUNNING) then
     modify_lane lane (set_state WAITING)
   else ret tt) >>
  do l1 <- get_lane lane;
  when (LaneState_eqb (state l1) RUNNING)
       (let max_batch := if queue_length l1 <? BATCH_EXIT_SIZE
                         then queue_length l1 else BATCH_EXIT_SIZE in
        do served <- for_each (seq 0 (Z.to_nat max_batch)) (fun _ =>
          do vehicle_id <- remove_vehicle_from_lane lane;
          if negb (vehicle_id =? -1) then
            modify_lane lane (fun l =>
              set_total_vehicles_served (wrap_int (total_vehicles_served l + 1)) l) >>
            ret true
          else ret false);
        let batch_count := Z.of_nat (length (filter (fun b => b = true) served)) in
        when (0 <? batch_count)
             (do now <- time_now;
              modify_lane lane (set_last_service_time now) >>
              unlock (queue_lock lane) >>
              usleep (VEHICLE_CROSS_TIME * 1000000 / 10) >>
              lock (queue_lock lane))) >>
  do l2 <- get_lane lane;
  when (LaneState_eqb (state l2) READY || LaneState_eqb (state l2) WAITING)
       (modify_lane lane (fun l => set_waiting_time (wrap_int (waiting_time l + 1)) l) >>
        modify_lane lane (fun l =>
          set_total_waiting_time (wrap_int (total_waiting_time l + 1)) l)) >>
  unlock (queue_lock lane) >>
  usleep 100000.

Definition handle_signal_interrupt : M unit :=
  modify (set_keep_running false) >>
  modify (set_simulation_running false).

Definition pause_traffic_simulation : M unit := modify (set_simulation_paused true).
Definition resume_traffic_simulation : M unit := modify (set_simulation_paused false).

Definition handle_signal_terminate : M unit :=
  modify (set_keep_running false) >>
  modify (set_simulation_running false).

Definition set_vehicle_arrival_rate (min_seconds max_seconds : Z) : M unit :=
  modify (set_min_arrival_rate min_seconds) >>
  modify (set_max_arrival_rate max_seconds) >>
  do w <- get;
  when (max_arrival_rate w <? min_arrival_rate w)
       (modify (set_max_arrival_rate (min_arrival_rate w))).

Definition set_time_quantum (seconds : Z) : M unit :=
  when (0 <? seconds) (modify_scheduler (with_time_quantum seconds)).

(** ** visualization.c: handle_user_input

    [ch] is what [wgetch] returned: a character code, or [ERR]. *)

Definition ERR : Z := -1.
Definition key (c : ascii) : Z := Z.of_nat (nat_of_ascii c).
Arguments key c%_char.

Definition handle_user_input (ch : Z) : M Z :=
  do w <- get;
  if show_help w then
    when (negb (ch =? ERR))
         (modify (set_show_help false) >>
          if pause_requested w then
            modify (set_simulation_paused true) >>
            modify (set_pause_requested false)
          else modify (set_simulation_paused false)) >>
    ret 0
  else if (ch =? key "q") || (ch =? key "Q") then
    modify (set_keep_running false) >> ret ch
  else if ch =? key " " then
    modify (fun w => set_simulation_paused (negb (simulation_paused w)) w) >> ret ch
  else if ch =? key "1" then
    set_scheduling_algorithm SJF >> ret ch
  else if ch =? key "2" then
    set_scheduling_algorithm MULTILEVEL_FEEDBACK >> ret ch
  else if ch =? key "3" then
    set_scheduling_algorithm PRIORITY_ROUND_ROBIN >> ret ch
  else if (ch =? key "e") || (ch =? key "E") then
    (* trigger_emergency_vehicle(...) is commented out in the source; the
       case body is  (void)0;  *)
    ret ch
  else if (ch =? key "h") || (ch =? key "H") then
    modify (set_show_help true) >>
    (if simulation_paused w then modify (set_pause_requested true)
     else modify (set_simulation_paused true) >>
          modify (set_pause_requested false)) >>
    ret ch
  else ret 0.

(** * Vocabulary of the properties

    What follows is not part of the program: pure descriptions of what its
    functions compute, the invariant of the system and its transition
    relation. *)

(** ** The SJF selection loop and the contract of a policy *)

Definition sjf_cost (q : Z) : Z := wrap_int (q * VEHICLE_CROSS_TIME).

(** What the loop has established after the lanes below [n]: either no READY
    lane was met and the locals still have their initial values, or
    [best_lane] is a READY lane that is least, in the order "smaller cost,
    then earlier arrival", among the READY lanes met. *)
Definition sjf_inv (snap : list (LaneState * Z * Z)) (now : Z) (n : nat)
    (v : sjf_locals) : Prop :=
  (sjf_best_lane v = -1 /\ sjf_min_estimated_time v = INT_MAX /\
   sjf_earliest_arrival v = now /\
   forall j q a, (j < n)%nat -> snap !! j = Some (READY, q, a) -> False)
  \/
  (exists b q a,
     (b < n)%nat /\ sjf_best_lane v = Z.of_nat b /\
     snap !! b = Some (READY, q, a) /\
     sjf_min_estimated_time v = sjf_cost q /\ sjf_earliest_arrival v = a /\
     forall j q' a', (j < n)%nat -> snap !! j = Some (READY, q', a') ->
       sjf_cost q < sjf_cost q' \/ (sjf_cost q = sjf_cost q' /\ a <= a')).

Definition lane_cost (l : LaneProcess) : Z := queue_length l * VEHICLE_CROSS_TIME.

(** The order in which SJF ranks two candidate lanes. *)
Definition sjf_before (l l' : LaneProcess) : Prop :=
  lane_cost l < lane_cost l' \/
  (lane_cost l = lane_cost l' /\ last_arrival_time l <= last_arrival_time l').

(** The contract: the policy returns, leaves the world alone, and its result
    is none or the index of a READY lane (hence none if no lane is READY). *)
Definition honours_contract (policy : M Z) (w : World) : Prop :=
  exists r, policy w = Done r w /\
    (r = -1 \/ exists i l, r = Z.of_nat i /\ lanes w !! i = Some l /\ state l = READY).

(** ** The context switch *)

Definition demote (l : LaneProcess) : LaneProcess :=
  if LaneState_eqb (state l) RUNNING then
    if 0 <? queue_length l then set_state READY l else set_state WAITING l
  else l.

Definition promote (l : LaneProcess) : LaneProcess :=
  if LaneState_eqb (state l) READY
  then set_waiting_time 0 (set_state RUNNING l) else l.

Definition update_lane (g : LaneProcess -> LaneProcess) (i : option nat)
    (ls : list LaneProcess) : list LaneProcess :=
  match i with
  | Some i => match ls !! i with Some l => <[i := g l]> ls | None => ls end
  | None => ls
  end.

(** What a context switch does to the lane array. *)
Definition switch_lanes (from_lane to_lane : option nat) (ls : list LaneProcess)
    : list LaneProcess :=
  update_lane promote to_lane (update_lane demote from_lane ls).

Definition valid_lane (i : option nat) (ls : list LaneProcess) : Prop :=
  match i with Some i => (i < length ls)%nat | None => True end.

(** The two sleeps that end a context switch. *)
Definition switch_delay (s : Scheduler) (w : World) : World :=
  elapse 1000000 (elapse (wrap_int (context_switch_time s * 1000)) w).

(** ** schedule_next_lane *)

Definition sjf_select (now : Z) (ls : list LaneProcess) : Z :=
  sjf_best_lane
    (fold_left
       (sjf_loop_body ((fun l => (state l, queue_length l, last_arrival_time l)) <$> ls))
       (seq 0 NUM_LANES) (mkSjf (-1) INT_MAX now)).

(** The lane the active policy selects. *)
Definition selected_lane (w : World) : Z :=
  match algorithm (scheduler w) with
  | SJF => sjf_select (clock w) (lanes w)
  | MULTILEVEL_FEEDBACK => schedule_next_lane_multilevel (scheduler w) (lanes w)
  | PRIORITY_ROUND_ROBIN => schedule_next_lane_priority_rr (scheduler w) (lanes w)
  end.

Definition is_lane_or_none (n : Z) : Prop := n = -1 \/ 0 <= n < Z.of_nat NUM_LANES.

Definition lane_of (n : Z) : option nat :=
  if 0 <=? n then Some (Z.to_nat n) else None.

(** The metrics after the context-switch count was attempted under
    [trylock]. *)
Definition counted_switch (w : World) : PerformanceMetrics MetricsOther :=
  if holds global_state_lock (busy w) then metrics w
  else update_context_switch_count (metrics w).

(** The world [schedule_next_lane] leaves behind. *)
Definition after_schedule (w : World) : World :=
  let n := selected_lane w in
  let s := scheduler w in
  if negb (n =? current_lane s) && negb (n =? -1) then
    let w1 :=
      switch_delay s
        (set_lanes (switch_lanes (lane_of (current_lane s)) (lane_of n) (lanes w)) w) in
    set_scheduler (set_last_schedule_time (clock w1) (set_current_lane n s))
      (set_metrics (counted_switch w) w1)
  else set_scheduler (set_last_schedule_time (clock w) s) w.

(** ** add_vehicle_to_lane *)

(** The lane after a vehicle was appended at time [now]. *)
Definition lane_with_vehicle (v now : Z) (l : LaneProcess) : LaneProcess :=
  let q := snd (enqueue (queue l) v) in
  set_last_arrival_time now (set_queue_length (get_size q) (set_queue q l)).

(** ** release_intersection_quadrants *)

(** The lane after [release_intersection_quadrants]. *)
Definition without_quadrants (l : LaneProcess) : LaneProcess :=
  set_requested_quadrants 0 (set_allocated_quadrants 0 l).

(** ** Weakest preconditions (total correctness) *)

Definition wp {A : Type} (m : M A) (Q : A -> World -> Prop) (w : World) : Prop :=
  match m w with
  | Done a w' => Q a w'
  | _ => False
  end.

(** ** record_execution and execute_lane_time_slice *)

(** The history buffer, when there is one, has [history_size] slots and
    [history_index] designates one of them. *)
Definition history_ok (s : Scheduler) : Prop :=
  match execution_history s with
  | None => True
  | Some h =>
      history_size s = Z.of_nat (length h) /\
      0 <= history_index s < history_size s /\
      history_size s <= INT_MAX
  end.

(** The lane after [remove_vehicle_from_lane_unlocked]. *)
Definition after_dequeue (l : LaneProcess) : LaneProcess :=
  let q := snd (dequeue (queue l)) in
  set_queue_length (get_size q) (set_queue q l).

(** The lane after its time slice. *)
Definition after_slice (l : LaneProcess) : LaneProcess :=
  let l1 := after_dequeue l in
  if (queue_length l1 =? 0) && LaneState_eqb (state l1) RUNNING
  then set_state WAITING l1 else l1.

(** ** Operations that start no lane

    [quiet w w']: from [w] to [w'] no lane has become RUNNING, and the
    scheduler's current lane and the running flag are what they were.
    [steps h H m]: run by a thread holding the mutexes [h], the operation
    [m], if it returns [a], is quiet and leaves the thread holding [H a]. *)

Definition no_new_running (ls ls' : list LaneProcess) : Prop :=
  length ls' = length ls /\
  forall i l', ls' !! i = Some l' -> state l' = RUNNING ->
    exists l, ls !! i = Some l /\ state l = RUNNING.

Definition quiet (w w' : World) : Prop :=
  no_new_running (lanes w) (lanes w') /\
  current_lane (scheduler w') = current_lane (scheduler w) /\
  simulation_running w' = simulation_running w.

Definition steps {A : Type} (h : list Mutex) (H : A -> list Mutex) (m : M A) : Prop :=
  forall w, held w = h ->
    match m w with
    | Done a w' => held w' = H a /\ quiet w w'
    | _ => True
    end.

(** ** Assumptions on the collaborators *)

(** The two policies that are not among the sources return none or a lane
    index (the spec's contract for every policy). *)
Definition policies_in_range : Prop :=
  forall s ls, length ls = NUM_LANES ->
    is_lane_or_none (schedule_next_lane_multilevel s ls) /\
    is_lane_or_none (schedule_next_lane_priority_rr s ls).

(** The deadlock sweep starts no lane (the spec: it moves its victim to
    WAITING; the scheduler alone makes lanes RUNNING). *)
Definition sweep_starts_no_lane : Prop :=
  forall ls, no_new_running ls (detect_and_resolve_advanced_deadlock ls).

(** ** The invariant *)

Definition at_most_one_running (ls : list LaneProcess) : Prop :=
  forall i j li lj,
    ls !! i = Some li -> ls !! j = Some lj ->
    state li = RUNNING -> state lj = RUNNING -> i = j.

Definition only_current_runs (w : World) : Prop :=
  forall i l, lanes w !! i = Some l -> state l = RUNNING ->
    current_lane (scheduler w) = Z.of_nat i.

Record Inv (w : World) : Prop := mkInv {
  inv_lanes : length (lanes w) = NUM_LANES;
  inv_held : held w = [];
  inv_current : is_lane_or_none (current_lane (scheduler w));
  inv_one : simulation_running w = true -> at_most_one_running (lanes w);
  inv_current_runs : simulation_running w = true -> only_current_runs w
}.

(** ** The transition system

    The system after [init_traffic_guru_system], the configuration calls of
    [main] and [start_traffic_simulation]; [now] is the time of start-up,
    [history] the execution-history buffer if its allocation succeeded,
    [b0] what [init_bankers_state] leaves.  The start-up time is a full
    second; an [Environment] step moves it to any other instant. *)
Definition boot (now min_rate max_rate : Z) (a : SchedulingAlgorithm)
    (history_allocated : bool) (blank : ExecutionRecord)
    (m0 : PerformanceMetrics MetricsOther) (e0 : EmergencySystem)
    (rnd : nat -> Z) (others : list Mutex) (b0 : BankersState) : World :=
  mkWorld
    (map (fun i => init_lane_process (Z.of_nat i) MAX_QUEUE_CAPACITY now)
         (seq 0 NUM_LANES))
    (set_scheduler_running true
       (set_current_lane (-1)
          (set_algorithm a (init_scheduler SJF now history_allocated blank))))
    m0 e0 true false 0 min_rate max_rate true false false 0 now rnd [] others
    0 b0.

(** What a thread does between two of its suspension points.  The threads
    interleave at this granularity: the simulation thread's iteration is an
    update of the state, a scheduling decision and a time slice; the other
    threads contribute whole loop iterations; [Environment] lets time pass (to
    the given number of microseconds) and other threads take or release
    mutexes. *)
Inductive event : Type :=
| UpdateState                              (* simulation thread *)
| ScheduleNext                             (* simulation thread *)
| TimeSlice (lane : nat) (time_quantum : Z) (* simulation thread *)
| GeneratorTick                            (* vehicle generator thread *)
| LaneTick (lane : nat)                    (* lane thread *)
| KeyPressed (ch : Z)                      (* user interface *)
| Interrupt                                (* SIGINT, SIGTERM *)
| Environment (time : Z) (others : list Mutex).

Definition perform (e : event) : M unit :=
  match e with
  | UpdateState => update_simulation_state
  | ScheduleNext => schedule_next_lane >> ret tt
  | TimeSlice lane tq => execute_lane_time_slice lane tq
  | GeneratorTick => vehicle_generator_iteration
  | LaneTick lane => lane_process_thread_iteration lane
  | KeyPressed ch => handle_user_input ch >> ret tt
  | Interrupt => handle_signal_interrupt
  | Environment t b => modify (fun w => set_busy b (set_time t w))
  end.

(** The states the system passes through.  The loops of [simulation_main_loop]
    and of [main] test [simulation_running] and [keep_running] at their head
    only, so that an iteration under way when a signal arrives is completed:
    the steps are taken whatever the flags are.  The relation therefore also
    admits steps that the program takes only once after the flags fell;
    what holds of every reachable state holds of every state of the program. *)
Inductive reachable : World -> Prop :=
| reachable_boot now min_rate max_rate a history_allocated blank m0 e0 rnd others b0 :
    reachable
      (boot now min_rate max_rate a history_allocated blank m0 e0 rnd others b0)
| reachable_step w e w' :
    reachable w -> perform e w = Done tt w' -> reachable w'.

(** The number [validate_single_lane_running] computes when every trylock
    succeeds. *)
Definition running_count (ls : list LaneProcess) : nat :=
  length (filter (fun l => state l = RUNNING) ls).

(** The lane the generator picks: its third call of [rand()] modulo 4. *)
Definition generator_lane (w : World) : nat :=
  Z.to_nat (Z.rem (Z.abs (rand_src w 2%nat)) (Z.of_nat NUM_LANES)).

(** ** Further vocabulary *)

(** What an iteration of [lane_process_thread] that returns does to its
    lane: the state is aligned with the cached queue length, then the two
    waiting counters advance if the lane is READY or WAITING. *)
Definition lane_settled (l : LaneProcess) : LaneProcess :=
  if (0 <? queue_length l) && LaneState_eqb (state l) WAITING then set_state READY l
  else if (queue_length l =? 0) && negb (LaneState_eqb (state l) RUNNING)
       then set_state WAITING l
       else l.

Definition lane_tick (l : LaneProcess) : LaneProcess :=
  let l1 := lane_settled l in
  if LaneState_eqb (state l1) READY || LaneState_eqb (state l1) WAITING
  then set_total_waiting_time (wrap_int (total_waiting_time l1 + 1))
         (set_waiting_time (wrap_int (waiting_time l1 + 1)) l1)
  else l1.

(** ** The selection loops of the other policies *)

(** The invariant of the SRTF loop: as [sjf_inv], with the lowest index
    winning among the READY lanes of least cost. *)
Definition srtf_inv (snap : list (LaneState * Z)) (n : nat) (v : Z * Z) : Prop :=
  (fst v = -1 /\ snd v = INT_MAX /\
   forall j q, (j < n)%nat -> snap !! j = Some (READY, q) -> False)
  \/
  (exists b q,
     (b < n)%nat /\ fst v = Z.of_nat b /\ snap !! b = Some (READY, q) /\
     snd v = sjf_cost q /\
     forall j q', (j < n)%nat -> snap !! j = Some (READY, q') ->
       sjf_cost q <= sjf_cost q' /\ (sjf_cost q' = sjf_cost q -> (b <= j)%nat)).

(** The comparison is a strict weak order on the values that satisfy [P]:
    what [<] is on any set of C floats that holds no NaN. *)
Definition float_order_on (P : float -> Prop) : Prop :=
  (forall a b, P a -> P b -> flt a b = true -> flt b a = false) /\
  (forall a b c, P a -> P b -> P c ->
     flt a b = false -> flt b c = false -> flt a c = false).

(** The values a float-scored loop compares: FLT_MAX and the scores of the
    READY entries of the snapshot. *)
Definition snap_scores {S : Type} (snap : list (LaneState * S)) (score : S -> float)
    (y : float) : Prop :=
  y = FLT_MAX \/ exists j x, snap !! j = Some (READY, x) /\ y = score x.

(** The same, in terms of the lanes. *)
Definition ready_scores {S : Type} (f : LaneProcess -> S) (score : S -> float)
    (ls : list LaneProcess) (y : float) : Prop :=
  y = FLT_MAX \/ exists l, l ∈ ls /\ state l = READY /\ y = score (f l).

(** A decision procedure for [float_order_on] over the values of a list. *)
Definition float_order_check (vals : list float) : bool :=
  forallb (fun a =>
    forallb (fun b =>
      implb (flt a b) (negb (flt b a)) &&
      forallb (fun c =>
        implb (negb (flt a b) && negb (flt b c)) (negb (flt a c))) vals) vals) vals.

(** The values of [ready_scores], listed. *)
Definition ready_score_list {S : Type} (f : LaneProcess -> S) (score : S -> float)
    (ls : list LaneProcess) : list float :=
  FLT_MAX :: map (fun l => score (f l))
                 (filter (fun l => state l = READY) ls).

(** The invariant of a float-scored loop. *)
Definition float_inv {S : Type} (snap : list (LaneState * S)) (score : S -> float)
    (n : nat) (v : Z * float) : Prop :=
  (fst v = -1 /\ snd v = FLT_MAX /\
   forall j x, (j < n)%nat -> snap !! j = Some (READY, x) ->
     flt (score x) FLT_MAX = false)
  \/
  (exists b x,
     (b < n)%nat /\ fst v = Z.of_nat b /\ snap !! b = Some (READY, x) /\
     snd v = score x /\ flt (score x) FLT_MAX = true /\
     forall j x', (j < n)%nat -> snap !! j = Some (READY, x') ->
       flt (score x') (score x) = false /\
       ((j < b)%nat -> flt (score x) (score x') = true)).

(** What a float-scored policy selects, in terms of the lanes: [r] is none
    exactly when no READY lane scores below FLT_MAX, and otherwise the first
    of the READY lanes of least score. *)
Definition selects_least {S : Type} (f : LaneProcess -> S) (score : S -> float)
    (ls : list LaneProcess) (r : Z) : Prop :=
  (r = -1 <-> forall l, l ∈ ls -> state l = READY -> flt (score (f l)) FLT_MAX = false) /\
  (r <> -1 ->
   exists i l, r = Z.of_nat i /\ ls !! i = Some l /\ state l = READY /\
     forall j l', ls !! j = Some l' -> state l' = READY ->
       flt (score (f l')) (score (f l)) = false /\
       ((j < i)%nat -> flt (score (f l)) (score (f l')) = true)).

(** ** The execution history as a ring buffer *)

(** The scheduler after [record_execution] has stored a record. *)
Definition store_record (lane_id start_time end_time vehicles_processed : Z)
    (s : Scheduler) : Scheduler :=
  match execution_history s with
  | Some h =>
      set_history
        (Some (<[Z.to_nat (history_index s) :=
                  mkRecord lane_id start_time end_time
                           (wrap_int (end_time - start_time)) vehicles_processed]> h))
        (Z.rem (wrap_int (history_index s + 1)) (history_size s)) s
  | None => s
  end.

(** A record as [record_execution] stores it: the duration is computed. *)
Definition as_recorded (r : ExecutionRecord) : ExecutionRecord :=
  mkRecord (er_lane_id r) (er_start_time r) (er_end_time r)
           (wrap_int (er_end_time r - er_start_time r)) (er_vehicles_processed r).

(** Successive calls of [record_execution]. *)
Fixpoint record_all (rs : list ExecutionRecord) : M unit :=
  match rs with
  | [] => ret tt
  | r :: rest =>
      record_execution (er_lane_id r) (er_start_time r) (er_end_time r)
                       (er_vehicles_processed r) >>
      record_all rest
  end.

(** ** A change of algorithm *)

(** The world after a change of algorithm that obtained the scheduler lock:
    while the simulation runs, every lane is stopped and the ready queue
    emptied. *)
Definition after_algorithm_change (a : SchedulingAlgorithm) (w : World) : World :=
  let s := set_current_lane (-1) (set_algorithm a (scheduler w)) in
  if simulation_running w
  then set_scheduler (set_ready_queue (mkQueue [] (capacity (ready_queue s))) s)
         (set_lanes (demote <$> lanes w) w)
  else set_scheduler s w.

(** ** A time slice *)

(** The seconds [execute_lane_time_slice] counts as waited by the vehicle
    it serves, and the microseconds it sleeps while the vehicle crosses. *)
Definition slice_wait (w : World) (l : LaneProcess) : Z :=
  let t := wrap_int (clock w - last_arrival_time l) in
  if t <? 0 then 0 else t.

Definition slice_delay (w : World) : Z :=
  2000000 + Z.rem (Z.abs (rand_src w 0%nat)) 2000000.

(** A vehicle is served when [dequeue] returns something else than -1. *)
Definition serves (l : LaneProcess) : bool := negb (fst (dequeue (queue l)) =? -1).

(** The world after the time slice of lane [i], which was [l]. *)
Definition after_time_slice (i : nat) (l : LaneProcess) (w : World) : World :=
  let w1 :=
    if serves l then
      elapse (slice_delay w)
        (set_rand_src (fun n => rand_src w (S n))
           (set_metrics
              (count_processed_vehicle (lane_id l) (slice_wait w l) (metrics w)) w))
    else w in
  let s := if holds scheduler_lock (busy w) then scheduler w
           else store_record (lane_id l) (clock w) (clock w1)
                             (if serves l then 1 else 0) (scheduler w) in
  set_scheduler s (set_lanes (<[i := after_slice l]> (lanes w)) w1).

(** ** The vehicle generator *)

(** The wake-up of a lane, and an arrival that is dropped when the queue is
    full. *)
Definition wake (l : LaneProcess) : LaneProcess :=
  if LaneState_eqb (state l) WAITING
  then set_waiting_time 0 (set_state READY l) else l.

Definition arrival (v now : Z) (l : LaneProcess) : LaneProcess :=
  if fst (enqueue (queue l) v) then lane_with_vehicle v now l else l.

(** The seconds and the microseconds the generator sleeps after an
    arrival: its first two calls of [rand()] decide. *)
Definition generator_sleep_sec (w : World) : Z :=
  let max_sec := max_arrival_rate w in
  let min_sec := if max_sec <? min_arrival_rate w then max_sec
                 else min_arrival_rate w in
  wrap_int (Z.rem (Z.abs (rand_src w 0%nat)) (wrap_int (max_sec - min_sec + 1)) + min_sec).

Definition generator_sleep_us (w : World) : Z :=
  wrap_int (wrap_int (generator_sleep_sec w * 1000000)
            + wrap_int (Z.rem (Z.abs (rand_src w 1%nat)) 1000 * 1000)).

(** The world after an iteration of the generator that found the
    simulation not paused; [l] is the lane it picked. *)
Definition after_generator_tick (l : LaneProcess) (w : World) : World :=
  elapse (generator_sleep_us w)
    (set_lanes
       (<[generator_lane w :=
            wake (arrival (total_vehicles_generated w) (clock w) l)]> (lanes w))
       (set_emergency_system
          (if Z.rem (Z.abs (rand_src w 3%nat)) EMERGENCY_PROBABILITY =? 0
           then add_random_emergency (emergency_system w)
                  (Z.rem (Z.abs (rand_src w 2%nat)) (Z.of_nat NUM_LANES))
           else emergency_system w)
          (set_rand_src (fun n => rand_src w (S (S (S (S n)))))
             (set_total_vehicles_generated
                (wrap_int (total_vehicles_generated w + 1)) w)))).

(** ** Invariants of the scheduler and of the lanes

    [kept PS PL w]: the scheduler satisfies [PS] and lane [i] satisfies
    [PL i], for every lane; [keeps PS PL m]: the operation [m], if it
    returns, preserves this. *)

Definition kept (PS : Scheduler -> Prop) (PL : nat -> LaneProcess -> Prop)
    (w : World) : Prop :=
  PS (scheduler w) /\ forall i l, lanes w !! i = Some l -> PL i l.

Definition keeps {A : Type} (PS : Scheduler -> Prop)
    (PL : nat -> LaneProcess -> Prop) (m : M A) : Prop :=
  forall w a w', kept PS PL w -> m w = Done a w' -> kept PS PL w'.

(** A lane is consistent: it carries its own index, its cached length is
    the size of its queue, and the queue respects the capacity the lane was
    created with. *)
Definition lane_ok (i : nat) (l : LaneProcess) : Prop :=
  lane_id l = Z.of_nat i /\
  queue_length l = get_size (queue l) /\
  get_size (queue l) <= capacity (queue l) /\
  capacity (queue l) = MAX_QUEUE_CAPACITY /\
  max_queue_length l = MAX_QUEUE_CAPACITY.

(** The scheduler's history is well formed and no context switch has been
    counted. *)
Definition scheduler_ok (s : Scheduler) : Prop :=
  history_ok s /\ total_context_switches s = 0.

(** The deadlock sweep, which is not among the sources, leaves consistent
    lanes consistent (the spec: it changes the state of a victim). *)
Definition sweep_keeps_lanes_ok : Prop :=
  forall ls, (forall i l, ls !! i = Some l -> lane_ok i l) ->
    forall i l, detect_and_resolve_advanced_deadlock ls !! i = Some l -> lane_ok i l.

End Program.

Arguments Done {FL CO A} a w.
Arguments Deadlock {FL CO A}.
Arguments OutOfBounds {FL CO A}.

(** * The command line (first part of main.c)

    [getopt_long] and [atoi] are libc: the options are given as the list of
    what the successive calls of [getopt_long] return, the option character
    with [optarg], and [atoi] is a function from strings to [int]s.
    SIMULATION_DURATION is defined in a header that is not among the
    sources.  [None] is exit(0), the end of the -v option. *)

Module CommandLine.

Import String.StringSyntax.

Record CommandLineArgs : Type := mkArgs {
  duration : Z;
  min_arrival_rate : Z;
  max_arrival_rate : Z;
  time_quantum : Z;
  algorithm : SchedulingAlgorithm;
  debug_mode : bool;
  no_color : bool;
  help_requested : bool
}.

Definition with_duration (v : Z) (a : CommandLineArgs) : CommandLineArgs :=
  mkArgs v (min_arrival_rate a) (max_arrival_rate a) (time_quantum a) (algorithm a)
         (debug_mode a) (no_color a) (help_requested a).
Definition with_min_arrival_rate (v : Z) (a : CommandLineArgs) : CommandLineArgs :=
  mkArgs (duration a) v (max_arrival_rate a) (time_quantum a) (algorithm a)
         (debug_mode a) (no_color a) (help_requested a).
Definition with_max_arrival_rate (v : Z) (a : CommandLineArgs) : CommandLineArgs :=
  mkArgs (duration a) (min_arrival_rate a) v (time_quantum a) (algorithm a)
         (debug_mode a) (no_color a) (help_requested a).
Definition with_time_quantum (v : Z) (a : CommandLineArgs) : CommandLineArgs :=
  mkArgs (duration a) (min_arrival_rate a) (max_arrival_rate a) v (algorithm a)
         (debug_mode a) (no_color a) (help_requested a).
Definition with_algorithm (v : SchedulingAlgorithm) (a : CommandLineArgs) : CommandLineArgs :=
  mkArgs (duration a) (min_arrival_rate a) (max_arrival_rate a) (time_quantum a) v
         (debug_mode a) (no_color a) (help_requested a).
Definition with_debug_mode (v : bool) (a : CommandLineArgs) : CommandLineArgs :=
  mkArgs (duration a) (min_arrival_rate a) (max_arrival_rate a) (time_quantum a)
         (algorithm a) v (no_color a) (help_requested a).
Definition with_no_color (v : bool) (a : CommandLineArgs) : CommandLineArgs :=
  mkArgs (duration a) (min_arrival_rate a) (max_arrival_rate a) (time_quantum a)
         (algorithm a) (debug_mode a) v (help_requested a).
Definition with_help_requested (v : bool) (a : CommandLineArgs) : CommandLineArgs :=
  mkArgs (duration a) (min_arrival_rate a) (max_arrival_rate a) (time_quantum a)
         (algorithm a) (debug_mode a) (no_color a) v.

Section Libc.

Variable SIMULATION_DURATION : Z.
Variable atoi : String.string -> Z.

(** The body of the [switch] for one option. *)
Definition parse_option (c : ascii) (optarg : String.string) (args : CommandLineArgs)
    : option CommandLineArgs :=
  if Ascii.eqb c "d" then
    let d := atoi optarg in
    Some (with_duration (if d <=? 0 then SIMULATION_DURATION else d) args)
  else if Ascii.eqb c "a" then
    let r := atoi optarg in
    Some (with_min_arrival_rate (if r <=? 0 then 1 else r) args)
  else if Ascii.eqb c "A" then
    let r := atoi optarg in
    Some (with_max_arrival_rate (if r <=? 0 then 5 else r) args)
  else if Ascii.eqb c "q" then
    let q := atoi optarg in
    Some (with_time_quantum (if q <=? 0 then DEFAULT_TIME_QUANTUM else q) args)
  else if Ascii.eqb c "g" then
    if String.eqb optarg "sjf" then Some (with_algorithm SJF args)
    else if String.eqb optarg "multilevel" then
      Some (with_algorithm MULTILEVEL_FEEDBACK args)
    else if String.eqb optarg "priority" then
      Some (with_algorithm PRIORITY_ROUND_ROBIN args)
    else Some (with_help_requested true args)
  else if Ascii.eqb c "D" then Some (with_debug_mode true args)
  else if Ascii.eqb c "n" then Some (with_no_color true args)
  else if Ascii.eqb c "h" then Some (with_help_requested true args)
  else if Ascii.eqb c "v" then None
  else if Ascii.eqb c "b" then
    Some (with_debug_mode false (with_duration 60 args))
  else if Ascii.eqb c "?" then Some (with_help_requested true args)
  else Some args.

(** The [while] loop over the options. *)
Fixpoint parse_options (opts : list (ascii * String.string)) (args : CommandLineArgs)
    : option CommandLineArgs :=
  match opts with
  | [] => Some args
  | (c, optarg) :: rest =>
      match parse_option c optarg args with
      | Some args' => parse_options rest args'
      | None => None
      end
  end.

Definition parse_command_line_args (opts : list (ascii * String.string))
    : option CommandLineArgs :=
  let args :=
    mkArgs SIMULATION_DURATION VEHICLE_ARRIVAL_RATE_MIN VEHICLE_ARRIVAL_RATE_MAX
           DEFAULT_TIME_QUANTUM SJF false false false in
  match parse_options opts args with
  | Some args =>
      Some (if max_arrival_rate args <? min_arrival_rate args
            then with_max_arrival_rate (min_arrival_rate args)
                   (with_min_arrival_rate (max_arrival_rate args) args)
            else args)
  | None => None
  end.

End Libc.

Definition validate_command_line_args (args : CommandLineArgs) : CommandLineArgs :=
  let args := if duration args <? 10 then with_duration 10 args else args in
  if 3600 <? duration args then with_duration 3600 args else args.

End CommandLine.

(** * A concrete system

    An instance of the two interfaces, used to run the definitions: floats
    are fixed-point numbers in thousandths; the multilevel policy takes the
    first READY lane, the priority round-robin policy the lane after the
    current one; the deadlock sweep sends BLOCKED lanes back to WAITING. *)

Module Sample.

#[export] Instance fixed_point : CFloat := {|
  float := Z;
  float_of_int := fun n => 1000 * n;
  fadd := Z.add;
  fsub := Z.sub;
  fmul := fun a b => a * b / 1000;
  fdiv := fun a b => a * 1000 / b;
  flt := Z.ltb;
  FLT_MAX := 340282346638528859811704183484516925440000;
  float_zero := 0;
  float_tenth := 100;
  float_fifth := 200;
  float_sixty := 60000
|}.

Fixpoint first_ready (i : nat) (ls : list LaneProcess) : Z :=
  match ls with
  | [] => -1
  | l :: rest => if LaneState_eqb (state l) READY then Z.of_nat i
                 else first_ready (S i) rest
  end.

Definition unblock (l : LaneProcess) : LaneProcess :=
  if LaneState_eqb (state l) BLOCKED then set_state WAITING l else l.

#[export] Instance collaborators : Collaborators := {|
  MetricsOther := Z;                      (* the context-switch count *)
  EmergencySystem := list Z;              (* lanes with a pending emergency *)
  schedule_next_lane_multilevel := fun _ ls => first_ready 0 (take NUM_LANES ls);
  schedule_next_lane_priority_rr := fun s _ => (current_lane s + 1) mod 4;
  update_context_switch_count := fun m =>
    mkMetrics (total_vehicles_processed m) (lane_throughput m) (lane_wait_times m)
              (metrics_other m + 1);
  update_time_based_metrics := fun m _ => m;
  update_emergency_progress := fun e => e;
  add_random_emergency := fun e lane => lane :: e;
  detect_and_resolve_advanced_deadlock := map unblock
|}.

Definition metrics0 : PerformanceMetrics Z := mkMetrics 0 [0; 0; 0; 0] [0; 0; 0; 0] 0.

Definition blank_record : ExecutionRecord := mkRecord 0 0 0 0 0.

(** The allocator before any grant. *)
Definition bankers0 : BankersState := mkBankers 4 [0; 0; 0; 0] [0; 0; 0; 0] 4.

(** The system right after start-up, at time 1000. *)
Definition w_boot : World :=
  boot 1000 3 8 SJF true blank_record metrics0 []
       (fun n => Z.of_nat (n * (n + 1) / 2)) [] bankers0.

Definition lane (id : Z) (vehicles : list Z) (s : LaneState) (arrival : Z) : LaneProcess :=
  mkLane id (mkQueue vehicles MAX_QUEUE_CAPACITY) (Z.of_nat (length vehicles))
         MAX_QUEUE_CAPACITY s 2 5 arrival 0 0 0 2 1.

Definition with_lanes (ls : list LaneProcess) (cur : Z) (a : SchedulingAlgorithm) : World :=
  set_scheduler (set_current_lane cur (set_algorithm a (scheduler w_boot)))
    (set_lanes ls w_boot).

(** Three READY lanes with 3, 1 and 2 vehicles; no current lane. *)
Definition w_ready : World :=
  with_lanes [lane 0 [11; 12; 13] READY 990; lane 1 [21] READY 995;
              lane 2 [31; 32] READY 992; lane 3 [] WAITING 900] (-1) SJF.

(** Lane 0 is RUNNING and current; lanes 1 and 2 are READY. *)
Definition w_running : World :=
  with_lanes [lane 0 [11; 12; 13] RUNNING 990; lane 1 [21] READY 995;
              lane 2 [31; 32] READY 992; lane 3 [] WAITING 900] 0 SJF.

(** As [w_boot], under priority round robin: every lane is WAITING. *)
Definition w_round_robin : World :=
  with_lanes (lanes w_boot) (-1) PRIORITY_ROUND_ROBIN.

(** As [w_ready], after the allocator granted every lane the quadrant it
    holds: one quadrant each, none available. *)
Definition w_granted : World :=
  set_bankers_state (mkBankers 4 [1; 1; 1; 1] [2; 2; 2; 2] 0) w_ready.

(** Lane 0 has a queue of capacity 2 that is full. *)
Definition w_full : World :=
  with_lanes [mkLane 0 (mkQueue [1; 2] 2) 2 2 READY 2 0 990 0 0 0 0 0;
              lane 1 [] WAITING 900; lane 2 [] WAITING 900; lane 3 [] WAITING 900]
             (-1) SJF.

(** Running a list of events from a state; an event that does not return
    is skipped. *)
Definition next (w : World) (e : event) : World :=
  match perform e w with Done _ w' => w' | _ => w end.

(** Arrivals, a scheduling decision, a time slice, the emergency key, a
    switch of policy and another scheduling decision. *)
Definition trace : list event :=
  [GeneratorTick; GeneratorTick; ScheduleNext; TimeSlice 3 3; GeneratorTick;
   KeyPressed (key "e"); KeyPressed (key "2"); ScheduleNext].

Definition w_later : World := fold_left next trace w_boot.

(** The simulation thread in its second iteration, between
    [update_simulation_state] and [process_traffic_events].  Two vehicles
    arrived in lane 0; the first iteration selected lane 0 and served one of
    them, so that lane 0 is still RUNNING; then a vehicle arrived in lane 1,
    which is READY.  (The [rand()] stream decides the lanes; the sleep that
    ends the first iteration is left out.) *)
Definition w_second_iteration : World :=
  fold_left next
    [GeneratorTick; GeneratorTick; UpdateState; ScheduleNext; TimeSlice 0 3;
     GeneratorTick; UpdateState]
    (boot 1000 3 8 SJF true blank_record metrics0 []
          (fun n => nth n [0; 0; 0; 1; 0; 0; 0; 1; 0; 0; 0; 1; 1] 0) [] bankers0).

(** As [w_ready], with a [rand()] stream that starts 7, 8, 9, ... *)
Definition w_dice : World := set_rand_src (fun n => Z.of_nat n + 7) w_ready.

(** As [w_ready], seen by a thread inside the critical section of lane 0. *)
Definition w_in_section : World := set_held [queue_lock 0] w_ready.

(** Lane 0 has served a vehicle. *)
Definition w_served : World :=
  with_lanes [set_total_vehicles_served 1 (lane 0 [11] READY 990);
              lane 1 [] WAITING 900; lane 2 [] WAITING 900; lane 3 [] WAITING 900]
             (-1) SJF.

(** The value a computation returns, 0 if it does not return. *)
Definition result_of (o : outcome Z) : Z :=
  match o with Done a _ => a | _ => 0 end.

(** Another thread holds the scheduler lock; the algorithm is priority
    round robin. *)
Definition w_locked_out : World := set_busy [scheduler_lock] w_round_robin.

(** Two lanes are RUNNING and other threads hold every lane lock. *)
Definition w_two_running : World :=
  set_busy [queue_lock 0; queue_lock 1; queue_lock 2; queue_lock 3]
    (with_lanes [lane 0 [11] RUNNING 990; lane 1 [21] RUNNING 995;
                 lane 2 [] WAITING 900; lane 3 [] WAITING 900] 0 SJF).

(** Lane 0 is RUNNING and current, with vehicles queued; no lane is
    READY. *)
Definition w_stalled : World :=
  with_lanes [lane 0 [11; 12; 13] RUNNING 990; lane 1 [] WAITING 900;
              lane 2 [] WAITING 900; lane 3 [] WAITING 900] 0 SJF.

(** As [w_full], with a [rand()] stream 6, 7, 8, ... : the generator picks
    lane 0, whose queue is full. *)
Definition w_full_dice : World := set_rand_src (fun n => Z.of_nat n + 6) w_full.

(** As [w_running], 0.9 s into the current second and with a [rand()]
    stream that makes the crossing take 3.2 s. *)
Definition w_late : World :=
  set_usec 900000 (set_rand_src (fun _ => 1200000) w_running).

(** As [w_ready], paused. *)
Definition w_paused : World := set_simulation_paused true w_ready.

(** A decimal [atoi] for unsigned numerals, and the options of
    [trafficguru -a 10 -g priority -q 0]. *)
Fixpoint decimal (s : String.string) (acc : Z) : Z :=
  match s with
  | String.EmptyString => acc
  | String.String c rest =>
      let d := Z.of_nat (nat_of_ascii c) - 48 in
      if (0 <=? d) && (d <=? 9) then decimal rest (10 * acc + d) else acc
  end.

Definition sample_atoi (s : String.string) : Z := decimal s 0.

Import String.StringSyntax.
#[local] Open Scope string_scope.

Definition option_with (c : ascii) (optarg : String.string) : ascii * String.string :=
  (c, optarg).

Definition sample_options : list (ascii * String.string) :=
  [option_with "a" "10"; option_with "g" "priority"; option_with "q" "0"].

End Sample.

(** * C floats as IEEE 754 single precision

    A second implementation of the float interface: binary32 with rounding
    to nearest even, as the Standard Library specifies it ([SpecFloat] with
    precision 24 and maximal exponent 128), and the same stand-ins for the
    collaborators as in [Sample]. *)

Module Ieee.

Definition prec : Z := 24.
Definition emax : Z := 128.

(** The conversion of an [int]. *)
Definition of_int (n : Z) : SpecFloat.spec_float :=
  SpecFloat.binary_normalize prec emax n 0 false.

#[export] Instance binary32 : CFloat := {|
  float := SpecFloat.spec_float;
  float_of_int := of_int;
  fadd := SpecFloat.SFadd prec emax;
  fsub := SpecFloat.SFsub prec emax;
  fmul := SpecFloat.SFmul prec emax;
  fdiv := SpecFloat.SFdiv prec emax;
  flt := SpecFloat.SFltb;
  FLT_MAX := SpecFloat.SFmax_float prec emax;
  float_zero := SpecFloat.S754_zero false;
  float_tenth := SpecFloat.SFdiv prec emax (of_int 1) (of_int 10);
  float_fifth := SpecFloat.SFdiv prec emax (of_int 1) (of_int 5);
  float_sixty := of_int 60
|}.

#[export] Instance collaborators : Collaborators := {|
  MetricsOther := Z;
  EmergencySystem := list Z;
  schedule_next_lane_multilevel :=
    fun _ ls => Sample.first_ready 0 (take NUM_LANES ls);
  schedule_next_lane_priority_rr := fun s _ => (current_lane s + 1) mod 4;
  update_context_switch_count := fun m =>
    mkMetrics (total_vehicles_processed m) (lane_throughput m) (lane_wait_times m)
              (metrics_other m + 1);
  update_time_based_metrics := fun m _ => m;
  update_emergency_progress := fun e => e;
  add_random_emergency := fun e lane => lane :: e;
  detect_and_resolve_advanced_deadlock := map Sample.unblock
|}.

Definition metrics0 : PerformanceMetrics Z :=
  mkMetrics 0 [0; 0; 0; 0]
    [float_zero; float_zero; float_zero; float_zero] 0.

(** The system right after start-up, at time 1000, with the given lanes. *)
Definition with_lanes (ls : list LaneProcess) : World :=
  set_lanes ls
    (boot 1000 3 8 SJF true Sample.blank_record metrics0 []
          (fun n => Z.of_nat n) [] Sample.bankers0).

(** Three READY lanes with 3, 1 and 2 vehicles, each with waiting time 5;
    their aging scores are 8.5, 2.5 and 5.5. *)
Definition w_ready : World :=
  with_lanes [Sample.lane 0 [11; 12; 13] READY 990; Sample.lane 1 [21] READY 995;
              Sample.lane 2 [31; 32] READY 992; Sample.lane 3 [] WAITING 900].

(** Lane 0 has served a vehicle. *)
Definition w_served : World :=
  with_lanes [set_total_vehicles_served 1 (Sample.lane 0 [11] READY 990);
              Sample.lane 1 [] WAITING 900; Sample.lane 2 [] WAITING 900;
              Sample.lane 3 [] WAITING 900].

(** The value a computation returns, 0 if it does not return. *)
Definition result_of (o : outcome Z) : Z :=
  match o with Done a _ => a | _ => 0 end.

End Ieee.

(** * Properties *)

Section Properties.

Context `{FL : CFloat} `{CO : !Collaborators}.

#[local] Notation "'do' x <- m ; k" := (bind m (fun x => k))
  (at level 10, x name, m at level 100, k at level 200, only parsing).
#[local] Notation "m >> k" := (bind m (fun _ => k))
  (at level 100, k at level 200, right associativity, only parsing).

(** ** Running computations *)

Lemma bind_Done {A B : Type} (m : M A) (k : A -> M B) w a w1 :
  m w = Done a w1 -> bind m k w = k a w1.
Proof. intros E. unfold bind. now rewrite E. Qed.

Lemma bind_Deadlock {A B : Type} (m : M A) (k : A -> M B) w :
  m w = Deadlock -> bind m k w = Deadlock.
Proof. intros E. unfold bind. now rewrite E. Qed.

Lemma bind_inv {A B : Type} (m : M A) (k : A -> M B) w b w2 :
  bind m k w = Done b w2 ->
  exists a w1, m w = Done a w1 /\ k a w1 = Done b w2.
Proof.
  unfold bind. destruct (m w) as [a w1| |]; try discriminate.
  intros E. now exists a, w1.
Qed.

Lemma Mutex_eqb_refl m : Mutex_eqb m m = true.
Proof. destruct m; simpl; auto using Nat.eqb_refl. Qed.

Lemma Mutex_eqb_eq a b : Mutex_eqb a b = true <-> a = b.
Proof.
  split.
  - destruct a, b; simpl; try discriminate; auto.
    intros E. apply Nat.eqb_eq in E. now subst.
  - intros ->. apply Mutex_eqb_refl.
Qed.

Lemma release_not_held m h : holds m h = false -> release m h = h.
Proof.
  unfold holds, release. induction h as [|x h IH]; simpl; [reflexivity|].
  intros E. apply orb_false_iff in E as [E1 E2].
  rewrite filter_cons. rewrite E1. simpl.
  destruct (decide (Is_true true)) as [_|n]; [|destruct n; exact I].
  f_equal. now apply IH.
Qed.

Lemma release_just_locked m h : holds m h = false -> release m (m :: h) = h.
Proof.
  intros E. unfold release. rewrite filter_cons, Mutex_eqb_refl. simpl.
  destruct (decide (Is_true false)) as [[]|_].
  now apply release_not_held.
Qed.

(** ** Time *)

Lemma now_us_set_time t w : now_us (set_time t w) = t.
Proof.
  unfold now_us, set_time. simpl. pose proof (Z.div_mod t 1000000). lia.
Qed.

Lemma now_us_elapse us w : now_us (elapse us w) = now_us w + us.
Proof. apply now_us_set_time. Qed.

Lemma clock_elapse us w : clock (elapse us w) = clock w + (usec w + us) / 1000000.
Proof.
  unfold elapse, set_time, now_us. simpl.
  rewrite <- Z.add_assoc. apply Z.div_add_l. lia.
Qed.

Lemma set_held_same w : set_held (held w) w = w.
Proof. now destruct w. Qed.

Lemma LaneState_eqb_eq a b : LaneState_eqb a b = true <-> a = b.
Proof. destruct a, b; simpl; split; intros; congruence. Qed.

Lemma LaneState_eqb_neq a b : LaneState_eqb a b = false <-> a <> b.
Proof. destruct a, b; simpl; split; intros; congruence. Qed.

(** A critical section that only reads the lane: lock, read, unlock. *)
Lemma read_lane_locked {A : Type} (f : LaneProcess -> A) i l w :
  holds (queue_lock i) (held w) = false ->
  lanes w !! i = Some l ->
  (lock (queue_lock i) >>
   do l <- get_lane i;
   unlock (queue_lock i) >>
   ret (f l)) w = Done (f l) w.
Proof.
  intros Hh Hl. unfold bind, lock, get_lane, unlock, modify, ret.
  rewrite Hh. simpl. rewrite Hl. simpl.
  rewrite release_just_locked by assumption.
  f_equal. now destruct w.
Qed.

(** The copying loop of a policy returns the image of the lane array and
    leaves the world as it found it. *)
Lemma snapshot_loop {A : Type} (f : LaneProcess -> A) (body : nat -> M A) w :
  (forall i l, lanes w !! i = Some l -> body i w = Done (f l) w) ->
  forall n s, (s + n <= length (lanes w))%nat ->
  for_each (seq s n) body w = Done (f <$> take n (drop s (lanes w))) w.
Proof.
  intros Hbody. induction n as [|n IH]; intros s Hlen; simpl.
  - reflexivity.
  - destruct (lanes w !! s) as [l|] eqn:El.
    2:{ apply lookup_ge_None in El. lia. }
    rewrite (bind_Done _ _ _ _ _ (Hbody _ _ El)).
    rewrite (bind_Done _ _ _ _ _ (IH (S s) ltac:(lia))).
    unfold ret. f_equal.
    rewrite (drop_S _ _ _ El). simpl. f_equal.
Qed.

Lemma snapshot_all {A : Type} (f : LaneProcess -> A) (body : nat -> M A) w :
  length (lanes w) = NUM_LANES ->
  (forall i l, lanes w !! i = Some l -> body i w = Done (f l) w) ->
  for_lanes body w = Done (f <$> lanes w) w.
Proof.
  intros Hlen Hbody. unfold for_lanes.
  rewrite (snapshot_loop f body w Hbody) by (rewrite Hlen; lia).
  rewrite drop_0, <- Hlen, firstn_all. reflexivity.
Qed.

(** ** The SJF selection loop *)

Lemma wrap_int_id z : in_int_range z -> wrap_int z = z.
Proof.
  unfold in_int_range, INT_MIN, INT_MAX, wrap_int. intros Hz.
  rewrite Z.mod_small by lia. lia.
Qed.

Lemma sjf_cost_exact q :
  in_int_range (q * VEHICLE_CROSS_TIME) ->
  sjf_cost q = q * VEHICLE_CROSS_TIME /\ sjf_cost q < INT_MAX.
Proof.
  intros Hq. unfold sjf_cost. rewrite wrap_int_id by assumption.
  split; [reflexivity|].
  unfold in_int_range, INT_MIN, INT_MAX, VEHICLE_CROSS_TIME in *. lia.
Qed.

Lemma sjf_inv_step snap now n v :
  (forall j q a, snap !! j = Some (READY, q, a) -> sjf_cost q < INT_MAX) ->
  sjf_inv snap now n v ->
  sjf_inv snap now (S n) (sjf_loop_body snap v n).
Proof.
  intros Hcost Hinv. unfold sjf_loop_body.
  destruct (snap !! n) as [[[st q] a]|] eqn:En.
  2:{ destruct Hinv as [(H1 & H2 & H3 & H4)|(b & qb & ab & Hb & H1 & H2 & H3 & H4 & H5)].
      - left. repeat split; auto. intros j q' a' Hj Hs.
        destruct (decide (j = n)) as [->|]; [congruence|]. eapply H4; [|eassumption]. lia.
      - right. exists b, qb, ab. repeat split; auto; try lia.
        intros j q' a' Hj Hs.
        destruct (decide (j = n)) as [->|]; [congruence|]. eapply H5; [|eassumption]. lia. }
  destruct (decide (st = READY)) as [->|Hst].
  - fold (sjf_cost q). pose proof (Hcost _ _ _ En) as Hlt.
    destruct Hinv as [(H1 & H2 & H3 & H4)|(b & qb & ab & Hb & H1 & H2 & H3 & H4 & H5)].
    + rewrite H2. destruct (Z.ltb_spec (sjf_cost q) INT_MAX); [|lia].
      right. exists n, q, a. simpl. repeat split; auto.
      intros j q' a' Hj Hs.
      destruct (decide (j = n)) as [->|].
      * rewrite En in Hs. injection Hs as <- <-. right. lia.
      * exfalso. eapply H4; [|eassumption]. lia.
    + rewrite H3, H4.
      destruct (Z.ltb_spec (sjf_cost q) (sjf_cost qb)).
      * right. exists n, q, a. simpl. repeat split; auto.
        intros j q' a' Hj Hs.
        destruct (decide (j = n)) as [->|].
        -- rewrite En in Hs. injection Hs as <- <-. right. lia.
        -- destruct (H5 j q' a' ltac:(lia) Hs) as [?|[? ?]]; left; lia.
      * destruct (Z.eqb_spec (sjf_cost q) (sjf_cost qb)).
        -- destruct (Z.ltb_spec a ab).
           ++ right. exists n, q, a. simpl. repeat split; auto.
              intros j q' a' Hj Hs.
              destruct (decide (j = n)) as [->|].
              ** rewrite En in Hs. injection Hs as <- <-. right. lia.
              ** destruct (H5 j q' a' ltac:(lia) Hs) as [?|[? ?]]; [left|right]; lia.
           ++ right. exists b, qb, ab. repeat split; auto; try lia.
              intros j q' a' Hj Hs.
              destruct (decide (j = n)) as [->|].
              ** rewrite En in Hs. injection Hs as <- <-. right. lia.
              ** apply H5 with j; [lia|assumption].
        -- right. exists b, qb, ab. repeat split; auto; try lia.
           intros j q' a' Hj Hs.
           destruct (decide (j = n)) as [->|].
           ++ rewrite En in Hs. injection Hs as <- <-. left. lia.
           ++ apply H5 with j; [lia|assumption].
  - assert (sjf_inv snap now (S n) v) as Hkeep.
    { destruct Hinv as [(H1 & H2 & H3 & H4)|(b & qb & ab & Hb & H1 & H2 & H3 & H4 & H5)].
      - left. repeat split; auto. intros j q' a' Hj Hs.
        destruct (decide (j = n)) as [->|]; [congruence|]. eapply H4; [|eassumption]. lia.
      - right. exists b, qb, ab. repeat split; auto; try lia.
        intros j q' a' Hj Hs.
        destruct (decide (j = n)) as [->|]; [congruence|]. eapply H5; [|eassumption]. lia. }
    destruct st; try congruence; exact Hkeep.
Qed.

Lemma sjf_inv_loop snap now n :
  (forall j q a, snap !! j = Some (READY, q, a) -> sjf_cost q < INT_MAX) ->
  sjf_inv snap now n
    (fold_left (sjf_loop_body snap) (seq 0 n) (mkSjf (-1) INT_MAX now)).
Proof.
  intros Hcost. induction n as [|n IH].
  - left. simpl. repeat split; auto. intros; lia.
  - rewrite seq_S, fold_left_app. simpl. now apply sjf_inv_step.
Qed.

(** [schedule_next_lane_sjf] returns, changes nothing, and its result is the
    outcome of the selection loop over the copied lane data. *)
Lemma schedule_next_lane_sjf_run w :
  length (lanes w) = NUM_LANES ->
  (forall i, holds (queue_lock i) (held w) = false) ->
  schedule_next_lane_sjf w =
  Done (sjf_best_lane
          (fold_left
             (sjf_loop_body
                ((fun l => (state l, queue_length l, last_arrival_time l)) <$> lanes w))
             (seq 0 NUM_LANES) (mkSjf (-1) INT_MAX (clock w)))) w.
Proof.
  intros Hlen Hfree. unfold schedule_next_lane_sjf.
  unfold bind at 1. unfold time_now at 1.
  erewrite bind_Done; [reflexivity|].
  apply (snapshot_all (fun l => (state l, queue_length l, last_arrival_time l)));
    [assumption|].
  intros i l Hl.
  apply (read_lane_locked (fun l => (state l, queue_length l, last_arrival_time l)));
    auto.
Qed.

(** C2.  [schedule_next_lane_sjf] returns without changing anything; it
    returns none exactly when no lane is READY; otherwise it returns a READY
    lane whose cost queue_length * VEHICLE_CROSS_TIME is minimal among the
    READY lanes and whose last arrival is the earliest among the READY lanes
    of that cost.  With READY lanes of queue lengths 3, 1 and 2 (and a fourth
    lane that is not READY) the lane of queue length 1 is returned. *)
Theorem sjf_selects_cheapest_ready_lane (w : World) :
  length (lanes w) = NUM_LANES ->
  (forall i, holds (queue_lock i) (held w) = false) ->
  (forall l, l ∈ lanes w -> in_int_range (lane_cost l)) ->
  exists r,
    schedule_next_lane_sjf w = Done r w /\
    (r = -1 <-> forall l, l ∈ lanes w -> state l <> READY) /\
    (r <> -1 ->
     exists i l, r = Z.of_nat i /\ lanes w !! i = Some l /\ state l = READY /\
       forall j l', lanes w !! j = Some l' -> state l' = READY -> sjf_before l l') /\
    (forall l0 l1 l2 l3,
       lanes w = [l0; l1; l2; l3] ->
       state l0 = READY -> state l1 = READY -> state l2 = READY ->
       state l3 <> READY ->
       queue_length l0 = 3 -> queue_length l1 = 1 -> queue_length l2 = 2 ->
       r = 1).
Proof.
  intros Hlen Hfree Hrange.
  set (snap := (fun l => (state l, queue_length l, last_arrival_time l)) <$> lanes w).
  assert (Hsnap : forall j q a, snap !! j = Some (READY, q, a) ->
            exists l, lanes w !! j = Some l /\ state l = READY /\
                      queue_length l = q /\ last_arrival_time l = a).
  { intros j q a Hj. unfold snap in Hj. rewrite list_lookup_fmap in Hj.
    destruct (lanes w !! j) as [l|]; simpl in Hj; [|discriminate].
    injection Hj as <- <- <-. now exists l. }
  assert (Hsnap' : forall j l, lanes w !! j = Some l -> state l = READY ->
            snap !! j = Some (READY, queue_length l, last_arrival_time l)).
  { intros j l Hj Hs. unfold snap. rewrite list_lookup_fmap, Hj. simpl. now rewrite Hs. }
  assert (Hcost : forall j q a, snap !! j = Some (READY, q, a) -> sjf_cost q < INT_MAX).
  { intros j q a Hj. destruct (Hsnap _ _ _ Hj) as (l & Hl & _ & <- & _).
    apply sjf_cost_exact. apply Hrange. eapply list_elem_of_lookup_2; eauto. }
  assert (Hexact : forall l, l ∈ lanes w -> sjf_cost (queue_length l) = lane_cost l).
  { intros l Hl. apply sjf_cost_exact. now apply Hrange. }
  pose proof (sjf_inv_loop snap (clock w) NUM_LANES Hcost) as Hinv.
  rewrite (schedule_next_lane_sjf_run w Hlen Hfree). fold snap.
  set (v := fold_left (sjf_loop_body snap) (seq 0 NUM_LANES) (mkSjf (-1) INT_MAX (clock w))) in *.
  exists (sjf_best_lane v). split; [reflexivity|].
  assert (Hnone : sjf_best_lane v = -1 <-> forall l, l ∈ lanes w -> state l <> READY).
  { destruct Hinv as [(H1 & _ & _ & H4)|(b & q & a & Hb & H1 & H2 & _)].
    - split; [|auto]. intros _ l Hl Hs.
      apply list_elem_of_lookup in Hl as [j Hj].
      apply (H4 j (queue_length l) (last_arrival_time l)); auto.
      apply lookup_lt_Some in Hj. now rewrite Hlen in Hj.
    - split; [lia|]. intros Hno. exfalso.
      destruct (Hsnap _ _ _ H2) as (l & Hl & Hs & _).
      apply (Hno l); [eapply list_elem_of_lookup_2; eauto|assumption]. }
  assert (Hmin : sjf_best_lane v <> -1 ->
     exists i l, sjf_best_lane v = Z.of_nat i /\ lanes w !! i = Some l /\ state l = READY /\
       forall j l', lanes w !! j = Some l' -> state l' = READY -> sjf_before l l').
  { destruct Hinv as [(H1 & _)|(b & q & a & Hb & H1 & H2 & _ & _ & H5)]; [congruence|].
    intros _. destruct (Hsnap _ _ _ H2) as (l & Hl & Hs & Hq & Ha).
    exists b, l. repeat split; auto.
    intros j l' Hj Hs'.
    assert (Hjn : (j < NUM_LANES)%nat).
    { apply lookup_lt_Some in Hj. now rewrite Hlen in Hj. }
    pose proof (H5 j _ _ Hjn (Hsnap' _ _ Hj Hs')) as Hle.
    unfold sjf_before. rewrite <- Hq, <- Ha in Hle.
    rewrite !Hexact in Hle by (eapply list_elem_of_lookup_2; eauto).
    exact Hle. }
  split; [exact Hnone|]. split; [exact Hmin|].
  intros l0 l1 l2 l3 El S0 S1 S2 S3 Q0 Q1 Q2.
  assert (Hne : sjf_best_lane v <> -1).
  { intros Habs. apply (proj1 Hnone Habs l0); [|assumption].
    rewrite El. apply list_elem_of_here. }
  destruct (Hmin Hne) as (i & l & Hi & Hl & Hs & Hle).
  rewrite El in Hl, Hle.
  pose proof (Hle 1%nat l1 eq_refl S1) as Hle1.
  unfold sjf_before, lane_cost, VEHICLE_CROSS_TIME in Hle1.
  destruct i as [|[|[|[|i]]]]; simpl in Hl; try discriminate; injection Hl as <-;
    try (rewrite Hi; reflexivity); try congruence; lia.
Qed.

(** ** The contract of a policy: READY lanes only

    A selection loop whose body assigns [best_lane = i] only under the test
    [state[i] == READY] ends with none or with the index of a READY lane. *)

Lemma ready_only_loop {V : Type} (best : V -> Z) (body : V -> nat -> V)
    (ls : list LaneProcess) :
  (forall v i, best (body v i) = best v \/
               (best (body v i) = Z.of_nat i /\
                exists l, ls !! i = Some l /\ state l = READY)) ->
  forall n v0, best v0 = -1 ->
    best (fold_left body (seq 0 n) v0) = -1 \/
    exists i l, best (fold_left body (seq 0 n) v0) = Z.of_nat i /\
                ls !! i = Some l /\ state l = READY.
Proof.
  intros Hbody n v0 H0. induction n as [|n IH].
  - now left.
  - rewrite seq_S, fold_left_app. simpl.
    destruct (Hbody (fold_left body (seq 0 n) v0) n) as [E|(E & l & Hl & Hs)].
    + rewrite E. exact IH.
    + right. now exists n, l.
Qed.

Lemma honours_contract_none policy w :
  honours_contract policy w ->
  (forall l, l ∈ lanes w -> state l <> READY) ->
  policy w = Done (-1) w.
Proof.
  intros (r & Hr & [->|(i & l & _ & Hl & Hs)]) Hno; [exact Hr|].
  exfalso. apply (Hno l); [eapply list_elem_of_lookup_2; eauto|assumption].
Qed.

Lemma sjf_honours_contract w :
  length (lanes w) = NUM_LANES ->
  (forall i, holds (queue_lock i) (held w) = false) ->
  honours_contract schedule_next_lane_sjf w.
Proof.
  intros Hlen Hfree. unfold honours_contract.
  rewrite (schedule_next_lane_sjf_run w Hlen Hfree).
  eexists; split; [reflexivity|].
  apply (ready_only_loop sjf_best_lane); [|reflexivity].
  intros v i. unfold sjf_loop_body. rewrite list_lookup_fmap.
  destruct (lanes w !! i) as [l|] eqn:El; simpl; [|now left].
  destruct (state l) eqn:Es; try (now left).
  repeat match goal with |- context [if ?c then _ else _] => destruct c end;
    simpl; auto; right; split; auto; now exists l.
Qed.

Lemma srtf_honours_contract w :
  length (lanes w) = NUM_LANES ->
  (forall i, holds (queue_lock i) (held w) = false) ->
  honours_contract schedule_next_lane_srtf w.
Proof.
  intros Hlen Hfree. unfold honours_contract, schedule_next_lane_srtf.
  erewrite bind_Done.
  2:{ apply (snapshot_all (fun l => (state l, queue_length l))); [assumption|].
      intros i l Hl.
      apply (read_lane_locked (fun l => (state l, queue_length l))); auto. }
  eexists; split; [reflexivity|].
  apply (ready_only_loop fst); [|reflexivity].
  intros [b m] i. unfold srtf_loop_body. rewrite list_lookup_fmap.
  destruct (lanes w !! i) as [l|] eqn:El; simpl; [|now left].
  destruct (state l) eqn:Es; try (now left).
  repeat match goal with |- context [if ?c then _ else _] => destruct c end;
    simpl; auto; right; split; auto; now exists l.
Qed.

Lemma float_loop_ready_only {S : Type} (f : LaneProcess -> S) (score : S -> float)
    (ls : list LaneProcess) v i :
  fst (float_loop_body ((fun l => (state l, f l)) <$> ls) score v i) = fst v \/
  (fst (float_loop_body ((fun l => (state l, f l)) <$> ls) score v i) = Z.of_nat i /\
   exists l, ls !! i = Some l /\ state l = READY).
Proof.
  destruct v as [b m]. unfold float_loop_body. rewrite list_lookup_fmap.
  destruct (ls !! i) as [l|] eqn:El; simpl; [|now left].
  destruct (state l) eqn:Es; try (now left).
  destruct (flt _ _); simpl; auto. right; split; auto; now exists l.
Qed.

Lemma aging_honours_contract w :
  length (lanes w) = NUM_LANES ->
  (forall i, holds (queue_lock i) (held w) = false) ->
  honours_contract schedule_next_lane_sjf_with_aging w.
Proof.
  intros Hlen Hfree. unfold honours_contract, schedule_next_lane_sjf_with_aging.
  erewrite bind_Done.
  2:{ apply (snapshot_all (fun l => (state l, (queue_length l, waiting_time l))));
        [assumption|].
      intros i l Hl.
      apply (read_lane_locked (fun l => (state l, (queue_length l, waiting_time l))));
        auto. }
  eexists; split; [reflexivity|].
  apply (ready_only_loop fst); [|reflexivity].
  intros v i. apply (float_loop_ready_only (fun l => (queue_length l, waiting_time l))).
Qed.

(** The two remaining policies call, inside the critical section of a lane,
    a helper that locks the same lane again. *)

Lemma get_lane_throughput_relock i w :
  holds (queue_lock i) (held w) = true -> get_lane_throughput i w = Deadlock.
Proof.
  intros Hh. unfold get_lane_throughput, bind, lock. now rewrite Hh.
Qed.

Lemma holds_here m h : holds m (m :: h) = true.
Proof. unfold holds. simpl. now rewrite Mutex_eqb_refl. Qed.

Lemma for_each_first_deadlock {A : Type} (body : nat -> M A) i rest w :
  body i w = Deadlock -> for_each (i :: rest) body w = Deadlock.
Proof. intros E. simpl. now apply bind_Deadlock. Qed.

(** C3.  [schedule_next_lane_predictive_sjf] does not return: while it holds
    the lock of lane 0 it calls [get_lane_throughput], which locks the same
    (non-recursive) mutex.  So the contract "none when no lane is READY"
    fails for this policy, whatever the lanes are. *)
Theorem predictive_sjf_self_deadlock (w : World) :
  length (lanes w) = NUM_LANES ->
  schedule_next_lane_predictive_sjf w = Deadlock.
Proof.
  intros Hlen. unfold schedule_next_lane_predictive_sjf.
  apply bind_Deadlock. unfold for_lanes. simpl seq.
  apply for_each_first_deadlock.
  unfold bind at 1. unfold lock at 1.
  destruct (holds (queue_lock 0) (held w)) eqn:Hh; [reflexivity|].
  unfold bind at 1. unfold get_lane at 1. simpl lanes.
  destruct (lanes w !! 0%nat) as [l|] eqn:El.
  2:{ apply lookup_ge_None in El. rewrite Hlen in El. unfold NUM_LANES in El. lia. }
  apply bind_Deadlock. apply get_lane_throughput_relock.
  apply holds_here.
Qed.

Lemma enhanced_body_run i l w :
  holds (queue_lock i) (held w) = false ->
  lanes w !! i = Some l ->
  (lock (queue_lock i) >>
   do l <- get_lane i;
   do avg_wait <- get_lane_average_wait_time i;
   unlock (queue_lock i) >>
   ret (state l, (queue_length l, waiting_time l, avg_wait))) w =
  if total_vehicles_served l =? 0
  then Done (state l, (queue_length l, waiting_time l, float_zero)) w
  else Deadlock.
Proof.
  intros Hh Hl.
  unfold bind, lock, get_lane, get_lane_average_wait_time, unlock, modify, ret.
  rewrite Hh. simpl. rewrite Hl. simpl.
  unfold bind, get_lane. simpl. rewrite Hl.
  destruct (total_vehicles_served l =? 0); simpl.
  - rewrite release_just_locked by assumption. f_equal. now destruct w.
  - unfold lock. simpl. now rewrite holds_here.
Qed.

(** The weighted policy returns as long as no lane has served a vehicle, and
    then honours the contract ... *)
Lemma enhanced_honours_contract_before_service w :
  length (lanes w) = NUM_LANES ->
  (forall i, holds (queue_lock i) (held w) = false) ->
  (forall l, l ∈ lanes w -> total_vehicles_served l = 0) ->
  honours_contract schedule_next_lane_enhanced_sjf w.
Proof.
  intros Hlen Hfree Hzero. unfold honours_contract, schedule_next_lane_enhanced_sjf.
  erewrite bind_Done.
  2:{ apply (snapshot_all
               (fun l => (state l, (queue_length l, waiting_time l, float_zero))));
        [assumption|].
      intros i l Hl. rewrite (enhanced_body_run i l w) by auto.
      rewrite (Hzero l) by (eapply list_elem_of_lookup_2; eauto). reflexivity. }
  eexists; split; [reflexivity|].
  apply (ready_only_loop fst); [|reflexivity].
  intros v i.
  apply (float_loop_ready_only (fun l => (queue_length l, waiting_time l, float_zero))).
Qed.

(** ... and blocks for ever once some lane has. *)
Lemma enhanced_sjf_deadlock_after_service w :
  length (lanes w) = NUM_LANES ->
  (forall i, holds (queue_lock i) (held w) = false) ->
  (exists l, l ∈ lanes w /\ total_vehicles_served l <> 0) ->
  schedule_next_lane_enhanced_sjf w = Deadlock.
Proof.
  intros Hlen Hfree (lbad & Hin & Hbad).
  apply list_elem_of_lookup in Hin as [k Hk].
  unfold schedule_next_lane_enhanced_sjf. apply bind_Deadlock. unfold for_lanes.
  assert (Hk4 : k ∈ seq 0 NUM_LANES).
  { apply elem_of_seq. apply lookup_lt_Some in Hk. lia. }
  assert (Hrange : forall i, i ∈ seq 0 NUM_LANES -> is_Some (lanes w !! i)).
  { intros i Hi. apply lookup_lt_is_Some. apply elem_of_seq in Hi. lia. }
  revert Hk4 Hrange. generalize (seq 0 NUM_LANES) as idxs.
  induction idxs as [|i rest IH]; intros Hk4 Hrange.
  - inversion Hk4.
  - destruct (Hrange i ltac:(left)) as [l Hl].
    simpl. unfold bind at 1.
    rewrite (enhanced_body_run i l w) by auto.
    destruct (Z.eqb_spec (total_vehicles_served l) 0) as [Ez|Enz]; [|reflexivity].
    rewrite bind_Deadlock; [reflexivity|].
    apply IH.
    + apply elem_of_cons in Hk4 as [->|Hk4]; [|assumption]. congruence.
    + intros j Hj. apply Hrange. now right.
Qed.

(** ** The context switch *)

Lemma modify_lane_run i f l w :
  lanes w !! i = Some l ->
  modify_lane i f w = Done tt (set_lanes (<[i := f l]> (lanes w)) w).
Proof. intros E. unfold modify_lane. now rewrite E. Qed.

Lemma get_lane_run i l w : lanes w !! i = Some l -> get_lane i w = Done l w.
Proof. intros E. unfold get_lane. now rewrite E. Qed.

Lemma lock_run m w :
  holds m (held w) = false -> lock m w = Done tt (set_held (m :: held w) w).
Proof. intros E. unfold lock. now rewrite E. Qed.

(** [lock; read the lane; update it by a function of what was read; unlock]
    amounts to one update of the lane array. *)
Lemma update_lane_locked (g : LaneProcess -> LaneProcess) (body : LaneProcess -> M unit) i l w :
  holds (queue_lock i) (held w) = false ->
  lanes w !! i = Some l ->
  (forall w1, lanes w1 = lanes w ->
     body l w1 = Done tt (set_lanes (<[i := g l]> (lanes w1)) w1)) ->
  (lock (queue_lock i) >>
   do l <- get_lane i;
   body l >>
   unlock (queue_lock i)) w = Done tt (set_lanes (<[i := g l]> (lanes w)) w).
Proof.
  intros Hh Hl Hbody.
  rewrite (bind_Done _ _ _ _ _ (lock_run _ _ Hh)).
  rewrite (bind_Done _ _ _ _ _ (get_lane_run i l (set_held _ w) Hl)).
  rewrite (bind_Done _ _ _ _ _ (Hbody (set_held _ w) eq_refl)).
  unfold unlock, modify. simpl.
  rewrite release_just_locked by assumption. now destruct w.
Qed.

Lemma set_lanes_same w : set_lanes (lanes w) w = w.
Proof. now destruct w. Qed.

Lemma set_lanes_insert_same i l w :
  lanes w !! i = Some l -> set_lanes (<[i := l]> (lanes w)) w = w.
Proof. intros E. rewrite list_insert_id by assumption. apply set_lanes_same. Qed.

Lemma length_update_lane g i ls : length (update_lane g i ls) = length ls.
Proof.
  destruct i as [i|]; simpl; [|reflexivity].
  destruct (ls !! i); [apply length_insert|reflexivity].
Qed.

Lemma length_switch_lanes f t ls : length (switch_lanes f t ls) = length ls.
Proof. unfold switch_lanes. now rewrite !length_update_lane. Qed.

Lemma demote_section f l w :
  holds (queue_lock f) (held w) = false ->
  lanes w !! f = Some l ->
  (lock (queue_lock f) >>
   do l <- get_lane f;
   (if LaneState_eqb (state l) RUNNING then
      if 0 <? queue_length l
      then modify_lane f (set_state READY)
      else modify_lane f (set_state WAITING)
    else ret tt) >>
   unlock (queue_lock f)) w
  = Done tt (set_lanes (<[f := demote l]> (lanes w)) w).
Proof.
  intros Hh Hl.
  apply (update_lane_locked demote
           (fun l => if LaneState_eqb (state l) RUNNING then
                       if 0 <? queue_length l
                       then modify_lane f (set_state READY)
                       else modify_lane f (set_state WAITING)
                     else ret tt)); auto.
  intros w1 E1. unfold demote.
  assert (Hl1 : lanes w1 !! f = Some l) by now rewrite E1.
  destruct (LaneState_eqb (state l) RUNNING).
  - destruct (0 <? queue_length l); now apply modify_lane_run.
  - unfold ret. now rewrite set_lanes_insert_same.
Qed.

Lemma promote_section t l w :
  holds (queue_lock t) (held w) = false ->
  lanes w !! t = Some l ->
  (lock (queue_lock t) >>
   do l <- get_lane t;
   (if LaneState_eqb (state l) READY then
      modify_lane t (set_state RUNNING) >>
      modify_lane t (set_waiting_time 0)
    else ret tt) >>
   unlock (queue_lock t)) w
  = Done tt (set_lanes (<[t := promote l]> (lanes w)) w).
Proof.
  intros Hh Hl.
  apply (update_lane_locked promote
           (fun l => if LaneState_eqb (state l) READY then
                       modify_lane t (set_state RUNNING) >>
                       modify_lane t (set_waiting_time 0)
                     else ret tt)); auto.
  intros w1 E1. unfold promote.
  assert (Hl1 : lanes w1 !! t = Some l) by now rewrite E1.
  destruct (LaneState_eqb (state l) READY).
  - rewrite (bind_Done _ _ _ _ _ (modify_lane_run _ _ _ _ Hl1)).
    erewrite modify_lane_run.
    2:{ simpl. apply list_lookup_insert_eq. now apply lookup_lt_Some in Hl1. }
    simpl. now rewrite list_insert_insert_eq.
  - unfold ret. now rewrite set_lanes_insert_same.
Qed.

Lemma context_switch_run from_lane to_lane w :
  (forall i, holds (queue_lock i) (held w) = false) ->
  valid_lane from_lane (lanes w) ->
  valid_lane to_lane (lanes w) ->
  context_switch from_lane to_lane w =
  Done tt (switch_delay (scheduler w)
             (set_lanes (switch_lanes from_lane to_lane (lanes w)) w)).
Proof.
  intros Hfree Hf Ht. unfold context_switch.
  set (w1 := set_lanes (update_lane demote from_lane (lanes w)) w).
  assert (E1 : (match from_lane with
                | Some f =>
                    lock (queue_lock f) >>
                    do l <- get_lane f;
                    (if LaneState_eqb (state l) RUNNING then
                       if 0 <? queue_length l
                       then modify_lane f (set_state READY)
                       else modify_lane f (set_state WAITING)
                     else ret tt) >>
                    unlock (queue_lock f)
                | None => ret tt
                end) w = Done tt w1).
  { unfold w1. destruct from_lane as [f|]; simpl in *.
    - destruct (lookup_lt_is_Some_2 _ _ Hf) as [l Hl]. rewrite Hl.
      now apply demote_section.
    - unfold ret. now rewrite set_lanes_same. }
  rewrite (bind_Done _ _ _ _ _ E1).
  set (w2 := set_lanes (switch_lanes from_lane to_lane (lanes w)) w).
  assert (E2 : (match to_lane with
                | Some t =>
                    lock (queue_lock t) >>
                    do l <- get_lane t;
                    (if LaneState_eqb (state l) READY then
                       modify_lane t (set_state RUNNING) >>
                       modify_lane t (set_waiting_time 0)
                     else ret tt) >>
                    unlock (queue_lock t)
                | None => ret tt
                end) w1 = Done tt w2).
  { unfold w2, switch_lanes. destruct to_lane as [t|]; simpl in *.
    - assert (Ht1 : (t < length (lanes w1))%nat).
      { unfold w1. simpl. now rewrite length_update_lane. }
      destruct (lookup_lt_is_Some_2 _ _ Ht1) as [l Hl].
      rewrite (promote_section t l w1); auto.
      unfold w1 in *. simpl in *. now rewrite Hl.
    - unfold ret. unfold w1. reflexivity. }
  rewrite (bind_Done _ _ _ _ _ E2).
  unfold bind, get_scheduler, usleep, modify, switch_delay. reflexivity.
Qed.

(** ** schedule_next_lane *)

(** A loop whose bodies return without changing the world does so too. *)
Lemma for_each_unchanged {A : Type} (body : nat -> M A) w idxs :
  (forall i, i ∈ idxs -> exists x, body i w = Done x w) ->
  exists xs, for_each idxs body w = Done xs w.
Proof.
  induction idxs as [|i rest IH]; intros Hbody; simpl.
  - now exists [].
  - destruct (Hbody i ltac:(left)) as [x Hx].
    destruct IH as [xs Hxs]; [intros j Hj; apply Hbody; now right|].
    exists (x :: xs).
    rewrite (bind_Done _ _ _ _ _ Hx), (bind_Done _ _ _ _ _ Hxs). reflexivity.
Qed.

Lemma validate_single_lane_running_unchanged w :
  length (lanes w) = NUM_LANES ->
  (forall i, holds (queue_lock i) (held w) = false) ->
  exists b, validate_single_lane_running w = Done b w.
Proof.
  intros Hlen Hfree. unfold validate_single_lane_running, for_lanes.
  edestruct (for_each_unchanged
    (fun i => do ok <- trylock (queue_lock i);
              if ok then
                do l <- get_lane i;
                unlock (queue_lock i) >> ret (LaneState_eqb (state l) RUNNING)
              else ret false) w (seq 0 NUM_LANES)) as [flags Hflags].
  { intros i Hi. apply elem_of_seq in Hi.
    destruct (lookup_lt_is_Some_2 (lanes w) i ltac:(lia)) as [l Hl].
    unfold bind, trylock. rewrite Hfree. simpl.
    destruct (holds (queue_lock i) (busy w)).
    - now exists false.
    - exists (LaneState_eqb (state l) RUNNING).
      unfold get_lane, unlock, modify, ret. simpl. rewrite Hl. simpl.
      rewrite release_just_locked by auto. now destruct w. }
  rewrite (bind_Done _ _ _ _ _ Hflags).
  destruct (1 <? _); eexists; reflexivity.
Qed.

Lemma sjf_select_in_range now ls :
  length ls = NUM_LANES -> is_lane_or_none (sjf_select now ls).
Proof.
  intros Hlen. unfold sjf_select.
  destruct (ready_only_loop sjf_best_lane
              (sjf_loop_body ((fun l => (state l, queue_length l, last_arrival_time l)) <$> ls))
              ls) with (n := NUM_LANES) (v0 := mkSjf (-1) INT_MAX now)
    as [E|(i & l & E & Hl & _)].
  - intros v i. unfold sjf_loop_body. rewrite list_lookup_fmap.
    destruct (ls !! i) as [l|] eqn:El; simpl; [|now left].
    destruct (state l) eqn:Es; try (now left).
    repeat match goal with |- context [if ?c then _ else _] => destruct c end;
      simpl; auto; right; split; auto; now exists l.
  - reflexivity.
  - left. exact E.
  - right. rewrite E. apply lookup_lt_Some in Hl. lia.
Qed.

Lemma lane_index_run n w :
  0 <= n < Z.of_nat (length (lanes w)) ->
  lane_index n w = Done (Z.to_nat n) w.
Proof.
  intros Hn. unfold lane_index.
  destruct (Z.leb_spec 0 n); [|lia].
  destruct (Nat.ltb_spec (Z.to_nat n) (length (lanes w))); [reflexivity|lia].
Qed.

Lemma valid_lane_of n ls :
  length ls = NUM_LANES -> is_lane_or_none n -> valid_lane (lane_of n) ls.
Proof.
  intros Hlen [->|Hn]; unfold lane_of; simpl; [exact I|].
  destruct (Z.leb_spec 0 n); simpl; [|exact I]. rewrite Hlen. lia.
Qed.

Lemma policy_run w :
  length (lanes w) = NUM_LANES ->
  (forall i, holds (queue_lock i) (held w) = false) ->
  (match algorithm (scheduler w) with
   | SJF => schedule_next_lane_sjf
   | MULTILEVEL_FEEDBACK =>
       do w <- get; ret (schedule_next_lane_multilevel (scheduler w) (lanes w))
   | PRIORITY_ROUND_ROBIN =>
       do w <- get; ret (schedule_next_lane_priority_rr (scheduler w) (lanes w))
   end) w = Done (selected_lane w) w.
Proof.
  intros Hlen Hfree. unfold selected_lane.
  destruct (algorithm (scheduler w)); [|reflexivity|reflexivity].
  now apply schedule_next_lane_sjf_run.
Qed.

Lemma trylock_count_run w :
  held w = [scheduler_lock] ->
  (do ok <- trylock global_state_lock;
   when ok
     (modify (fun w => set_metrics (update_context_switch_count (metrics w)) w) >>
      unlock global_state_lock)) w
  = Done tt (set_metrics (counted_switch w) w).
Proof.
  intros Hh. unfold bind, trylock, counted_switch. rewrite Hh.
  change (holds global_state_lock [scheduler_lock]) with false. simpl.
  destruct (holds global_state_lock (busy w)); simpl.
  - unfold ret. f_equal. now destruct w.
  - unfold unlock, modify. simpl.
    rewrite release_just_locked by reflexivity.
    f_equal. destruct w; simpl in *. now subst.
Qed.

(** [schedule_next_lane], called by a thread that holds no mutex, returns
    the lane the active policy selects and leaves [after_schedule]. *)
Lemma schedule_next_lane_run w :
  held w = [] ->
  length (lanes w) = NUM_LANES ->
  is_lane_or_none (selected_lane w) ->
  is_lane_or_none (current_lane (scheduler w)) ->
  schedule_next_lane w = Done (selected_lane w) (after_schedule w).
Proof.
  intros Hheld Hlen Hsel Hcur. unfold schedule_next_lane.
  set (w0 := set_held [scheduler_lock] w).
  assert (Hfree0 : forall i, holds (queue_lock i) (held w0) = false) by reflexivity.
  assert (Hlen0 : length (lanes w0) = NUM_LANES) by exact Hlen.
  rewrite (bind_Done _ _ _ tt w0).
  2:{ unfold lock. rewrite Hheld. reflexivity. }
  unfold bind at 1. unfold get_scheduler at 1.
  rewrite (bind_Done _ _ _ _ _ (policy_run w0 Hlen0 Hfree0)).
  change (selected_lane w0) with (selected_lane w).
  change (scheduler w0) with (scheduler w).
  set (n := selected_lane w) in *. set (s := scheduler w) in *.
  unfold after_schedule. fold n s.
  destruct (negb (n =? current_lane s) && negb (n =? -1)) eqn:Hcond.
  - apply andb_true_iff in Hcond as [Hc1 Hc2].
    apply negb_true_iff, Z.eqb_neq in Hc1, Hc2.
    assert (Hn : 0 <= n < Z.of_nat NUM_LANES) by (destruct Hsel; [contradiction|assumption]).
    assert (Hn0 : 0 <= n < Z.of_nat (length (lanes w0))) by (rewrite Hlen0; exact Hn).
    assert (Hto : valid_lane (Some (Z.to_nat n)) (lanes w0)).
    { unfold valid_lane. rewrite Hlen0. lia. }
    assert (Efrom :
      (if 0 <=? current_lane s
       then do i <- lane_index (current_lane s); ret (Some i)
       else ret None) w0 = Done (lane_of (current_lane s)) w0).
    { unfold lane_of. destruct (Z.leb_spec 0 (current_lane s)); [|reflexivity].
      rewrite (bind_Done _ _ _ _ _ (lane_index_run (current_lane s) w0 ltac:(
        rewrite Hlen0; destruct Hcur; lia))).
      reflexivity. }
    match goal with |- bind ?m ?k w0 = _ => rewrite (bind_Done m k w0 tt
       (set_scheduler (set_current_lane n s)
          (set_metrics (counted_switch w)
            (switch_delay s
              (set_lanes (switch_lanes (lane_of (current_lane s)) (lane_of n) (lanes w)) w0))))) end.
    + unfold bind, time_now, modify_scheduler, modify, unlock, ret. simpl.
      rewrite release_just_locked by reflexivity.
      f_equal. destruct w; simpl in *. now subst.
    + rewrite (bind_Done _ _ _ _ _ Efrom).
      rewrite (bind_Done _ _ _ _ _ (lane_index_run n w0 Hn0)).
      rewrite (bind_Done _ _ _ _ _ (context_switch_run _ _ w0 Hfree0
        (valid_lane_of _ _ Hlen0 Hcur)
        Hto)).
      unfold bind at 1. unfold modify_scheduler at 1. unfold modify at 1.
      match goal with |- bind _ _ ?w1 = _ =>
        rewrite (bind_Done _ _ _ _ _ (trylock_count_run w1 eq_refl)) end.
      match goal with |- bind _ _ ?w2 = _ =>
        destruct (validate_single_lane_running_unchanged w2) as [b Hb] end.
      { etransitivity; [apply length_switch_lanes|exact Hlen]. }
      { intros i. reflexivity. }
      rewrite (bind_Done _ _ _ _ _ Hb). unfold ret. f_equal.
      assert (En : lane_of n = Some (Z.to_nat n)).
      { unfold lane_of. destruct (Z.leb_spec 0 n); [reflexivity|lia]. }
      rewrite En. subst w0. destruct w; reflexivity.
  - rewrite (bind_Done _ _ _ tt w0) by reflexivity.
    unfold bind, time_now, modify_scheduler, modify, unlock, ret. simpl.
    rewrite release_just_locked by reflexivity.
    f_equal. destruct w; simpl in *. now subst.
Qed.

(** ** What a context switch does to the two lanes *)

Lemma switch_lanes_from p t ls lp :
  p <> t -> ls !! p = Some lp ->
  switch_lanes (Some p) (Some t) ls !! p = Some (demote lp).
Proof.
  intros Hne Hp. unfold switch_lanes, update_lane. rewrite Hp.
  assert (Hlt : (p < length ls)%nat) by now apply lookup_lt_Some in Hp.
  destruct (<[p:=demote lp]> ls !! t) eqn:Et.
  - rewrite list_lookup_insert_ne by congruence. now apply list_lookup_insert_eq.
  - now apply list_lookup_insert_eq.
Qed.

Lemma switch_lanes_to from_lane t ls lt :
  from_lane <> Some t -> ls !! t = Some lt ->
  switch_lanes from_lane (Some t) ls !! t = Some (promote lt).
Proof.
  intros Hne Ht. unfold switch_lanes.
  assert (E : update_lane demote from_lane ls !! t = Some lt).
  { destruct from_lane as [p|]; simpl; [|assumption].
    destruct (ls !! p); [|assumption].
    rewrite list_lookup_insert_ne by congruence. assumption. }
  unfold update_lane at 1. rewrite E.
  apply list_lookup_insert_eq. now apply lookup_lt_Some in E.
Qed.

Lemma switch_lanes_other from_lane to_lane ls j :
  from_lane <> Some j -> to_lane <> Some j ->
  switch_lanes from_lane to_lane ls !! j = ls !! j.
Proof.
  intros Hf Ht. unfold switch_lanes.
  assert (E : forall g i (xs : list LaneProcess), i <> Some j -> update_lane g i xs !! j = xs !! j).
  { intros g [i|] xs Hi; simpl; [|reflexivity].
    destruct (xs !! i); [|reflexivity].
    apply list_lookup_insert_ne. congruence. }
  now rewrite !E.
Qed.

Lemma lane_of_nat i : lane_of (Z.of_nat i) = Some i.
Proof.
  unfold lane_of. destruct (Z.leb_spec 0 (Z.of_nat i)); [|lia].
  now rewrite Nat2Z.id.
Qed.

Lemma lane_of_neq n i : n <> Z.of_nat i -> lane_of n <> Some i.
Proof.
  unfold lane_of. destruct (Z.leb_spec 0 n); [|discriminate].
  intros Hn E. injection E as <-. lia.
Qed.

Lemma promote_ready l :
  state l = READY -> state (promote l) = RUNNING /\ waiting_time (promote l) = 0.
Proof. intros E. unfold promote. rewrite E. simpl. auto. Qed.

Lemma promote_not_ready l : state l <> READY -> promote l = l.
Proof.
  intros E. unfold promote. apply LaneState_eqb_neq in E. now rewrite E.
Qed.

Lemma demote_running l :
  state l = RUNNING ->
  demote l = set_state (if 0 <? queue_length l then READY else WAITING) l.
Proof. intros E. unfold demote. rewrite E. simpl. now destruct (0 <? queue_length l). Qed.

(** With SJF as the active policy the selected lane is READY. *)
Lemma sjf_selected_ready w t lt :
  length (lanes w) = NUM_LANES ->
  algorithm (scheduler w) = SJF ->
  selected_lane w = Z.of_nat t -> lanes w !! t = Some lt -> state lt = READY.
Proof.
  intros Hlen Halg Hsel Ht. unfold selected_lane in Hsel. rewrite Halg in Hsel.
  unfold sjf_select in Hsel.
  destruct (ready_only_loop sjf_best_lane
              (sjf_loop_body ((fun l => (state l, queue_length l, last_arrival_time l)) <$> lanes w))
              (lanes w)) with (n := NUM_LANES) (v0 := mkSjf (-1) INT_MAX (clock w))
    as [E|(i & l & E & Hl & Hs)].
  - intros v i. unfold sjf_loop_body. rewrite list_lookup_fmap.
    destruct (lanes w !! i) as [l|] eqn:El; simpl; [|now left].
    destruct (state l) eqn:Es; try (now left).
    repeat match goal with |- context [if ?c then _ else _] => destruct c end;
      simpl; auto; right; split; auto; now exists l.
  - reflexivity.
  - rewrite E in Hsel. lia.
  - rewrite E in Hsel. apply Nat2Z.inj in Hsel. subst i. congruence.
Qed.

Lemma sjf_policy_in_range w :
  length (lanes w) = NUM_LANES ->
  algorithm (scheduler w) = SJF -> is_lane_or_none (selected_lane w).
Proof.
  intros Hlen Halg. unfold selected_lane. rewrite Halg.
  now apply sjf_select_in_range.
Qed.

(** C4.  When the active policy selects a lane other than [current_lane],
    [schedule_next_lane] returns it and: the lane that was current, if it is
    RUNNING, becomes READY when its queue length is positive and WAITING
    otherwise; the selected lane, if it is READY, becomes RUNNING with
    [waiting_time] 0; [current_lane] is the selected lane.  Under SJF the
    selected lane is always READY. *)
Theorem schedule_next_lane_switches_context (w : World) :
  held w = [] ->
  length (lanes w) = NUM_LANES ->
  is_lane_or_none (selected_lane w) ->
  is_lane_or_none (current_lane (scheduler w)) ->
  selected_lane w <> current_lane (scheduler w) ->
  selected_lane w <> -1 ->
  exists w',
    schedule_next_lane w = Done (selected_lane w) w' /\
    current_lane (scheduler w') = selected_lane w /\
    (forall p lp,
       current_lane (scheduler w) = Z.of_nat p -> lanes w !! p = Some lp ->
       state lp = RUNNING ->
       lanes w' !! p =
         Some (set_state (if 0 <? queue_length lp then READY else WAITING) lp)) /\
    (forall t lt,
       selected_lane w = Z.of_nat t -> lanes w !! t = Some lt ->
       state lt = READY ->
       lanes w' !! t = Some (set_waiting_time 0 (set_state RUNNING lt))) /\
    (algorithm (scheduler w) = SJF ->
     exists t lt, selected_lane w = Z.of_nat t /\ lanes w !! t = Some lt /\
                  state lt = READY).
Proof.
  intros Hheld Hlen Hsel Hcur Hne Hnone.
  exists (after_schedule w). split; [now apply schedule_next_lane_run|].
  assert (Hcond : negb (selected_lane w =? current_lane (scheduler w))
                  && negb (selected_lane w =? -1) = true).
  { apply andb_true_iff. split; apply negb_true_iff, Z.eqb_neq; assumption. }
  unfold after_schedule. rewrite Hcond. simpl.
  split; [reflexivity|]. split; [|split].
  - intros p lp Hp Hlp Hrun.
    destruct Hsel as [?|Hrange]; [contradiction|].
    rewrite Hp, lane_of_nat.
    assert (Et : lane_of (selected_lane w) = Some (Z.to_nat (selected_lane w))).
    { unfold lane_of. destruct (Z.leb_spec 0 (selected_lane w)); [reflexivity|lia]. }
    rewrite Et, (switch_lanes_from p _ _ lp); [|lia|assumption].
    now rewrite demote_running.
  - intros t lt Ht Hlt Hready.
    rewrite Ht, lane_of_nat.
    rewrite (switch_lanes_to _ t _ lt); [|apply lane_of_neq; lia|assumption].
    unfold promote. now rewrite Hready.
  - intros Halg. destruct Hsel as [?|Hrange]; [contradiction|].
    destruct (lookup_lt_is_Some_2 (lanes w) (Z.to_nat (selected_lane w))) as [lt Hlt].
    { rewrite Hlen. lia. }
    exists (Z.to_nat (selected_lane w)), lt.
    assert (E : selected_lane w = Z.of_nat (Z.to_nat (selected_lane w))) by lia.
    repeat split; auto. eapply sjf_selected_ready; eauto.
Qed.

(** C5.  A context switch performed by [schedule_next_lane] leaves
    [total_context_switches] as it was: the increment was removed from
    [context_switch] and is not made in [schedule_next_lane] either, so the
    counter keeps its initial value and [calculate_context_switch_overhead]
    keeps computing from it. *)
Theorem schedule_next_lane_keeps_switch_counter (w : World) :
  held w = [] ->
  length (lanes w) = NUM_LANES ->
  is_lane_or_none (selected_lane w) ->
  is_lane_or_none (current_lane (scheduler w)) ->
  selected_lane w <> current_lane (scheduler w) ->
  selected_lane w <> -1 ->
  exists w',
    schedule_next_lane w = Done (selected_lane w) w' /\
    current_lane (scheduler w') <> current_lane (scheduler w) /\
    total_context_switches (scheduler w') = total_context_switches (scheduler w).
Proof.
  intros Hheld Hlen Hsel Hcur Hne Hnone.
  exists (after_schedule w). split; [now apply schedule_next_lane_run|].
  assert (Hcond : negb (selected_lane w =? current_lane (scheduler w))
                  && negb (selected_lane w =? -1) = true).
  { apply andb_true_iff. split; apply negb_true_iff, Z.eqb_neq; assumption. }
  unfold after_schedule. rewrite Hcond. simpl. auto.
Qed.

(** C10.  If the lane handed to [context_switch] as target is not READY, the
    switch leaves that lane as it is; [schedule_next_lane] nevertheless
    makes it the current lane, so that [current_lane] designates a lane that
    is not RUNNING unless it was RUNNING already. *)
Theorem switch_to_lane_not_ready (w : World) (t : nat) (lt : LaneProcess) :
  held w = [] ->
  length (lanes w) = NUM_LANES ->
  is_lane_or_none (current_lane (scheduler w)) ->
  selected_lane w = Z.of_nat t ->
  selected_lane w <> current_lane (scheduler w) ->
  lanes w !! t = Some lt ->
  state lt <> READY ->
  (exists w1,
     context_switch (lane_of (current_lane (scheduler w))) (Some t) w = Done tt w1 /\
     lanes w1 !! t = Some lt) /\
  (exists w',
     schedule_next_lane w = Done (Z.of_nat t) w' /\
     lanes w' !! t = Some lt /\
     current_lane (scheduler w') = Z.of_nat t /\
     (state lt <> RUNNING ->
      forall l, lanes w' !! Z.to_nat (current_lane (scheduler w')) = Some l ->
                state l <> RUNNING)).
Proof.
  intros Hheld Hlen Hcur Hsel Hne Hlt Hnr.
  assert (Ht : (t < NUM_LANES)%nat).
  { apply lookup_lt_Some in Hlt. now rewrite Hlen in Hlt. }
  assert (Hfrom : lane_of (current_lane (scheduler w)) <> Some t).
  { apply lane_of_neq. congruence. }
  assert (Hkeep : switch_lanes (lane_of (current_lane (scheduler w))) (Some t) (lanes w) !! t
                  = Some lt).
  { rewrite (switch_lanes_to _ t _ lt) by assumption. now rewrite promote_not_ready. }
  split.
  - eexists. split.
    + apply context_switch_run.
      * intros i. now rewrite Hheld.
      * now apply valid_lane_of.
      * simpl. rewrite Hlen. exact Ht.
    + exact Hkeep.
  - exists (after_schedule w).
    assert (Hrange : is_lane_or_none (selected_lane w)).
    { right. rewrite Hsel. lia. }
    split; [rewrite <- Hsel; now apply schedule_next_lane_run|].
    assert (Hcond : negb (selected_lane w =? current_lane (scheduler w))
                    && negb (selected_lane w =? -1) = true).
    { apply andb_true_iff. split; apply negb_true_iff, Z.eqb_neq; [assumption|lia]. }
    unfold after_schedule. rewrite Hcond. simpl.
    rewrite Hsel, lane_of_nat, Nat2Z.id.
    split; [exact Hkeep|]. split; [reflexivity|].
    intros Hnrun l Hl. rewrite Hkeep in Hl. now injection Hl as <-.
Qed.

(** ** add_vehicle_to_lane *)

Lemma add_vehicle_to_lane_run i v l w :
  holds (queue_lock i) (held w) = false ->
  lanes w !! i = Some l ->
  add_vehicle_to_lane i v w =
  Done tt (if fst (enqueue (queue l) v)
           then set_lanes (<[i := lane_with_vehicle v (clock w) l]> (lanes w)) w
           else w).
Proof.
  intros Hh Hl. unfold add_vehicle_to_lane.
  rewrite (bind_Done _ _ _ _ _ (lock_run _ _ Hh)).
  rewrite (bind_Done _ _ _ _ _ (get_lane_run i l (set_held _ w) Hl)).
  assert (Hlt : (i < length (lanes w))%nat) by now apply lookup_lt_Some in Hl.
  destruct (fst (enqueue (queue l) v)).
  - erewrite bind_Done.
    2:{ rewrite (bind_Done _ _ _ _ _ (modify_lane_run i _ l (set_held _ w) Hl)).
        erewrite bind_Done.
        2:{ apply modify_lane_run. simpl. now apply list_lookup_insert_eq. }
        unfold bind, time_now. apply modify_lane_run. simpl.
        apply list_lookup_insert_eq. now rewrite length_insert. }
    unfold unlock, modify. simpl.
    rewrite release_just_locked by assumption.
    rewrite !list_insert_insert_eq. unfold lane_with_vehicle.
    destruct w; reflexivity.
  - rewrite (bind_Done _ _ _ tt (set_held (queue_lock i :: held w) w)) by reflexivity.
    unfold unlock, modify. simpl.
    rewrite release_just_locked by assumption. now destruct w.
Qed.

Lemma enqueue_full q v :
  capacity q <= get_size q -> enqueue q v = (false, q).
Proof. intros Hfull. unfold enqueue. destruct (Z.ltb_spec (get_size q) (capacity q)); [lia|reflexivity]. Qed.

Lemma enqueue_room q v :
  get_size q < capacity q ->
  enqueue q v = (true, mkQueue (items q ++ [v]) (capacity q)).
Proof. intros Hroom. unfold enqueue. destruct (Z.ltb_spec (get_size q) (capacity q)); [reflexivity|lia]. Qed.


(** ** release_intersection_quadrants *)

Lemma release_intersection_quadrants_run i l w :
  holds (queue_lock i) (held w) = false ->
  lanes w !! i = Some l ->
  release_intersection_quadrants i w =
  Done tt (set_lanes (<[i := without_quadrants l]> (lanes w)) w).
Proof.
  intros Hh Hl. unfold release_intersection_quadrants.
  rewrite (bind_Done _ _ _ _ _ (lock_run _ _ Hh)).
  rewrite (bind_Done _ _ _ _ _ (modify_lane_run i _ l (set_held _ w) Hl)).
  erewrite bind_Done.
  2:{ apply modify_lane_run. simpl. apply list_lookup_insert_eq.
      now apply lookup_lt_Some in Hl. }
  unfold unlock, modify. simpl.
  rewrite release_just_locked by assumption.
  rewrite list_insert_insert_eq. now destruct w.
Qed.

(** C9.  [release_intersection_quadrants] returns for every lane; afterwards
    the lane's allocated and requested quadrants are both 0.  Nothing else
    changes: the rest of the lane, the other lanes, and the allocator's
    state with its pool stay as they were. *)
Theorem release_intersection_quadrants_clears (w : World) (i : nat) (l : LaneProcess) :
  holds (queue_lock i) (held w) = false ->
  lanes w !! i = Some l ->
  exists w' l',
    release_intersection_quadrants i w = Done tt w' /\
    lanes w' !! i = Some l' /\
    allocated_quadrants l' = 0 /\
    requested_quadrants l' = 0 /\
    l' = without_quadrants l /\
    bankers_state w' = bankers_state w /\
    w' = set_lanes (<[i := l']> (lanes w)) w /\
    forall j, j <> i -> lanes w' !! j = lanes w !! j.
Proof.
  intros Hh Hl.
  rewrite (release_intersection_quadrants_run i l w Hh Hl).
  assert (Hlt : (i < length (lanes w))%nat) by now apply lookup_lt_Some in Hl.
  eexists. eexists. split; [reflexivity|]. simpl.
  split; [now apply list_lookup_insert_eq|].
  split; [reflexivity|]. split; [reflexivity|]. split; [reflexivity|].
  split; [reflexivity|]. split; [reflexivity|].
  intros j Hj. apply list_lookup_insert_ne. congruence.
Qed.

(** ** Weakest preconditions *)

Lemma wp_elim {A : Type} (m : M A) Q w :
  wp m Q w -> exists a w', m w = Done a w' /\ Q a w'.
Proof. unfold wp. destruct (m w) as [a w'| |]; [|contradiction..]. intros H. now exists a, w'. Qed.

Lemma wp_ret {A : Type} (a : A) (Q : A -> World -> Prop) w : Q a w -> wp (ret a) Q w.
Proof. exact id. Qed.

Lemma wp_bind {A B : Type} (m : M A) (k : A -> M B) Q w :
  wp m (fun a w' => wp (k a) Q w') w -> wp (bind m k) Q w.
Proof. unfold wp, bind. now destruct (m w). Qed.

Lemma wp_run {A : Type} (m : M A) (Q : A -> World -> Prop) w a w' :
  m w = Done a w' -> Q a w' -> wp m Q w.
Proof. unfold wp. now intros ->. Qed.

Lemma wp_lock m (Q : unit -> World -> Prop) w :
  holds m (held w) = false -> Q tt (set_held (m :: held w) w) -> wp (lock m) Q w.
Proof. unfold wp, lock. now intros ->. Qed.

Lemma wp_unlock m (Q : unit -> World -> Prop) w :
  Q tt (set_held (release m (held w)) w) -> wp (unlock m) Q w.
Proof. exact id. Qed.

Lemma wp_modify f (Q : unit -> World -> Prop) w : Q tt (f w) -> wp (modify f) Q w.
Proof. exact id. Qed.

Lemma wp_get_lane i l (Q : LaneProcess -> World -> Prop) w :
  lanes w !! i = Some l -> Q l w -> wp (get_lane i) Q w.
Proof. unfold wp, get_lane. now intros ->. Qed.

Lemma wp_modify_lane i f l (Q : unit -> World -> Prop) w :
  lanes w !! i = Some l ->
  Q tt (set_lanes (<[i := f l]> (lanes w)) w) -> wp (modify_lane i f) Q w.
Proof. unfold wp, modify_lane. now intros ->. Qed.

Lemma wp_time_now (Q : Z -> World -> Prop) w : Q (clock w) w -> wp time_now Q w.
Proof. exact id. Qed.

Lemma wp_get_scheduler (Q : Scheduler -> World -> Prop) w :
  Q (scheduler w) w -> wp get_scheduler Q w.
Proof. exact id. Qed.

Lemma wp_rand (Q : Z -> World -> Prop) w :
  Q (Z.abs (rand_src w 0%nat)) (set_rand_src (fun n => rand_src w (S n)) w) ->
  wp rand Q w.
Proof. exact id. Qed.

Lemma wp_usleep us (Q : unit -> World -> Prop) w :
  Q tt (elapse us w) -> wp (usleep us) Q w.
Proof. exact id. Qed.

Lemma wp_trylock m (Q : bool -> World -> Prop) w :
  holds m (held w) = false ->
  (holds m (busy w) = true -> Q false w) ->
  (holds m (busy w) = false -> Q true (set_held (m :: held w) w)) ->
  wp (trylock m) Q w.
Proof.
  unfold wp, trylock. intros -> H1 H2. simpl.
  destruct (holds m (busy w)); auto.
Qed.

(** ** record_execution and execute_lane_time_slice *)

Lemma wp_record_execution a b c d (Q : unit -> World -> Prop) w :
  holds scheduler_lock (held w) = false ->
  history_ok (scheduler w) ->
  (forall s', current_lane s' = current_lane (scheduler w) ->
              Q tt (set_scheduler s' w)) ->
  wp (record_execution a b c d) Q w.
Proof.
  intros Hh Hok HQ. unfold record_execution.
  apply wp_bind, wp_get_scheduler.
  assert (Hsame : Q tt w).
  { replace w with (set_scheduler (scheduler w) w) by now destruct w. now apply HQ. }
  unfold history_ok in Hok.
  destruct (execution_history (scheduler w)) as [h|] eqn:Eh; [|exact Hsame].
  destruct Hok as (Hsize & Hidx & Hmax).
  apply wp_bind, wp_trylock; [assumption|intros _; exact Hsame|intros _].
  unfold when. apply wp_bind, wp_get_scheduler. simpl. rewrite Eh.
  destruct (Z.leb_spec 0 (history_index (scheduler w))); [|lia].
  destruct (Nat.ltb_spec (Z.to_nat (history_index (scheduler w))) (length h)); [|lia].
  simpl. unfold modify_scheduler. apply wp_bind, wp_modify. apply wp_unlock. simpl.
  rewrite release_just_locked by assumption.
  match goal with |- Q tt ?w1 =>
    replace w1 with (set_scheduler (scheduler w1) w) by (now destruct w) end.
  apply HQ. reflexivity.
Qed.

Lemma wp_remove_vehicle_from_lane_unlocked i l (Q : Z -> World -> Prop) w :
  lanes w !! i = Some l ->
  Q (fst (dequeue (queue l))) (set_lanes (<[i := after_dequeue l]> (lanes w)) w) ->
  wp (remove_vehicle_from_lane_unlocked i) Q w.
Proof.
  intros Hl HQ. unfold remove_vehicle_from_lane_unlocked.
  eapply wp_bind, wp_get_lane; [eassumption|].
  eapply wp_bind, wp_modify_lane; [eassumption|].
  eapply wp_bind, wp_modify_lane.
  { simpl. apply list_lookup_insert_eq. now apply lookup_lt_Some in Hl. }
  apply wp_ret. simpl. rewrite list_insert_insert_eq. exact HQ.
Qed.

Lemma execute_lane_time_slice_lanes i tq l w :
  held w = [] ->
  lanes w !! i = Some l ->
  history_ok (scheduler w) ->
  exists w',
    execute_lane_time_slice i tq w = Done tt w' /\
    lanes w' = <[i := after_slice l]> (lanes w) /\
    held w' = [] /\
    current_lane (scheduler w') = current_lane (scheduler w).
Proof.
  intros Hheld Hl Hok.
  assert (Hlt : (i < length (lanes w))%nat) by now apply lookup_lt_Some in Hl.
  cut (wp (execute_lane_time_slice i tq)
          (fun _ w' => lanes w' = <[i := after_slice l]> (lanes w) /\ held w' = [] /\
                       current_lane (scheduler w') = current_lane (scheduler w)) w).
  { intros H. apply wp_elim in H as ([] & w' & E & H). now exists w'. }
  unfold execute_lane_time_slice.
  apply wp_bind, wp_time_now.
  apply wp_bind, wp_lock; [now rewrite Hheld|].
  apply wp_bind, wp_lock; [simpl; now rewrite Hheld|].
  eapply wp_bind, wp_remove_vehicle_from_lane_unlocked; [exact Hl|].
  assert (Hl1 : forall xs : list LaneProcess, (i < length xs)%nat ->
                  <[i := after_dequeue l]> xs !! i = Some (after_dequeue l)).
  { intros xs Hxs. now apply list_lookup_insert_eq. }
  assert (Hfinish : forall n w1,
            lanes w1 = <[i := after_dequeue l]> (lanes w) ->
            held w1 = [queue_lock i; global_state_lock] ->
            scheduler w1 = scheduler w ->
            wp (do end_time <- time_now;
                do l1 <- get_lane i;
                record_execution (lane_id l1) (clock w) end_time n >>
                do l2 <- get_lane i;
                when ((queue_length l2 =? 0) && LaneState_eqb (state l2) RUNNING)
                     (modify_lane i (set_state WAITING)) >>
                unlock (queue_lock i) >>
                unlock global_state_lock)
               (fun _ w' => lanes w' = <[i := after_slice l]> (lanes w) /\ held w' = [] /\
                            current_lane (scheduler w') = current_lane (scheduler w)) w1).
  { intros n w1 E1 H1 S1.
    apply wp_bind, wp_time_now.
    eapply wp_bind, wp_get_lane; [rewrite E1; now apply Hl1|].
    apply wp_bind, wp_record_execution; [now rewrite H1|now rewrite S1|].
    intros s' Hs'.
    eapply wp_bind, wp_get_lane; [simpl; rewrite E1; now apply Hl1|].
    unfold after_slice.
    destruct ((queue_length (after_dequeue l) =? 0)
              && LaneState_eqb (state (after_dequeue l)) RUNNING); simpl.
    - eapply wp_bind, wp_modify_lane; [simpl; rewrite E1; now apply Hl1|].
      apply wp_bind, wp_unlock, wp_unlock. simpl.
      rewrite H1, E1, list_insert_insert_eq, Hs', S1.
      rewrite !release_just_locked by reflexivity. auto.
    - apply wp_bind, wp_ret, wp_bind, wp_unlock, wp_unlock. simpl.
      rewrite H1, E1, Hs', S1.
      rewrite !release_just_locked by reflexivity. auto. }
  destruct (negb (fst (dequeue (queue l)) =? -1)).
  - apply wp_bind, wp_bind, wp_time_now.
    eapply wp_bind, wp_get_lane; [simpl; now apply Hl1|].
    apply wp_bind, wp_modify, wp_bind, wp_unlock, wp_bind, wp_unlock.
    apply wp_bind, wp_rand, wp_bind, wp_usleep.
    apply wp_bind, wp_lock;
      [simpl; rewrite Hheld, !release_just_locked by reflexivity; reflexivity|].
    apply wp_bind, wp_lock;
      [simpl; rewrite Hheld, !release_just_locked by reflexivity; reflexivity|].
    apply wp_ret. apply Hfinish; simpl; auto.
    rewrite Hheld. now rewrite !release_just_locked by reflexivity.
  - apply wp_bind, wp_ret. apply Hfinish; simpl; auto. now rewrite Hheld.
Qed.

Lemma after_dequeue_items l :
  exists k, (k <= 1)%nat /\ items (queue (after_dequeue l)) = drop k (items (queue l)).
Proof.
  unfold after_dequeue, dequeue. destruct (items (queue l)) as [|v rest] eqn:E; simpl.
  - exists 0%nat. rewrite E. auto.
  - exists 1%nat. auto.
Qed.

(** C7.  [execute_lane_time_slice] returns; it removes at most one vehicle,
    hence at most BATCH_EXIT_SIZE, from the front of the lane's queue and
    keeps the cached length equal to the queue's size; it changes the lane's
    state only to WAITING and only when the queue is empty afterwards; with
    vehicles left the state is what it was (RUNNING stays RUNNING).  Other
    lanes are not touched. *)
Theorem execute_lane_time_slice_effect (w : World) (i : nat) (tq : Z) (l : LaneProcess) :
  held w = [] ->
  lanes w !! i = Some l ->
  history_ok (scheduler w) ->
  exists w' l',
    execute_lane_time_slice i tq w = Done tt w' /\
    lanes w' !! i = Some l' /\
    (exists k, (k <= 1)%nat /\ Z.of_nat k <= BATCH_EXIT_SIZE /\
               items (queue l') = drop k (items (queue l))) /\
    queue_length l' = get_size (queue l') /\
    (state l' <> state l -> state l' = WAITING /\ get_size (queue l') = 0) /\
    (get_size (queue l') <> 0 -> state l' = state l) /\
    (forall j, j <> i -> lanes w' !! j = lanes w !! j).
Proof.
  intros Hheld Hl Hok.
  destruct (execute_lane_time_slice_lanes i tq l w Hheld Hl Hok) as (w' & E & Hlanes & _).
  assert (Hlt : (i < length (lanes w))%nat) by now apply lookup_lt_Some in Hl.
  exists w', (after_slice l). split; [exact E|]. rewrite Hlanes.
  split; [now apply list_lookup_insert_eq|].
  assert (Hq : queue (after_slice l) = queue (after_dequeue l)).
  { unfold after_slice. now destruct (_ && _). }
  assert (Hlen : queue_length (after_slice l) = get_size (queue (after_dequeue l))).
  { unfold after_slice. now destruct (_ && _). }
  split; [|split; [|split; [|split]]].
  - rewrite Hq. destruct (after_dequeue_items l) as (k & Hk & Ek).
    exists k. split; [exact Hk|]. split; [unfold BATCH_EXIT_SIZE; lia|exact Ek].
  - now rewrite Hq.
  - rewrite Hq. unfold after_slice.
    destruct (Z.eqb_spec (queue_length (after_dequeue l)) 0) as [E0|]; simpl.
    + destruct (LaneState_eqb (state l) RUNNING); simpl.
      * intros _. split; [reflexivity|exact E0].
      * intros Habs. now destruct Habs.
    + intros Habs. now destruct Habs.
  - rewrite Hq. unfold after_slice. intros Hne.
    destruct (Z.eqb_spec (queue_length (after_dequeue l)) 0) as [E0|]; simpl.
    + now destruct Hne.
    + reflexivity.
  - intros j Hj. apply list_lookup_insert_ne. congruence.
Qed.

(** ** handle_user_input *)

Lemma selected_lane_ignores_emergencies e w :
  selected_lane (set_emergency_system e w) = selected_lane w.
Proof. reflexivity. Qed.

(** C8.  The keys 'e' and 'E' trigger nothing: [handle_user_input] returns
    with the emergency system, the lanes and the scheduler as they were (with
    the help screen closed the whole system is as it was), and what
    [schedule_next_lane] selects and does to the lanes and the scheduler does
    not depend on the emergency system. *)
Theorem emergency_key_triggers_nothing (w : World) (ch : Z) :
  ch = key "e" \/ ch = key "E" ->
  held w = [] ->
  length (lanes w) = NUM_LANES ->
  is_lane_or_none (selected_lane w) ->
  is_lane_or_none (current_lane (scheduler w)) ->
  (exists r w',
     handle_user_input ch w = Done r w' /\
     emergency_system w' = emergency_system w /\
     lanes w' = lanes w /\
     scheduler w' = scheduler w /\
     (show_help w = false -> r = ch /\ w' = w)) /\
  (forall e, exists n w1 w2,
     schedule_next_lane w = Done n w1 /\
     schedule_next_lane (set_emergency_system e w) = Done n w2 /\
     lanes w2 = lanes w1 /\ scheduler w2 = scheduler w1).
Proof.
  intros Hch Hheld Hlen Hsel Hcur. split.
  - unfold handle_user_input, bind, get.
    destruct (show_help w) eqn:Hhelp.
    + assert (Hne : (ch =? ERR) = false) by (destruct Hch; subst; reflexivity).
      rewrite Hne. simpl.
      destruct (pause_requested w); unfold modify, ret, bind; simpl;
        eexists; eexists; split; try reflexivity; simpl; repeat split; discriminate.
    + exists ch, w.
      destruct Hch; subst; simpl; repeat split; auto.
  - intros e.
    exists (selected_lane w), (after_schedule w), (after_schedule (set_emergency_system e w)).
    split; [now apply schedule_next_lane_run|].
    split; [now apply (schedule_next_lane_run (set_emergency_system e w))|].
    unfold after_schedule. rewrite selected_lane_ignores_emergencies. simpl.
    destruct (_ && _); simpl; auto.
Qed.

(** * Mutual exclusion *)

(** ** Operations that start no lane *)

Lemma no_new_running_refl ls : no_new_running ls ls.
Proof. split; [reflexivity|]. intros i l Hl Hs. now exists l. Qed.

Lemma no_new_running_trans ls1 ls2 ls3 :
  no_new_running ls1 ls2 -> no_new_running ls2 ls3 -> no_new_running ls1 ls3.
Proof.
  intros [L1 H1] [L2 H2]. split; [congruence|].
  intros i l3 Hl Hs. destruct (H2 i l3 Hl Hs) as (l2 & Hl2 & Hs2). eauto.
Qed.

Lemma no_new_running_insert ls i l l' :
  ls !! i = Some l -> (state l' = RUNNING -> state l = RUNNING) ->
  no_new_running ls (<[i := l']> ls).
Proof.
  intros Hl Hs. split; [apply length_insert|].
  intros j lj Hj Hrun. destruct (decide (i = j)) as [->|Hne].
  - rewrite list_lookup_insert_eq in Hj by now apply lookup_lt_Some in Hl.
    injection Hj as <-. exists l. auto.
  - rewrite list_lookup_insert_ne in Hj by assumption. now exists lj.
Qed.

Lemma quiet_refl w : quiet w w.
Proof. split; [apply no_new_running_refl|auto]. Qed.

Lemma quiet_same w w' :
  lanes w' = lanes w -> scheduler w' = scheduler w ->
  simulation_running w' = simulation_running w -> quiet w w'.
Proof.
  intros E1 E2 E3. unfold quiet. rewrite E1, E2, E3.
  split; [apply no_new_running_refl|auto].
Qed.

Lemma quiet_trans w1 w2 w3 : quiet w1 w2 -> quiet w2 w3 -> quiet w1 w3.
Proof.
  intros (N1 & C1 & S1) (N2 & C2 & S2).
  split; [eapply no_new_running_trans; eauto|]. split; congruence.
Qed.

Lemma steps_ret {A : Type} h (a : A) : steps h (fun _ => h) (ret a).
Proof. intros w Hh. simpl. split; [assumption|apply quiet_refl]. Qed.

Lemma steps_bind {A B : Type} h H1 H2 (m : M A) (k : A -> M B) :
  steps h H1 m -> (forall a, steps (H1 a) H2 (k a)) -> steps h H2 (bind m k).
Proof.
  intros Hm Hk w Hh. unfold bind. specialize (Hm w Hh).
  destruct (m w) as [a w1| |]; [|exact I..].
  destruct Hm as [Hh1 Hq1]. specialize (Hk a w1 Hh1).
  destruct (k a w1) as [b w2| |]; [|exact I..].
  destruct Hk as [Hh2 Hq2]. split; [assumption|eapply quiet_trans; eauto].
Qed.

Lemma steps_stuck {A B : Type} h H (m : M A) (k : A -> M B) :
  (forall w, held w = h -> m w = Deadlock) -> steps h H (bind m k).
Proof. intros Hm w Hh. unfold bind. now rewrite (Hm w Hh). Qed.

Lemma steps_lock h m : steps h (fun _ => m :: h) (lock m).
Proof.
  intros w Hh. unfold lock. destruct (holds m (held w)); [exact I|].
  simpl. split; [now rewrite Hh|now apply quiet_same].
Qed.

Lemma steps_unlock h m :
  holds m h = false -> steps (m :: h) (fun _ => h) (unlock m).
Proof.
  intros Hm w Hh. unfold unlock, modify. simpl. rewrite Hh.
  split; [now apply release_just_locked|now apply quiet_same].
Qed.

Lemma steps_trylock h m :
  steps h (fun ok : bool => if ok then m :: h else h) (trylock m).
Proof.
  intros w Hh. unfold trylock. destruct (_ || _); simpl.
  - split; [assumption|now apply quiet_same].
  - split; [now rewrite Hh|now apply quiet_same].
Qed.

Lemma steps_read {A : Type} h (m : M A) :
  (forall w, m w = OutOfBounds \/ exists a, m w = Done a w) ->
  steps h (fun _ => h) m.
Proof.
  intros Hm w Hh. destruct (Hm w) as [->|[a ->]]; [exact I|].
  split; [assumption|now apply quiet_same].
Qed.

Lemma steps_get h : steps h (fun _ => h) get.
Proof. apply steps_read. intros w. right. now exists w. Qed.

Lemma steps_time_now h : steps h (fun _ => h) time_now.
Proof. apply steps_read. intros w. right. now exists (clock w). Qed.

Lemma steps_get_scheduler h : steps h (fun _ => h) get_scheduler.
Proof. apply steps_read. intros w. right. now exists (scheduler w). Qed.

Lemma steps_get_lane h i : steps h (fun _ => h) (get_lane i).
Proof.
  apply steps_read. intros w. unfold get_lane.
  destruct (lanes w !! i) as [l|]; [right; now exists l|now left].
Qed.

Lemma steps_lane_index h n : steps h (fun _ => h) (lane_index n).
Proof.
  apply steps_read. intros w. unfold lane_index.
  destruct (_ && _); [right; eexists; reflexivity|now left].
Qed.

Lemma steps_modify h (f : World -> World) :
  (forall w, held (f w) = held w /\ quiet w (f w)) ->
  steps h (fun _ => h) (modify f).
Proof.
  intros Hf w Hh. unfold modify. destruct (Hf w) as [E Q].
  split; [congruence|assumption].
Qed.

Lemma steps_modify_lane h i (f : LaneProcess -> LaneProcess) :
  (forall l, state (f l) = RUNNING -> state l = RUNNING) ->
  steps h (fun _ => h) (modify_lane i f).
Proof.
  intros Hf w Hh. unfold modify_lane.
  destruct (lanes w !! i) as [l|] eqn:El; [|exact I].
  simpl. split; [assumption|].
  split; [|auto]. simpl. eapply no_new_running_insert; eauto.
Qed.

Lemma steps_modify_scheduler h (f : Scheduler -> Scheduler) :
  (forall s, current_lane (f s) = current_lane s) ->
  steps h (fun _ => h) (modify_scheduler f).
Proof.
  intros Hf. apply steps_modify. intros w. split; [reflexivity|].
  split; [apply no_new_running_refl|]. simpl. auto.
Qed.

Lemma steps_rand h : steps h (fun _ => h) rand.
Proof.
  intros w Hh. unfold rand. split; [assumption|now apply quiet_same].
Qed.

Lemma steps_usleep h us : steps h (fun _ => h) (usleep us).
Proof.
  apply steps_modify. intros w. split; [reflexivity|now apply quiet_same].
Qed.

Lemma steps_when h (b : bool) (m : M unit) :
  steps h (fun _ => h) m -> steps h (fun _ => h) (when b m).
Proof. intros Hm. destruct b; simpl; [assumption|apply steps_ret]. Qed.

Lemma steps_for_each {A : Type} h (body : nat -> M A) idxs :
  (forall i, steps h (fun _ => h) (body i)) ->
  steps h (fun _ => h) (for_each idxs body).
Proof.
  intros Hbody. induction idxs as [|i rest IH]; simpl.
  - apply steps_ret.
  - eapply steps_bind; [apply Hbody|]. intros x.
    eapply steps_bind; [apply IH|]. intros xs. apply steps_ret.
Qed.

(** One step of a straight-line proof; [steps_call] is extended with the
    lemmas of the functions that are called. *)
Ltac steps_call := fail.

Ltac steps_step :=
  first
    [ steps_call
    | apply steps_ret
    | apply steps_lock
    | apply steps_unlock; reflexivity
    | apply steps_trylock
    | apply steps_get
    | apply steps_time_now
    | apply steps_get_scheduler
    | apply steps_get_lane
    | apply steps_lane_index
    | apply steps_rand
    | apply steps_usleep
    | apply steps_modify_lane; simpl; intros; congruence
    | apply steps_modify_scheduler; reflexivity
    | apply steps_modify; intros; split; [reflexivity|now apply quiet_same]
    | apply steps_when
    | eapply steps_bind; [|intros ?; cbv beta] ].

Ltac steps_auto := repeat steps_step.

Lemma steps_add_vehicle_to_lane h lane v :
  holds (queue_lock lane) h = false ->
  steps h (fun _ => h) (add_vehicle_to_lane lane v).
Proof.
  intros Hh. unfold add_vehicle_to_lane.
  eapply steps_bind; [apply steps_lock|intros ?; cbv beta].
  eapply steps_bind; [apply steps_get_lane|intros l; cbv beta].
  eapply steps_bind; [|intros ?; cbv beta; now apply steps_unlock].
  destruct (fst (enqueue (queue l) v)); steps_auto.
Qed.

Lemma steps_relock {A : Type} h (H : A -> list Mutex) m (k : unit -> M A) :
  holds m h = true -> steps h H (bind (lock m) k).
Proof.
  intros Hm. apply steps_stuck. intros w Hh. unfold lock. now rewrite Hh, Hm.
Qed.

Lemma steps_remove_vehicle_from_lane_unlocked h lane :
  steps h (fun _ => h) (remove_vehicle_from_lane_unlocked lane).
Proof. unfold remove_vehicle_from_lane_unlocked. steps_auto. Qed.

Lemma steps_record_execution h a b c d :
  holds scheduler_lock h = false ->
  steps h (fun _ => h) (record_execution a b c d).
Proof.
  intros Hh. unfold record_execution.
  eapply steps_bind; [apply steps_get_scheduler|intros s0; cbv beta].
  destruct (execution_history s0); [|apply steps_ret].
  eapply steps_bind; [apply steps_trylock|intros [|]; cbv beta]; simpl; [|apply steps_ret].
  eapply steps_bind; [apply steps_get_scheduler|intros s; cbv beta].
  eapply steps_bind; [|intros ?; cbv beta; now apply steps_unlock].
  destruct (execution_history s); [|apply steps_ret].
  destruct (_ && _).
  - apply steps_modify_scheduler. reflexivity.
  - intros w _. exact I.
Qed.

Ltac steps_call ::=
  first
    [ apply steps_record_execution; reflexivity
    | apply steps_add_vehicle_to_lane; reflexivity
    | apply steps_remove_vehicle_from_lane_unlocked ].

Lemma steps_execute_lane_time_slice lane tq :
  steps [] (fun _ => []) (execute_lane_time_slice lane tq).
Proof.
  unfold execute_lane_time_slice.
  eapply steps_bind; [apply steps_time_now|intros start_time; cbv beta].
  eapply steps_bind; [apply steps_lock|intros ?; cbv beta].
  eapply steps_bind; [apply steps_lock|intros ?; cbv beta].
  eapply steps_bind; [apply steps_remove_vehicle_from_lane_unlocked|intros vehicle_id; cbv beta].
  eapply steps_bind with (H1 := fun _ => [queue_lock lane; global_state_lock]).
  { destruct (negb (vehicle_id =? -1)); steps_auto. }
  intros n; cbv beta. steps_auto.
Qed.

Lemma steps_vehicle_generator_iteration :
  steps [] (fun _ => []) vehicle_generator_iteration.
Proof.
  unfold vehicle_generator_iteration.
  eapply steps_bind; [apply steps_get|intros w0; cbv beta].
  destruct (negb (simulation_paused w0)); [|apply steps_usleep].
  steps_auto.
Qed.

Lemma steps_lane_process_thread_iteration lane :
  steps [] (fun _ => []) (lane_process_thread_iteration lane).
Proof.
  unfold lane_process_thread_iteration.
  eapply steps_bind; [apply steps_lock|intros ?; cbv beta].
  eapply steps_bind; [apply steps_rand|intros r; cbv beta].
  eapply steps_bind with (H1 := fun _ => [queue_lock lane]).
  { apply steps_when. eapply steps_bind; [apply steps_rand|intros r'; cbv beta].
    unfold add_vehicle_to_lane. apply steps_relock. apply holds_here. }
  intros ?; cbv beta.
  eapply steps_bind; [apply steps_get_lane|intros l; cbv beta].
  eapply steps_bind with (H1 := fun _ => [queue_lock lane]).
  { destruct (_ && _); [steps_auto|]. destruct (_ && _); steps_auto. }
  intros ?; cbv beta.
  eapply steps_bind; [apply steps_get_lane|intros l1; cbv beta].
  eapply steps_bind with (H1 := fun _ => [queue_lock lane]).
  { apply steps_when.
    eapply steps_bind with (H1 := fun _ => [queue_lock lane]).
    { apply steps_for_each. intros ?.
      apply steps_stuck. intros w Hh.
      unfold remove_vehicle_from_lane. apply bind_Deadlock.
      unfold lock. now rewrite Hh, holds_here. }
    intros served; cbv beta. apply steps_when. steps_auto. }
  intros ?; cbv beta. steps_auto.
Qed.

Lemma steps_handle_quiet_keys ch :
  ch <> key "1" -> ch <> key "2" -> ch <> key "3" ->
  steps [] (fun _ => []) (handle_user_input ch).
Proof.
  intros N1 N2 N3. unfold handle_user_input.
  eapply steps_bind; [apply steps_get|intros w0; cbv beta].
  destruct (show_help w0).
  { eapply steps_bind; [|intros ?; cbv beta; apply steps_ret].
    apply steps_when. eapply steps_bind; [steps_step|intros ?; cbv beta].
    destruct (pause_requested w0); steps_auto. }
  destruct (_ || _); [steps_auto|].
  destruct (ch =? key " "); [steps_auto|].
  destruct (Z.eqb_spec ch (key "1")); [contradiction|].
  destruct (Z.eqb_spec ch (key "2")); [contradiction|].
  destruct (Z.eqb_spec ch (key "3")); [contradiction|].
  destruct (_ || _); [steps_auto|].
  destruct (_ || _); [|steps_auto].
  eapply steps_bind; [steps_step|intros ?; cbv beta].
  eapply steps_bind; [|intros ?; cbv beta; apply steps_ret].
  destruct (simulation_paused w0); steps_auto.
Qed.

Lemma steps_update_simulation_state :
  sweep_starts_no_lane ->
  steps [] (fun _ => []) update_simulation_state.
Proof.
  intros Hsweep. unfold update_simulation_state.
  steps_auto.
  apply steps_modify. intros w. split; [reflexivity|].
  split; [apply Hsweep|auto].
Qed.

(** ** set_scheduling_algorithm *)

Lemma wp_for_each_seq {A : Type} (P : nat -> World -> Prop) (body : nat -> M A) n :
  forall s w,
  (forall k w, (s <= k < s + n)%nat -> P k w -> wp (body k) (fun _ w' => P (S k) w') w) ->
  P s w ->
  wp (for_each (seq s n) body) (fun _ w' => P (s + n)%nat w') w.
Proof.
  induction n as [|n IH]; intros s w Hbody HP; simpl.
  - apply wp_ret. now rewrite Nat.add_0_r.
  - apply wp_bind. unfold wp at 1.
    pose proof (Hbody s w ltac:(lia) HP) as Hs. unfold wp in Hs at 1.
    destruct (body s w) as [x w1| |]; [|contradiction..].
    apply wp_bind. unfold wp at 1.
    pose proof (IH (S s) w1 ltac:(intros; apply Hbody; [lia|assumption]) Hs) as Hr.
    unfold wp in Hr at 1.
    destruct (for_each (seq (S s) n) body w1) as [xs w2| |]; [|contradiction..].
    apply wp_ret. now replace (s + S n)%nat with (S s + n)%nat by lia.
Qed.

Lemma wp_conseq {A : Type} (m : M A) (Q Q' : A -> World -> Prop) w :
  wp m Q w -> (forall a w', Q a w' -> Q' a w') -> wp m Q' w.
Proof. unfold wp. destruct (m w); auto. Qed.

Lemma demote_not_running l : state (demote l) <> RUNNING.
Proof.
  unfold demote. destruct (LaneState_eqb (state l) RUNNING) eqn:E.
  - destruct (0 <? queue_length l); simpl; discriminate.
  - now apply LaneState_eqb_neq.
Qed.

Lemma demote_no_new l : state (demote l) = RUNNING -> state l = RUNNING.
Proof. intros E. now destruct (demote_not_running l). Qed.

Lemma stop_lane_section i l w :
  holds (queue_lock i) (held w) = false ->
  lanes w !! i = Some l ->
  (lock (queue_lock i) >>
   do l <- get_lane i;
   when (LaneState_eqb (state l) RUNNING)
        (modify_lane i (set_state (if 0 <? queue_length l then READY else WAITING))) >>
   unlock (queue_lock i)) w
  = Done tt (set_lanes (<[i := demote l]> (lanes w)) w).
Proof.
  intros Hh Hl.
  apply (update_lane_locked demote
           (fun l => when (LaneState_eqb (state l) RUNNING)
                       (modify_lane i
                          (set_state (if 0 <? queue_length l then READY else WAITING)))));
    auto.
  intros w1 E1. assert (Hl1 : lanes w1 !! i = Some l) by now rewrite E1.
  unfold demote. destruct (LaneState_eqb (state l) RUNNING); simpl.
  - rewrite (modify_lane_run _ _ _ _ Hl1). now destruct (0 <? queue_length l).
  - unfold ret. now rewrite set_lanes_insert_same.
Qed.

(** What a (successful or skipped) change of algorithm leaves behind. *)
Lemma set_scheduling_algorithm_effect a w :
  held w = [] ->
  length (lanes w) = NUM_LANES ->
  exists w',
    set_scheduling_algorithm a w = Done tt w' /\
    held w' = [] /\
    no_new_running (lanes w) (lanes w') /\
    simulation_running w' = simulation_running w /\
    (w' = w \/
     (current_lane (scheduler w') = -1 /\ algorithm (scheduler w') = a /\
      (simulation_running w = true ->
       forall i l, lanes w' !! i = Some l -> state l <> RUNNING))).
Proof.
  intros Hheld Hlen.
  cut (wp (set_scheduling_algorithm a)
         (fun _ w' =>
            held w' = [] /\ no_new_running (lanes w) (lanes w') /\
            simulation_running w' = simulation_running w /\
            (w' = w \/
             (current_lane (scheduler w') = -1 /\ algorithm (scheduler w') = a /\
              (simulation_running w = true ->
               forall i l, lanes w' !! i = Some l -> state l <> RUNNING)))) w).
  { intros H. apply wp_elim in H as ([] & w' & E & H). now exists w'. }
  unfold set_scheduling_algorithm.
  apply wp_bind, wp_trylock; [now rewrite Hheld| |]; intros Hbusy; simpl.
  { apply wp_ret. split; [assumption|]. split; [apply no_new_running_refl|].
    split; [reflexivity|]. now left. }
  unfold modify_scheduler.
  apply wp_bind, wp_modify, wp_bind, wp_modify, wp_bind. unfold get at 1. unfold wp at 1.
  cbv beta. simpl (simulation_running _).
  destruct (simulation_running w) eqn:Hrun; simpl when.
  - apply wp_bind, wp_bind. unfold for_lanes.
    set (P := fun (k : nat) (w1 : World) =>
      held w1 = [scheduler_lock] /\
      length (lanes w1) = NUM_LANES /\
      (forall j l, (j < k)%nat -> lanes w1 !! j = Some l -> state l <> RUNNING) /\
      no_new_running (lanes w) (lanes w1) /\
      current_lane (scheduler w1) = -1 /\
      algorithm (scheduler w1) = a /\
      simulation_running w1 = true).
    eapply wp_conseq.
    { apply (wp_for_each_seq P) with (s := 0%nat).
      - intros k wk Hk (Hk1 & Hk2 & Hk3 & Hk4 & Hk5 & Hk6 & Hk7).
        destruct (lookup_lt_is_Some_2 (lanes wk) k ltac:(rewrite Hk2; lia)) as [l Hl].
        eapply wp_run;
          [apply (stop_lane_section k l wk); [now rewrite Hk1|assumption]|].
        unfold P; simpl.
        split; [assumption|]. split; [now rewrite length_insert|].
        split; [|split; [|auto]].
        + intros j lj Hj Hlj; destruct (decide (j = k)) as [->|Hne].
          * rewrite list_lookup_insert_eq in Hlj by (rewrite Hk2; lia).
            injection Hlj as <-; apply demote_not_running.
          * rewrite list_lookup_insert_ne in Hlj by congruence.
            apply (Hk3 j lj); [lia|assumption].
        + eapply no_new_running_trans; [exact Hk4|].
          eapply no_new_running_insert; [exact Hl|apply demote_no_new].
      - unfold P; simpl; rewrite Hheld.
        split; [reflexivity|]. split; [assumption|].
        split; [intros; lia|]. split; [apply no_new_running_refl|auto]. }
    intros xs w1 (H1 & H2 & H3 & H4 & H5 & H6 & H7).
    apply wp_modify, wp_unlock. simpl. rewrite H1, H5, H6, H7.
    rewrite release_just_locked by reflexivity.
    split; [reflexivity|]. split; [assumption|]. split; [reflexivity|].
    right. repeat split; auto.
    intros _ i l Hl. apply (H3 i l); [|assumption].
    apply lookup_lt_Some in Hl. now rewrite H2 in Hl.
  - apply wp_bind, wp_ret, wp_unlock. simpl. rewrite Hheld, Hrun.
    rewrite release_just_locked by reflexivity.
    split; [reflexivity|]. split; [apply no_new_running_refl|]. split; [reflexivity|].
    right. repeat split; auto.
Qed.

(** ** The invariant is kept *)

Lemma Inv_quiet w w' : Inv w -> quiet w w' -> held w' = [] -> Inv w'.
Proof.
  intros [L H C O R] ([Hlen Hnew] & Hcur & Hrun) Hheld. constructor.
  - congruence.
  - assumption.
  - now rewrite Hcur.
  - rewrite Hrun. intros Hr i j li lj Hi Hj Si Sj.
    destruct (Hnew i li Hi Si) as (li0 & Hi0 & Si0).
    destruct (Hnew j lj Hj Sj) as (lj0 & Hj0 & Sj0).
    eapply (O Hr); eauto.
  - rewrite Hrun. intros Hr i l Hi Si. rewrite Hcur.
    destruct (Hnew i l Hi Si) as (l0 & Hi0 & Si0). eapply R; eauto.
Qed.

Lemma Inv_steps {A : Type} (m : M A) w a w' :
  steps [] (fun _ => []) m -> Inv w -> m w = Done a w' -> Inv w'.
Proof.
  intros Hm HI E. pose proof (Hm w (inv_held w HI)) as Hs. rewrite E in Hs.
  destruct Hs as [Hh Hq]. eapply Inv_quiet; eauto.
Qed.

Lemma selected_lane_in_range w :
  policies_in_range -> length (lanes w) = NUM_LANES ->
  is_lane_or_none (selected_lane w).
Proof.
  intros Hpol Hlen. unfold selected_lane.
  destruct (algorithm (scheduler w)).
  - now apply sjf_select_in_range.
  - now apply Hpol.
  - now apply Hpol.
Qed.

Lemma only_current_at_most_one w : only_current_runs w -> at_most_one_running (lanes w).
Proof.
  intros H i j li lj Hi Hj Si Sj.
  pose proof (H i li Hi Si). pose proof (H j lj Hj Sj). lia.
Qed.

Lemma Inv_after_schedule w :
  policies_in_range -> Inv w -> Inv (after_schedule w).
Proof.
  intros Hpol [L H C O R].
  pose proof (selected_lane_in_range w Hpol L) as Hsel.
  unfold after_schedule.
  destruct (negb (selected_lane w =? current_lane (scheduler w))
            && negb (selected_lane w =? -1)) eqn:Hcond.
  - apply andb_true_iff in Hcond as [Hc1 Hc2].
    apply negb_true_iff, Z.eqb_neq in Hc1, Hc2.
    destruct Hsel as [?|Hn]; [contradiction|].
    set (n := selected_lane w) in *. set (c := current_lane (scheduler w)) in *.
    assert (En : lane_of n = Some (Z.to_nat n)).
    { unfold lane_of. destruct (Z.leb_spec 0 n); [reflexivity|lia]. }
    assert (Honly : simulation_running w = true ->
                    forall i l, switch_lanes (lane_of c) (lane_of n) (lanes w) !! i = Some l ->
                      state l = RUNNING -> n = Z.of_nat i).
    { intros Hrun i l Hi Si. specialize (R Hrun).
      destruct (decide (Z.to_nat n = i)) as [<-|Hni]; [lia|].
      destruct (decide (c = Z.of_nat i)) as [Hci|Hci].
      - exfalso. destruct (lookup_lt_is_Some_2 (lanes w) i) as [l0 Hl0].
        { apply lookup_lt_Some in Hi. now rewrite length_switch_lanes in Hi. }
        rewrite Hci, lane_of_nat, En in Hi.
        rewrite (switch_lanes_from i _ _ l0) in Hi by (auto; congruence).
        injection Hi as <-. now apply (demote_not_running l0).
      - exfalso. rewrite switch_lanes_other in Hi.
        + apply Hci. now apply (R i l).
        + now apply lane_of_neq.
        + rewrite En. congruence. }
    constructor; simpl.
    + now rewrite length_switch_lanes.
    + assumption.
    + now right.
    + intros Hrun i j li lj Hi Hj Si Sj.
      pose proof (Honly Hrun i li Hi Si). pose proof (Honly Hrun j lj Hj Sj). lia.
    + exact Honly.
  - constructor; simpl; auto.
Qed.

Lemma Inv_set_scheduling_algorithm a w u w' :
  Inv w -> set_scheduling_algorithm a w = Done u w' -> Inv w'.
Proof.
  intros HI E. pose proof HI as [L H C O R].
  destruct (set_scheduling_algorithm_effect a w H L)
    as (w1 & E1 & Hh & [Hlen Hnew] & Hrun & Hcase).
  rewrite E in E1. injection E1 as _ <-.
  destruct Hcase as [->|(Hcur & _ & Hstop)]; [assumption|].
  constructor.
  - congruence.
  - assumption.
  - left. assumption.
  - rewrite Hrun. intros Hr i j li lj Hi Hj Si Sj.
    destruct (Hnew i li Hi Si) as (li0 & Hi0 & Si0).
    destruct (Hnew j lj Hj Sj) as (lj0 & Hj0 & Sj0).
    eapply (O Hr); eauto.
  - rewrite Hrun. intros Hr i l Hi Si. exfalso. now apply (Hstop Hr i l).
Qed.

Lemma Inv_handle_user_input ch w r w' :
  Inv w -> handle_user_input ch w = Done r w' -> Inv w'.
Proof.
  intros HI E.
  assert (Hquiet : ch <> key "1" -> ch <> key "2" -> ch <> key "3" -> Inv w').
  { intros N1 N2 N3. eapply Inv_steps; [|exact HI|exact E].
    now apply steps_handle_quiet_keys. }
  destruct (Z.eq_dec ch (key "1")) as [E1|N1];
    [|destruct (Z.eq_dec ch (key "2")) as [E2|N2];
      [|destruct (Z.eq_dec ch (key "3")) as [E3|N3]; [|now apply Hquiet]]].
  all: subst ch; unfold handle_user_input in E; unfold bind at 1 in E;
       unfold get at 1 in E; destruct (show_help w) eqn:Hhelp.
  all: try (simpl in E; apply bind_inv in E as (u & w1 & E & Er);
            injection Er as _ <-; now apply Inv_set_scheduling_algorithm in E).
  all: simpl in E; unfold bind, modify, ret in E; simpl in E;
       destruct (pause_requested w); simpl in E; injection E as _ <-;
       (eapply Inv_quiet; [exact HI|now apply quiet_same|apply (inv_held w HI)]).
Qed.

(** ** Reachable states *)

Lemma filter_running_none (ls : list LaneProcess) :
  (forall y, y ∈ ls -> state y <> RUNNING) ->
  filter (fun l => state l = RUNNING) ls = [].
Proof.
  induction ls as [|x ls IH]; intros H; [reflexivity|].
  rewrite filter_cons_False by (apply H; now left).
  apply IH. intros y Hy. apply H. now right.
Qed.

Lemma at_most_one_running_count ls :
  at_most_one_running ls -> (running_count ls <= 1)%nat.
Proof.
  unfold running_count. induction ls as [|x ls IH]; intros H; [simpl; lia|].
  destruct (decide (state x = RUNNING)) as [Sx|Sx].
  - rewrite filter_cons_True by assumption.
    rewrite filter_running_none; [simpl; lia|].
    intros y Hy Sy. apply list_elem_of_lookup in Hy as [j Hj].
    specialize (H 0%nat (S j) x y eq_refl Hj Sx Sy). discriminate.
  - rewrite filter_cons_False by assumption. apply IH.
    intros i j li lj Hi Hj Si Sj.
    specialize (H (S i) (S j) li lj Hi Hj Si Sj). lia.
Qed.

Lemma Inv_boot now min_rate max_rate a history_allocated blank m0 e0 rnd others b0 :
  Inv (boot now min_rate max_rate a history_allocated blank m0 e0 rnd others b0).
Proof.
  constructor; simpl; auto.
  - now left.
  - intros _ i j li lj Hi Hj Si.
    destruct i as [|[|[|[|i]]]]; simpl in Hi; try discriminate;
      injection Hi as <-; discriminate.
  - intros _ i l Hi Si.
    destruct i as [|[|[|[|i]]]]; simpl in Hi; try discriminate;
      injection Hi as <-; discriminate.
Qed.

Section Reachability.

Hypothesis Hpolicies : policies_in_range.
Hypothesis Hsweep : sweep_starts_no_lane.

Lemma Inv_perform e w w' :
  Inv w -> perform e w = Done tt w' -> Inv w'.
Proof.
  intros HI E. destruct e; simpl in E.
  - eapply Inv_steps; [now apply steps_update_simulation_state|exact HI|exact E].
  - apply bind_inv in E as (n & w1 & E & Er). injection Er as <-.
    rewrite schedule_next_lane_run in E.
    + injection E as _ <-. now apply Inv_after_schedule.
    + apply (inv_held w HI).
    + apply (inv_lanes w HI).
    + apply selected_lane_in_range; [assumption|apply (inv_lanes w HI)].
    + apply (inv_current w HI).
  - eapply Inv_steps; [apply steps_execute_lane_time_slice|exact HI|exact E].
  - eapply Inv_steps; [apply steps_vehicle_generator_iteration|exact HI|exact E].
  - eapply Inv_steps; [apply steps_lane_process_thread_iteration|exact HI|exact E].
  - apply bind_inv in E as (r & w1 & E & Er). injection Er as <-.
    eapply Inv_handle_user_input; eauto.
  - unfold handle_signal_interrupt, bind, modify in E. injection E as <-.
    destruct HI as [L H C O R]. constructor; simpl; auto; discriminate.
  - unfold modify in E. injection E as <-.
    destruct HI as [L H C O R]. constructor; simpl; auto.
Qed.

Lemma reachable_Inv w : reachable w -> Inv w.
Proof.
  induction 1 as [|w e w' _ IH E].
  - apply Inv_boot.
  - eapply Inv_perform; eauto.
Qed.

(** A whole iteration of [simulation_main_loop] is a sequence of events, so
    the states between iterations are reachable states. *)
Lemma lane_index_same n w i w' : lane_index n w = Done i w' -> w' = w.
Proof.
  unfold lane_index. destruct (_ && _); [|discriminate]. now intros [= _ <-].
Qed.

Lemma reachable_process_traffic_events w w' :
  reachable w -> process_traffic_events w = Done tt w' -> reachable w'.
Proof.
  intros Hr E. unfold process_traffic_events in E.
  apply bind_inv in E as (n & w1 & E1 & E).
  assert (Hr1 : reachable w1).
  { apply (reachable_step w ScheduleNext w1); [assumption|].
    simpl. now rewrite (bind_Done _ _ _ _ _ E1). }
  destruct (negb (n =? -1)).
  - apply bind_inv in E as (i & w2 & E2 & E).
    apply lane_index_same in E2 as ->.
    unfold bind at 1 in E. unfold get_scheduler at 1 in E.
    now apply (reachable_step w1 (TimeSlice i (time_quantum (scheduler w1))) w').
  - now injection E as <-.
Qed.

Lemma reachable_simulation_main_loop_iteration w w' :
  reachable w ->
  simulation_main_loop_iteration w = Done tt w' -> reachable w'.
Proof.
  intros Hr E. unfold simulation_main_loop_iteration in E.
  unfold bind at 1 in E. unfold get at 1 in E.
  apply bind_inv in E as (u & w3 & E & Es).
  assert (Hr3 : reachable w3).
  { destruct (negb (simulation_paused w)); simpl in E.
    - apply bind_inv in E as (u1 & w1 & E1 & E2). destruct u1, u.
      assert (Hr1 : reachable w1)
        by now apply (reachable_step w UpdateState w1).
      now apply (reachable_process_traffic_events w1).
    - now injection E as _ <-. }
  apply (reachable_step w3
           (Environment (now_us w3 + SIMULATION_UPDATE_INTERVAL) (busy w3)) w');
    [assumption|].
  unfold usleep, modify in Es. simpl. unfold modify. rewrite <- Es.
  now destruct w3.
Qed.

(** [validate_single_lane_running] with its result. *)
Lemma indexed_snapshot_loop {A : Type} (g : nat -> LaneProcess -> A) (body : nat -> M A) w :
  (forall i l, lanes w !! i = Some l -> body i w = Done (g i l) w) ->
  forall n s, (s + n <= length (lanes w))%nat ->
  for_each (seq s n) body w =
  Done (zip_with g (seq s n) (take n (drop s (lanes w)))) w.
Proof.
  intros Hbody. induction n as [|n IH]; intros s Hlen; simpl.
  - reflexivity.
  - destruct (lanes w !! s) as [l|] eqn:El.
    2:{ apply lookup_ge_None in El. lia. }
    rewrite (bind_Done _ _ _ _ _ (Hbody _ _ El)).
    rewrite (bind_Done _ _ _ _ _ (IH (S s) ltac:(lia))).
    unfold ret. f_equal.
    rewrite (drop_S _ _ _ El). simpl. reflexivity.
Qed.

Lemma flagged_running_count (g : nat -> LaneProcess -> bool) :
  (forall i l, g i l = true -> state l = RUNNING) ->
  forall idxs ls,
    (length (filter (fun b => b = true) (zip_with g idxs ls)) <= running_count ls)%nat.
Proof.
  intros Hg. unfold running_count.
  induction idxs as [|i idxs IH]; intros [|l ls]; simpl; try lia.
  specialize (IH ls). rewrite !filter_cons.
  destruct (decide (g i l = true)) as [E|E].
  - rewrite decide_True by now apply (Hg i). simpl. lia.
  - destruct (decide (state l = RUNNING)); simpl; lia.
Qed.

Lemma validate_single_lane_running_true w :
  length (lanes w) = NUM_LANES ->
  (forall i, holds (queue_lock i) (held w) = false) ->
  (running_count (lanes w) <= 1)%nat ->
  validate_single_lane_running w = Done true w.
Proof.
  intros Hlen Hfree Hcount. unfold validate_single_lane_running, for_lanes.
  set (g := fun (i : nat) (l : LaneProcess) =>
              if holds (queue_lock i) (busy w) then false
              else LaneState_eqb (state l) RUNNING).
  erewrite bind_Done.
  2:{ apply (indexed_snapshot_loop g); [|rewrite Hlen; lia].
      intros i l Hl. unfold bind, trylock, g. rewrite Hfree. simpl.
      destruct (holds (queue_lock i) (busy w)); [reflexivity|].
      unfold get_lane, unlock, modify, ret. simpl. rewrite Hl. simpl.
      rewrite release_just_locked by auto. now destruct w. }
  pose proof (flagged_running_count g) as Hle.
  specialize (Hle ltac:(intros i l; unfold g;
                        destruct (holds _ _); [discriminate|apply LaneState_eqb_eq])
                  (seq 0 NUM_LANES) (take NUM_LANES (drop 0 (lanes w)))).
  assert (Htake : running_count (take NUM_LANES (drop 0 (lanes w))) = running_count (lanes w)).
  { rewrite drop_0, <- Hlen, firstn_all. reflexivity. }
  rewrite Htake in Hle.
  destruct (Z.ltb_spec 1 (Z.of_nat (length (filter (fun b => b = true)
              (zip_with g (seq 0 NUM_LANES) (take NUM_LANES (drop 0 (lanes w)))))))); [lia|].
  reflexivity.
Qed.

(** While the simulation runs, at most one lane is RUNNING, and
    [validate_single_lane_running] says so. *)
Lemma one_lane_runs_while_simulation_runs w :
  reachable w ->
  simulation_running w = true ->
  (running_count (lanes w) <= 1)%nat /\
  validate_single_lane_running w = Done true w.
Proof.
  intros Hr Hrun. pose proof (reachable_Inv w Hr) as HI.
  assert (Hcount : (running_count (lanes w) <= 1)%nat).
  { apply at_most_one_running_count. now apply (inv_one w HI). }
  split; [exact Hcount|].
  apply validate_single_lane_running_true; [apply (inv_lanes w HI)| |exact Hcount].
  intros i. now rewrite (inv_held w HI).
Qed.

Lemma flags_of_free_lanes (g : nat -> LaneProcess -> bool) idxs :
  (forall i l, i ∈ idxs -> g i l = LaneState_eqb (state l) RUNNING) ->
  forall ls, length idxs = length ls ->
    length (filter (fun b => b = true) (zip_with g idxs ls)) = running_count ls.
Proof.
  unfold running_count.
  induction idxs as [|i idxs IH]; intros Hg [|l ls] Hlen; simpl in *; try lia.
  rewrite !filter_cons, Hg by (now left).
  assert (IH' : length (filter (fun b => b = true) (zip_with g idxs ls)) =
                length (filter (fun l => state l = RUNNING) ls)).
  { apply IH; [|lia]. intros j l' Hj. apply Hg. now right. }
  destruct (LaneState_eqb (state l) RUNNING) eqn:E.
  - apply LaneState_eqb_eq in E.
    rewrite decide_True by reflexivity. rewrite decide_True by assumption.
    simpl. now f_equal.
  - apply LaneState_eqb_neq in E.
    rewrite decide_False by discriminate. rewrite decide_False by assumption.
    exact IH'.
Qed.

Lemma validate_single_lane_running_false w :
  length (lanes w) = NUM_LANES ->
  (forall i, holds (queue_lock i) (held w) = false) ->
  (forall i, (i < NUM_LANES)%nat -> holds (queue_lock i) (busy w) = false) ->
  (2 <= running_count (lanes w))%nat ->
  validate_single_lane_running w = Done false w.
Proof.
  intros Hlen Hfree Hnobusy Hcount. unfold validate_single_lane_running, for_lanes.
  set (g := fun (i : nat) (l : LaneProcess) =>
              if holds (queue_lock i) (busy w) then false
              else LaneState_eqb (state l) RUNNING).
  erewrite bind_Done.
  2:{ apply (indexed_snapshot_loop g); [|rewrite Hlen; lia].
      intros i l Hl. unfold bind, trylock, g. rewrite Hfree. simpl.
      destruct (holds (queue_lock i) (busy w)); [reflexivity|].
      unfold get_lane, unlock, modify, ret. simpl. rewrite Hl. simpl.
      rewrite release_just_locked by auto. now destruct w. }
  assert (Htake : take NUM_LANES (drop 0 (lanes w)) = lanes w).
  { rewrite drop_0, <- Hlen. apply firstn_all. }
  rewrite Htake, (flags_of_free_lanes g).
  - destruct (Z.ltb_spec 1 (Z.of_nat (running_count (lanes w)))); [reflexivity|lia].
  - intros i l Hi. apply elem_of_seq in Hi. unfold g. rewrite Hnobusy by lia.
    reflexivity.
  - now rewrite length_seq.
Qed.

Lemma running_count_lookup ls i l :
  ls !! i = Some l -> state l = RUNNING -> (1 <= running_count ls)%nat.
Proof.
  unfold running_count. revert i.
  induction ls as [|x ls IH]; intros [|i] Hl Hs; simpl in Hl; try discriminate.
  - injection Hl as ->. rewrite filter_cons_True by assumption. simpl. lia.
  - specialize (IH i Hl Hs). rewrite filter_cons.
    destruct (decide (state x = RUNNING)); simpl; lia.
Qed.

Lemma running_count_two ls a b la lb :
  a <> b -> ls !! a = Some la -> ls !! b = Some lb ->
  state la = RUNNING -> state lb = RUNNING -> (2 <= running_count ls)%nat.
Proof.
  revert a b.
  induction ls as [|x ls IH]; intros [|a] [|b] Hne Ha Hb Sa Sb;
    simpl in Ha, Hb; try discriminate; try congruence.
  - injection Ha as ->. pose proof (running_count_lookup ls b lb Hb Sb) as H1.
    unfold running_count in *. rewrite filter_cons_True by assumption. simpl. lia.
  - injection Hb as ->. pose proof (running_count_lookup ls a la Ha Sa) as H1.
    unfold running_count in *. rewrite filter_cons_True by assumption. simpl. lia.
  - assert (Hab : a <> b) by congruence.
    pose proof (IH a b Hab Ha Hb Sa Sb) as H2.
    unfold running_count in *. rewrite filter_cons.
    destruct (decide (state x = RUNNING)); simpl; lia.
Qed.

(** C1.  The invariant "at most one lane is RUNNING" is broken when a policy
    key follows an interrupt.  [handle_signal_interrupt] clears
    [simulation_running]; [set_scheduling_algorithm] then forgets the current
    lane but, because the flag is clear, skips the loop that stops the
    RUNNING lane; the scheduling decision of the simulation-loop iteration
    that was under way (the loop tests the flag at its head only) finds no
    current lane and promotes the lane it selects without demoting any.
    Two lanes are RUNNING, in a state the system reaches, and
    [validate_single_lane_running] answers false. *)
Theorem policy_switch_after_interrupt_runs_two_lanes
    (w : World) (a b : nat) (la lb : LaneProcess) :
  held w = [] ->
  length (lanes w) = NUM_LANES ->
  holds scheduler_lock (busy w) = false ->
  show_help w = false ->
  lanes w !! a = Some la -> state la = RUNNING ->
  lanes w !! b = Some lb -> state lb = READY ->
  sjf_select (clock w) (lanes w) = Z.of_nat b ->
  exists w1 w2 w3,
    handle_signal_interrupt w = Done tt w1 /\
    handle_user_input (key "1") w1 = Done (key "1") w2 /\
    schedule_next_lane w2 = Done (Z.of_nat b) w3 /\
    lanes w3 !! a = Some la /\
    lanes w3 !! b = Some (set_waiting_time 0 (set_state RUNNING lb)) /\
    (2 <= running_count (lanes w3))%nat /\
    ((forall i, (i < NUM_LANES)%nat -> holds (queue_lock i) (busy w) = false) ->
     validate_single_lane_running w3 = Done false w3) /\
    (reachable w -> reachable w3).
Proof.
  intros Hheld Hlen Hbusy Hhelp Ha Sa Hb Sb Hsel.
  assert (Hab : a <> b) by (intros ->; congruence).
  assert (Hb4 : (b < NUM_LANES)%nat) by (rewrite <- Hlen; now apply lookup_lt_Some in Hb).
  set (w1 := set_simulation_running false (set_keep_running false w)).
  set (w2 := set_scheduler (set_current_lane (-1) (set_algorithm SJF (scheduler w))) w1).
  assert (E1 : handle_signal_interrupt w = Done tt w1) by reflexivity.
  assert (Eset : set_scheduling_algorithm SJF w1 = Done tt w2).
  { unfold set_scheduling_algorithm, bind, trylock.
    change (held w1) with (held w). change (busy w1) with (busy w).
    rewrite Hheld, Hbusy. simpl.
    unfold modify_scheduler, modify, get, when, unlock, modify, ret. simpl.
    rewrite release_just_locked by reflexivity.
    unfold w2, w1. f_equal. destruct w; simpl in *. now subst. }
  assert (E2 : handle_user_input (key "1") w1 = Done (key "1") w2).
  { unfold handle_user_input, bind at 1, get at 1.
    change (show_help w1) with (show_help w). rewrite Hhelp. simpl.
    now rewrite (bind_Done _ _ _ _ _ Eset). }
  assert (Esel : selected_lane w2 = Z.of_nat b) by exact Hsel.
  assert (E3 : schedule_next_lane w2 = Done (Z.of_nat b) (after_schedule w2)).
  { rewrite <- Esel. apply schedule_next_lane_run.
    - exact Hheld.
    - exact Hlen.
    - rewrite Esel. right. lia.
    - now left. }
  assert (Elanes : lanes (after_schedule w2) =
                   switch_lanes None (Some b) (lanes w)).
  { unfold after_schedule. rewrite Esel.
    change (current_lane (scheduler w2)) with (-1).
    destruct (Z.eqb_spec (Z.of_nat b) (-1)) as [?|_]; [lia|].
    simpl negb. cbv iota. rewrite lane_of_nat. reflexivity. }
  assert (Ha3 : lanes (after_schedule w2) !! a = Some la).
  { rewrite Elanes, switch_lanes_other by congruence. exact Ha. }
  assert (Hb3 : lanes (after_schedule w2) !! b =
                Some (set_waiting_time 0 (set_state RUNNING lb))).
  { rewrite Elanes, (switch_lanes_to None b _ lb) by (auto; discriminate).
    unfold promote. now rewrite Sb. }
  assert (Hcount : (2 <= running_count (lanes (after_schedule w2)))%nat).
  { now apply (running_count_two _ a b la (set_waiting_time 0 (set_state RUNNING lb))). }
  exists w1, w2, (after_schedule w2).
  split; [exact E1|]. split; [exact E2|]. split; [exact E3|].
  split; [exact Ha3|]. split; [exact Hb3|]. split; [exact Hcount|]. split.
  - intros Hnobusy. apply validate_single_lane_running_false.
    + rewrite Elanes. now rewrite length_switch_lanes.
    + intros i. unfold after_schedule. destruct (_ && _); simpl; now rewrite Hheld.
    + intros i Hi. unfold after_schedule. destruct (_ && _); simpl; now apply Hnobusy.
    + exact Hcount.
  - intros Hr.
    apply (reachable_step w2 ScheduleNext); [|simpl; now rewrite (bind_Done _ _ _ _ _ E3)].
    apply (reachable_step w1 (KeyPressed (key "1")));
      [|simpl; now rewrite (bind_Done _ _ _ _ _ E2)].
    now apply (reachable_step w Interrupt).
Qed.

(** ** The vehicle generator *)

Lemma wp_get (Q : World -> World -> Prop) w : Q w w -> wp get Q w.
Proof. exact id. Qed.

Lemma wp_lane_index n (Q : nat -> World -> Prop) w :
  0 <= n < Z.of_nat (length (lanes w)) -> Q (Z.to_nat n) w -> wp (lane_index n) Q w.
Proof. intros Hn HQ. unfold wp. now rewrite lane_index_run. Qed.

(** An iteration of the vehicle generator leaves the lane it picked in a
    state other than WAITING: it is the generator, after its call of
    [add_vehicle_to_lane], that promotes the lane. *)
Lemma vehicle_generator_wakes_lane w :
  held w = [] ->
  length (lanes w) = NUM_LANES ->
  simulation_paused w = false ->
  exists w' l',
    vehicle_generator_iteration w = Done tt w' /\
    lanes w' !! generator_lane w = Some l' /\
    state l' <> WAITING.
Proof.
  intros Hheld Hlen Hpaused.
  cut (wp vehicle_generator_iteration
         (fun _ w' => exists l', lanes w' !! generator_lane w = Some l' /\
                                 state l' <> WAITING) w).
  { intros H. apply wp_elim in H as ([] & w' & E & l' & H). now exists w', l'. }
  unfold vehicle_generator_iteration.
  apply wp_bind, wp_get. rewrite Hpaused. simpl negb. cbv iota.
  apply wp_bind, wp_rand, wp_bind, wp_rand, wp_bind, wp_rand. simpl rand_src.
  fold (generator_lane w).
  assert (Hrange : 0 <= Z.rem (Z.abs (rand_src w 2%nat)) (Z.of_nat NUM_LANES)
                   < Z.of_nat NUM_LANES).
  { apply Z.rem_bound_pos; unfold NUM_LANES; lia. }
  apply wp_bind, wp_lane_index; [simpl; now rewrite Hlen|].
  fold (generator_lane w). set (i := generator_lane w).
  destruct (lookup_lt_is_Some_2 (lanes w) i) as [l Hl].
  { rewrite Hlen. unfold i, generator_lane. lia. }
  apply wp_bind, wp_lock; [simpl; now rewrite Hheld|].
  apply wp_bind, wp_get, wp_bind, wp_modify, wp_bind, wp_unlock.
  eapply wp_bind, wp_run.
  { apply (add_vehicle_to_lane_run i _ l); simpl; [|exact Hl].
    rewrite Hheld. now rewrite release_just_locked by reflexivity. }
  assert (Hwake : forall (e : World -> World) us w1,
            (forall w0, held (e w0) = held w0 /\ lanes (e w0) = lanes w0) ->
            held w1 = [] -> (exists l1, lanes w1 !! i = Some l1) ->
            wp (do r4 <- rand;
                when (Z.rem r4 EMERGENCY_PROBABILITY =? 0) (modify e) >>
                lock (queue_lock i) >>
                do l <- get_lane i;
                when (LaneState_eqb (state l) WAITING)
                     (modify_lane i (set_state READY) >>
                      modify_lane i (set_waiting_time 0)) >>
                unlock (queue_lock i) >>
                usleep us)
               (fun _ w' => exists l', lanes w' !! i = Some l' /\ state l' <> WAITING) w1).
  { intros e us w1 He H1 [l1 Hl1].
    apply wp_bind, wp_rand, wp_bind.
    eapply wp_conseq with
      (Q := fun _ w2 => held w2 = [] /\ lanes w2 !! i = Some l1).
    { destruct (_ =? 0); simpl.
      - apply wp_modify. destruct (He (set_rand_src (fun n => rand_src w1 (S n)) w1))
          as [E1 E2]. rewrite E1, E2. simpl. auto.
      - apply wp_ret. simpl. auto. }
    intros _ w2 [H2 Hl2].
    apply wp_bind, wp_lock; [now rewrite H2|].
    eapply wp_bind, wp_get_lane; [exact Hl2|].
    assert (Hlt : (i < length (lanes w2))%nat) by now apply lookup_lt_Some in Hl2.
    destruct (LaneState_eqb (state l1) WAITING) eqn:Ew; simpl.
    - eapply wp_bind, wp_bind, wp_modify_lane; [exact Hl2|].
      eapply wp_modify_lane;
        [simpl; now apply list_lookup_insert_eq|].
      apply wp_bind, wp_unlock, wp_usleep. simpl.
      eexists. split.
      + apply list_lookup_insert_eq. now rewrite length_insert.
      + simpl. discriminate.
    - apply wp_bind, wp_ret, wp_bind, wp_unlock, wp_usleep. simpl.
      exists l1. split; [assumption|]. now apply LaneState_eqb_neq. }
  destruct (fst (enqueue (queue l) _)).
  - apply Hwake; simpl.
    + intros w0. now destruct w0.
    + rewrite Hheld. now rewrite release_just_locked by reflexivity.
    + eexists. apply list_lookup_insert_eq. now apply lookup_lt_Some in Hl.
  - apply Hwake; simpl.
    + intros w0. now destruct w0.
    + rewrite Hheld. now rewrite release_just_locked by reflexivity.
    + now exists l.
Qed.

End Reachability.

(** * Further properties of the lane operations (lane_process.c) *)

Lemma remove_vehicle_from_lane_unlocked_run i l w :
  lanes w !! i = Some l ->
  remove_vehicle_from_lane_unlocked i w =
  Done (fst (dequeue (queue l))) (set_lanes (<[i := after_dequeue l]> (lanes w)) w).
Proof.
  intros Hl. unfold remove_vehicle_from_lane_unlocked.
  rewrite (bind_Done _ _ _ _ _ (get_lane_run i l w Hl)).
  rewrite (bind_Done _ _ _ _ _ (modify_lane_run i _ l w Hl)).
  erewrite bind_Done.
  2:{ apply modify_lane_run. simpl. apply list_lookup_insert_eq.
      now apply lookup_lt_Some in Hl. }
  unfold ret. simpl. now rewrite list_insert_insert_eq.
Qed.

Lemma remove_vehicle_from_lane_run i l w :
  holds (queue_lock i) (held w) = false ->
  lanes w !! i = Some l ->
  remove_vehicle_from_lane i w =
  Done (fst (dequeue (queue l))) (set_lanes (<[i := after_dequeue l]> (lanes w)) w).
Proof.
  intros Hh Hl. unfold remove_vehicle_from_lane.
  rewrite (bind_Done _ _ _ _ _ (lock_run _ _ Hh)).
  rewrite (bind_Done _ _ _ _ _ (get_lane_run i l (set_held _ w) Hl)).
  rewrite (bind_Done _ _ _ _ _ (modify_lane_run i _ l (set_held _ w) Hl)).
  erewrite bind_Done.
  2:{ apply modify_lane_run. simpl. apply list_lookup_insert_eq.
      now apply lookup_lt_Some in Hl. }
  unfold bind, unlock, modify, ret. simpl.
  rewrite release_just_locked by assumption.
  rewrite list_insert_insert_eq. now destruct w.
Qed.

(** ** The lane thread *)

Lemma lane_settled_running l :
  LaneState_eqb (state (lane_settled l)) RUNNING = LaneState_eqb (state l) RUNNING.
Proof.
  unfold lane_settled.
  destruct (0 <? queue_length l), (queue_length l =? 0), (state l) eqn:Es;
    simpl; rewrite ?Es; reflexivity.
Qed.

Lemma lane_settled_queue_length l : queue_length (lane_settled l) = queue_length l.
Proof.
  unfold lane_settled.
  destruct (_ && _); [reflexivity|]. destruct (_ && _); reflexivity.
Qed.

Lemma lane_process_thread_iteration_run lane l w :
  holds (queue_lock lane) (held w) = false ->
  lanes w !! lane = Some l ->
  lane_process_thread_iteration lane w =
  if (Z.rem (Z.abs (rand_src w 0%nat)) 10 =? 0)
     || (LaneState_eqb (state l) RUNNING && (0 <? queue_length l))
  then Deadlock
  else Done tt (elapse 100000
                  (set_rand_src (fun n => rand_src w (S n))
                     (set_lanes (<[lane := lane_tick l]> (lanes w)) w))).
Proof.
  intros Hh Hl. unfold lane_process_thread_iteration.
  assert (Hlt : (lane < length (lanes w))%nat) by now apply lookup_lt_Some in Hl.
  rewrite (bind_Done _ _ _ _ _ (lock_run _ _ Hh)).
  unfold bind at 1. unfold rand at 1. simpl rand_src.
  set (w2 := set_rand_src _ (set_held _ w)).
  destruct (Z.rem (Z.abs (rand_src w 0%nat)) 10 =? 0) eqn:Er; simpl orb.
  { apply bind_Deadlock. simpl when. unfold bind at 1. unfold rand at 1.
    unfold add_vehicle_to_lane. apply bind_Deadlock. unfold lock. simpl.
    now rewrite holds_here. }
  rewrite (bind_Done _ _ _ tt w2) by reflexivity.
  rewrite (bind_Done _ _ _ _ _ (get_lane_run lane l w2 Hl)).
  set (w3 := set_lanes (<[lane := lane_settled l]> (lanes w2)) w2).
  rewrite (bind_Done _ _ _ tt w3).
  2:{ unfold w3, lane_settled. destruct (_ && _).
      - now apply modify_lane_run.
      - destruct (_ && _).
        + now apply modify_lane_run.
        + unfold ret. now rewrite set_lanes_insert_same. }
  assert (Hl3 : lanes w3 !! lane = Some (lane_settled l)).
  { unfold w3. simpl. now apply list_lookup_insert_eq. }
  rewrite (bind_Done _ _ _ _ _ (get_lane_run lane _ w3 Hl3)).
  rewrite lane_settled_running, lane_settled_queue_length.
  assert (Hrest :
    (do l2 <- get_lane lane;
     when (LaneState_eqb (state l2) READY || LaneState_eqb (state l2) WAITING)
       (modify_lane lane (fun l0 => set_waiting_time (wrap_int (waiting_time l0 + 1)) l0) >>
        modify_lane lane (fun l0 =>
          set_total_waiting_time (wrap_int (total_waiting_time l0 + 1)) l0)) >>
     unlock (queue_lock lane) >>
     usleep 100000) w3
    = Done tt (elapse 100000
                 (set_rand_src (fun n => rand_src w (S n))
                    (set_lanes (<[lane := lane_tick l]> (lanes w)) w)))).
  { rewrite (bind_Done _ _ _ _ _ (get_lane_run lane _ w3 Hl3)).
    unfold lane_tick.
    destruct (LaneState_eqb (state (lane_settled l)) READY
              || LaneState_eqb (state (lane_settled l)) WAITING); simpl when.
    - erewrite bind_Done.
      2:{ rewrite (bind_Done _ _ _ _ _ (modify_lane_run lane _ _ w3 Hl3)).
          apply modify_lane_run. simpl. apply list_lookup_insert_eq.
          now rewrite length_insert. }
      unfold bind, unlock, usleep, modify. simpl held. simpl lanes.
      rewrite release_just_locked by assumption.
      rewrite !list_insert_insert_eq. now destruct w.
    - rewrite (bind_Done _ _ _ tt w3) by reflexivity.
      unfold bind, unlock, usleep, modify. simpl held.
      rewrite release_just_locked by assumption.
      now destruct w. }
  destruct (LaneState_eqb (state l) RUNNING); simpl andb; simpl when.
  - destruct (Z.ltb_spec 0 (queue_length l)) as [Hq|Hq].
    + apply bind_Deadlock, bind_Deadlock.
      assert (Hb : exists k, Z.to_nat (if queue_length l <? BATCH_EXIT_SIZE
                                       then queue_length l else BATCH_EXIT_SIZE) = S k).
      { unfold BATCH_EXIT_SIZE. destruct (queue_length l <? 3).
        - exists (Z.to_nat (queue_length l) - 1)%nat. lia.
        - now exists 2%nat. }
      destruct Hb as [k ->]. simpl seq. apply for_each_first_deadlock.
      apply bind_Deadlock. unfold remove_vehicle_from_lane. apply bind_Deadlock.
      unfold lock. simpl. now rewrite holds_here.
    + rewrite (bind_Done _ _ _ tt w3); [exact Hrest|].
      assert (Hb : Z.to_nat (if queue_length l <? BATCH_EXIT_SIZE
                             then queue_length l else BATCH_EXIT_SIZE) = 0%nat).
      { unfold BATCH_EXIT_SIZE. destruct (Z.ltb_spec (queue_length l) 3); lia. }
      rewrite Hb. reflexivity.
  - rewrite (bind_Done _ _ _ tt w3); [exact Hrest|reflexivity].
Qed.

(** X1.  An iteration of [lane_process_thread] blocks for ever, on the lock
    of its own lane, exactly when its first [rand()] is a multiple of 10 (it
    then calls [add_vehicle_to_lane] inside its critical section) or the
    lane is RUNNING with a positive queue length (it then calls
    [remove_vehicle_from_lane]); in every other case it returns. *)
Theorem lane_process_thread_self_deadlock (w : World) (lane : nat) (l : LaneProcess) :
  holds (queue_lock lane) (held w) = false ->
  lanes w !! lane = Some l ->
  (lane_process_thread_iteration lane w = Deadlock <->
   Z.rem (Z.abs (rand_src w 0%nat)) 10 = 0 \/
   (state l = RUNNING /\ 0 < queue_length l)) /\
  (lane_process_thread_iteration lane w <> Deadlock ->
   exists w', lane_process_thread_iteration lane w = Done tt w').
Proof.
  intros Hh Hl. rewrite (lane_process_thread_iteration_run lane l w Hh Hl).
  destruct (Z.eqb_spec (Z.rem (Z.abs (rand_src w 0%nat)) 10) 0) as [Er|Er]; simpl.
  { split; [|congruence]. split; auto. }
  destruct (LaneState_eqb (state l) RUNNING) eqn:Es; simpl.
  - apply LaneState_eqb_eq in Es.
    destruct (Z.ltb_spec 0 (queue_length l)) as [Hq|Hq].
    + split; [|congruence]. split; auto.
    + split; [|eauto]. split; [discriminate|]. intros [?|[_ ?]]; [contradiction|lia].
  - apply LaneState_eqb_neq in Es.
    split; [|eauto]. split; [discriminate|]. intros [?|[? _]]; contradiction.
Qed.

(** X2.  An iteration of [lane_process_thread] that returns leaves the queue
    and the cached length alone and never starts the lane; it moves a
    WAITING lane with vehicles to READY and a READY or BLOCKED lane whose
    cached length is 0 to WAITING, and then advances both waiting counters
    of a lane that is READY or WAITING.  No other lane changes; the
    iteration ends with a sleep of 100 ms. *)
Theorem lane_process_thread_iteration_effect (w : World) (lane : nat) (l : LaneProcess) :
  holds (queue_lock lane) (held w) = false ->
  lanes w !! lane = Some l ->
  Z.rem (Z.abs (rand_src w 0%nat)) 10 <> 0 ->
  (state l = RUNNING -> queue_length l <= 0) ->
  exists w' l',
    lane_process_thread_iteration lane w = Done tt w' /\
    lanes w' !! lane = Some l' /\
    l' = lane_tick l /\
    queue l' = queue l /\ queue_length l' = queue_length l /\
    (state l' = RUNNING <-> state l = RUNNING) /\
    (state l' = READY -> queue_length l <> 0) /\
    (state l' = WAITING -> queue_length l <= 0) /\
    (state l = BLOCKED -> state l' = if queue_length l =? 0 then WAITING else BLOCKED) /\
    (state l' = READY \/ state l' = WAITING ->
     waiting_time l' = wrap_int (waiting_time l + 1) /\
     total_waiting_time l' = wrap_int (total_waiting_time l + 1)) /\
    (state l' = RUNNING \/ state l' = BLOCKED ->
     waiting_time l' = waiting_time l /\ total_waiting_time l' = total_waiting_time l) /\
    (forall j, j <> lane -> lanes w' !! j = lanes w !! j) /\
    held w' = held w /\ now_us w' = now_us w + 100000.
Proof.
  intros Hh Hl Hr Hrun. rewrite (lane_process_thread_iteration_run lane l w Hh Hl).
  destruct (Z.eqb_spec (Z.rem (Z.abs (rand_src w 0%nat)) 10) 0) as [Er|_];
    [contradiction|]. simpl orb.
  assert (Hc : LaneState_eqb (state l) RUNNING && (0 <? queue_length l) = false).
  { destruct (LaneState_eqb (state l) RUNNING) eqn:Es; [|reflexivity].
    apply LaneState_eqb_eq in Es. specialize (Hrun Es).
    destruct (Z.ltb_spec 0 (queue_length l)); [lia|reflexivity]. }
  rewrite Hc. eexists. exists (lane_tick l).
  split; [reflexivity|].
  split; [simpl; apply list_lookup_insert_eq; now apply lookup_lt_Some in Hl|].
  split; [reflexivity|].
  assert (Hcases :
    queue (lane_tick l) = queue l /\ queue_length (lane_tick l) = queue_length l /\
    (state (lane_tick l) = RUNNING <-> state l = RUNNING) /\
    (state (lane_tick l) = READY -> queue_length l <> 0) /\
    (state (lane_tick l) = WAITING -> queue_length l <= 0) /\
    (state l = BLOCKED ->
     state (lane_tick l) = if queue_length l =? 0 then WAITING else BLOCKED) /\
    (state (lane_tick l) = READY \/ state (lane_tick l) = WAITING ->
     waiting_time (lane_tick l) = wrap_int (waiting_time l + 1) /\
     total_waiting_time (lane_tick l) = wrap_int (total_waiting_time l + 1)) /\
    (state (lane_tick l) = RUNNING \/ state (lane_tick l) = BLOCKED ->
     waiting_time (lane_tick l) = waiting_time l /\
     total_waiting_time (lane_tick l) = total_waiting_time l)).
  { unfold lane_tick, lane_settled.
    destruct (Z.ltb_spec 0 (queue_length l)), (Z.eqb_spec (queue_length l) 0),
      (state l) eqn:Es; simpl; rewrite ?Es; simpl;
      repeat split; intros; try congruence; try lia;
      repeat match goal with H : _ \/ _ |- _ => destruct H end; congruence. }
  destruct Hcases as (H1 & H2 & H3 & H4 & H5 & H6 & H7 & H8).
  repeat (split; [assumption|]).
  split; [intros j Hj; simpl; apply list_lookup_insert_ne; congruence|].
  split; [reflexivity|]. now rewrite now_us_elapse.
Qed.

(** ** Calling the lane operations with the lane's lock held *)

Lemma relock_deadlock {A : Type} m (k : unit -> M A) w :
  holds m (held w) = true -> bind (lock m) k w = Deadlock.
Proof. intros Hh. unfold bind, lock. now rewrite Hh. Qed.

(** X3.  Every locking operation of lane_process.c blocks for ever when the
    calling thread already holds the lane's lock.  The exceptions are
    [remove_vehicle_from_lane_unlocked], which takes no lock and returns the
    front vehicle (-1 for an empty queue), and [get_lane_average_wait_time],
    which returns 0.0 before it locks when the lane has served no vehicle. *)
Theorem lane_operations_relock_deadlock (w : World) (lane : nat) :
  holds (queue_lock lane) (held w) = true ->
  (forall v, add_vehicle_to_lane lane v w = Deadlock) /\
  remove_vehicle_from_lane lane w = Deadlock /\
  get_lane_queue_length lane w = Deadlock /\
  (forall s, update_lane_state lane s w = Deadlock) /\
  is_lane_ready lane w = Deadlock /\
  is_lane_blocked lane w = Deadlock /\
  update_lane_metrics lane w = Deadlock /\
  get_lane_throughput lane w = Deadlock /\
  (forall q, request_intersection_quadrants lane q w = Deadlock) /\
  release_intersection_quadrants lane w = Deadlock /\
  (forall l, lanes w !! lane = Some l ->
     (total_vehicles_served l <> 0 -> get_lane_average_wait_time lane w = Deadlock) /\
     (total_vehicles_served l = 0 ->
      get_lane_average_wait_time lane w = Done float_zero w) /\
     exists w',
       remove_vehicle_from_lane_unlocked lane w = Done (hd (-1) (items (queue l))) w' /\
       held w' = held w).
Proof.
  intros Hh.
  repeat (split; [try intros ?; now apply relock_deadlock|]).
  intros l Hl. split; [|split].
  - intros Hs. unfold get_lane_average_wait_time.
    rewrite (bind_Done _ _ _ _ _ (get_lane_run lane l w Hl)).
    destruct (Z.eqb_spec (total_vehicles_served l) 0); [contradiction|].
    now apply relock_deadlock.
  - intros Hs. unfold get_lane_average_wait_time.
    rewrite (bind_Done _ _ _ _ _ (get_lane_run lane l w Hl)).
    now rewrite Hs.
  - rewrite (remove_vehicle_from_lane_unlocked_run _ l) by assumption.
    eexists. split.
    + f_equal. unfold dequeue. now destruct (items (queue l)).
    + reflexivity.
Qed.

(** X4.  Called without the lane's lock, [remove_vehicle_from_lane] and
    [remove_vehicle_from_lane_unlocked] agree: same result, same final
    state. *)
Theorem remove_vehicle_from_lane_unlocked_agrees (w : World) (lane : nat) :
  holds (queue_lock lane) (held w) = false ->
  remove_vehicle_from_lane lane w = remove_vehicle_from_lane_unlocked lane w.
Proof.
  intros Hh. destruct (lanes w !! lane) as [l|] eqn:Hl.
  - rewrite (remove_vehicle_from_lane_run _ l), (remove_vehicle_from_lane_unlocked_run _ l)
      by assumption. reflexivity.
  - unfold remove_vehicle_from_lane, remove_vehicle_from_lane_unlocked.
    rewrite (bind_Done _ _ _ _ _ (lock_run _ _ Hh)).
    unfold bind, get_lane. simpl. now rewrite Hl.
Qed.

(** ** Arrivals and departures compose to a FIFO *)

(** X5.  [add_vehicle_to_lane] followed by [remove_vehicle_from_lane]
    returns the vehicle that was at the front; on an empty lane that is the
    vehicle just added, and the queue is empty again.  If the lane was full
    the added vehicle is lost without notice and the front vehicle leaves. *)
Theorem add_then_remove_is_fifo (w : World) (lane : nat) (v : Z) (l : LaneProcess) :
  holds (queue_lock lane) (held w) = false ->
  lanes w !! lane = Some l ->
  exists w1 w2 l2,
    add_vehicle_to_lane lane v w = Done tt w1 /\
    remove_vehicle_from_lane lane w1 =
      Done (hd (if get_size (queue l) <? capacity (queue l) then v else -1)
               (items (queue l))) w2 /\
    lanes w2 !! lane = Some l2 /\
    items (queue l2) =
      tl (if get_size (queue l) <? capacity (queue l)
          then items (queue l) ++ [v] else items (queue l)) /\
    queue_length l2 = get_size (queue l2) /\
    state l2 = state l /\
    (forall j, j <> lane -> lanes w2 !! j = lanes w !! j) /\
    held w2 = held w.
Proof.
  intros Hh Hl.
  assert (Hlt : (lane < length (lanes w))%nat) by now apply lookup_lt_Some in Hl.
  rewrite (add_vehicle_to_lane_run lane v l w Hh Hl).
  unfold enqueue.
  destruct (get_size (queue l) <? capacity (queue l)) eqn:Hroom; simpl fst; cbv iota.
  - set (l1 := lane_with_vehicle v (clock w) l).
    set (w1 := set_lanes (<[lane := l1]> (lanes w)) w).
    assert (Hl1 : lanes w1 !! lane = Some l1) by now apply list_lookup_insert_eq.
    exists w1. eexists. exists (after_dequeue l1).
    split; [reflexivity|].
    rewrite (remove_vehicle_from_lane_run lane l1 w1 Hh Hl1).
    assert (Hq : items (queue l1) = items (queue l) ++ [v]).
    { unfold l1, lane_with_vehicle, enqueue. now rewrite Hroom. }
    split.
    { f_equal. unfold dequeue. rewrite Hq. now destruct (items (queue l)). }
    simpl. split; [apply list_lookup_insert_eq; now rewrite length_insert|].
    split.
    { unfold enqueue. rewrite Hroom. unfold dequeue. simpl.
      now destruct (items (queue l)). }
    split; [reflexivity|]. split; [reflexivity|]. split; [|reflexivity].
    intros j Hj. rewrite list_insert_insert_eq. apply list_lookup_insert_ne. congruence.
  - exists w. eexists. exists (after_dequeue l).
    split; [reflexivity|].
    rewrite (remove_vehicle_from_lane_run lane l w Hh Hl).
    split.
    { f_equal. unfold dequeue. now destruct (items (queue l)). }
    simpl. split; [now apply list_lookup_insert_eq|].
    split.
    { unfold dequeue. destruct (items (queue l)) eqn:E; simpl; rewrite ?E; reflexivity. }
    split; [reflexivity|]. split; [reflexivity|]. split; [|reflexivity].
    intros j Hj. apply list_lookup_insert_ne. congruence.
Qed.

(** * Further properties of the policies (sjf_scheduler.c) *)

(** ** Shortest remaining time first *)

Lemma srtf_inv_step snap n v :
  (forall j q, snap !! j = Some (READY, q) -> sjf_cost q < INT_MAX) ->
  srtf_inv snap n v ->
  srtf_inv snap (S n) (srtf_loop_body snap v n).
Proof.
  intros Hcost Hinv. destruct v as [b0 m0]. unfold srtf_loop_body.
  assert (Hkeep : (forall q, snap !! n <> Some (READY, q)) ->
                  srtf_inv snap (S n) (b0, m0)).
  { intros Hn.
    destruct Hinv as [(H1 & H2 & H3)|(b & qb & Hb & H1 & H2 & H3 & H4)].
    - left. split; [assumption|]. split; [assumption|]. intros j q Hj Hs.
      destruct (decide (j = n)) as [->|]; [now apply (Hn q)|].
      eapply H3; [|eassumption]. lia.
    - right. exists b, qb.
      split; [lia|]. split; [assumption|]. split; [assumption|]. split; [assumption|].
      intros j q' Hj Hs.
      destruct (decide (j = n)) as [->|]; [now destruct (Hn q')|].
      apply (H4 j q'); [lia|assumption]. }
  destruct (snap !! n) as [[st q]|] eqn:En; [|apply Hkeep; congruence].
  destruct (decide (st = READY)) as [->|Hst].
  2:{ assert (srtf_inv snap (S n) (b0, m0)) by (apply Hkeep; congruence).
      now destruct st. }
  fold (sjf_cost q). pose proof (Hcost _ _ En) as Hlt.
  destruct Hinv as [(H1 & H2 & H3)|(b & qb & Hb & H1 & H2 & H3 & H4)]; simpl in *.
  - subst m0. destruct (Z.ltb_spec (sjf_cost q) INT_MAX); [|lia].
    right. exists n, q. simpl.
    split; [lia|]. split; [reflexivity|]. split; [assumption|]. split; [reflexivity|].
    intros j q' Hj Hs.
    destruct (decide (j = n)) as [->|].
    + rewrite En in Hs. injection Hs as <-. split; [lia|auto].
    + exfalso. eapply H3; [|eassumption]. lia.
  - subst m0. destruct (Z.ltb_spec (sjf_cost q) (sjf_cost qb)).
    + right. exists n, q. simpl.
      split; [lia|]. split; [reflexivity|]. split; [assumption|]. split; [reflexivity|].
      intros j q' Hj Hs.
      destruct (decide (j = n)) as [->|].
      * rewrite En in Hs. injection Hs as <-. split; [lia|auto].
      * destruct (H4 j q' ltac:(lia) Hs). split; lia.
    + right. exists b, qb. simpl.
      split; [lia|]. split; [assumption|]. split; [assumption|]. split; [reflexivity|].
      intros j q' Hj Hs.
      destruct (decide (j = n)) as [->|].
      * rewrite En in Hs. injection Hs as <-. split; lia.
      * apply (H4 j q'); [lia|assumption].
Qed.

Lemma srtf_inv_loop snap n :
  (forall j q, snap !! j = Some (READY, q) -> sjf_cost q < INT_MAX) ->
  srtf_inv snap n (fold_left (srtf_loop_body snap) (seq 0 n) (-1, INT_MAX)).
Proof.
  intros Hcost. induction n as [|n IH].
  - left. simpl. repeat split; auto. intros; lia.
  - rewrite seq_S, fold_left_app. simpl. now apply srtf_inv_step.
Qed.

Lemma schedule_next_lane_srtf_run w :
  length (lanes w) = NUM_LANES ->
  (forall i, holds (queue_lock i) (held w) = false) ->
  schedule_next_lane_srtf w =
  Done (fst (fold_left
               (srtf_loop_body ((fun l => (state l, queue_length l)) <$> lanes w))
               (seq 0 NUM_LANES) (-1, INT_MAX))) w.
Proof.
  intros Hlen Hfree. unfold schedule_next_lane_srtf.
  erewrite bind_Done; [reflexivity|].
  apply (snapshot_all (fun l => (state l, queue_length l))); [assumption|].
  intros i l Hl. apply (read_lane_locked (fun l => (state l, queue_length l))); auto.
Qed.

(** X6.  [schedule_next_lane_srtf] returns without changing anything; it
    returns none exactly when no lane is READY, and otherwise the READY lane
    of least cost queue_length * VEHICLE_CROSS_TIME, the lowest index
    winning among equals. *)
Theorem srtf_selects_first_cheapest_ready_lane (w : World) :
  length (lanes w) = NUM_LANES ->
  (forall i, holds (queue_lock i) (held w) = false) ->
  (forall l, l ∈ lanes w -> in_int_range (lane_cost l)) ->
  exists r,
    schedule_next_lane_srtf w = Done r w /\
    (r = -1 <-> forall l, l ∈ lanes w -> state l <> READY) /\
    (r <> -1 ->
     exists i l, r = Z.of_nat i /\ lanes w !! i = Some l /\ state l = READY /\
       forall j l', lanes w !! j = Some l' -> state l' = READY ->
         lane_cost l <= lane_cost l' /\
         (lane_cost l' = lane_cost l -> (i <= j)%nat)).
Proof.
  intros Hlen Hfree Hrange.
  set (snap := (fun l => (state l, queue_length l)) <$> lanes w).
  assert (Hsnap : forall j q, snap !! j = Some (READY, q) ->
            exists l, lanes w !! j = Some l /\ state l = READY /\ queue_length l = q).
  { intros j q Hj. unfold snap in Hj. rewrite list_lookup_fmap in Hj.
    destruct (lanes w !! j) as [l|]; simpl in Hj; [|discriminate].
    injection Hj as <- <-. now exists l. }
  assert (Hsnap' : forall j l, lanes w !! j = Some l -> state l = READY ->
            snap !! j = Some (READY, queue_length l)).
  { intros j l Hj Hs. unfold snap. rewrite list_lookup_fmap, Hj. simpl. now rewrite Hs. }
  assert (Hcost : forall j q, snap !! j = Some (READY, q) -> sjf_cost q < INT_MAX).
  { intros j q Hj. destruct (Hsnap _ _ Hj) as (l & Hl & _ & <-).
    apply sjf_cost_exact. apply Hrange. eapply list_elem_of_lookup_2; eauto. }
  assert (Hexact : forall l, l ∈ lanes w -> sjf_cost (queue_length l) = lane_cost l).
  { intros l Hl. apply sjf_cost_exact. now apply Hrange. }
  pose proof (srtf_inv_loop snap NUM_LANES Hcost) as Hinv.
  rewrite (schedule_next_lane_srtf_run w Hlen Hfree). fold snap.
  set (v := fold_left (srtf_loop_body snap) (seq 0 NUM_LANES) (-1, INT_MAX)) in *.
  exists (fst v). split; [reflexivity|]. split.
  - destruct Hinv as [(H1 & _ & H3)|(b & q & Hb & H1 & H2 & _)].
    + split; [|auto]. intros _ l Hl Hs.
      apply list_elem_of_lookup in Hl as [j Hj].
      apply (H3 j (queue_length l)); auto.
      apply lookup_lt_Some in Hj. now rewrite Hlen in Hj.
    + split; [lia|]. intros Hno. exfalso.
      destruct (Hsnap _ _ H2) as (l & Hl & Hs & _).
      apply (Hno l); [eapply list_elem_of_lookup_2; eauto|assumption].
  - destruct Hinv as [(H1 & _)|(b & q & Hb & H1 & H2 & _ & H4)]; [congruence|].
    intros _. destruct (Hsnap _ _ H2) as (l & Hl & Hs & Hq).
    exists b, l.
    split; [assumption|]. split; [assumption|]. split; [assumption|].
    intros j l' Hj Hs'.
    assert (Hjn : (j < NUM_LANES)%nat).
    { apply lookup_lt_Some in Hj. now rewrite Hlen in Hj. }
    destruct (H4 j _ Hjn (Hsnap' _ _ Hj Hs')) as [Hle Htie].
    rewrite <- Hq in Hle, Htie.
    rewrite !Hexact in Hle, Htie by (eapply list_elem_of_lookup_2; eauto).
    auto.
Qed.

(** ** The float-scored policies *)

Section FloatOrder.

Context {S : Type} (snap : list (LaneState * S)) (score : S -> float).

Hypothesis Hfloat : float_order_on (snap_scores snap score).

Lemma scored_max : snap_scores snap score FLT_MAX.
Proof. now left. Qed.

Lemma scored_ready j x :
  snap !! j = Some (READY, x) -> snap_scores snap score (score x).
Proof. intros Hj. right. now exists j, x. Qed.

Lemma flt_irrefl a : snap_scores snap score a -> flt a a = false.
Proof.
  intros Pa. destruct Hfloat as [Hasym _]. destruct (flt a a) eqn:E; [|reflexivity].
  now rewrite (Hasym _ _ Pa Pa E) in E.
Qed.

Lemma flt_lt_nlt a b c :
  snap_scores snap score a -> snap_scores snap score b -> snap_scores snap score c ->
  flt a b = true -> flt c b = false -> flt a c = true.
Proof.
  destruct Hfloat as [_ Hneg]. intros Pa Pb Pc Hab Hcb.
  destruct (flt a c) eqn:E; [reflexivity|].
  now rewrite (Hneg _ _ _ Pa Pc Pb E Hcb) in Hab.
Qed.

Lemma flt_trans a b c :
  snap_scores snap score a -> snap_scores snap score b -> snap_scores snap score c ->
  flt a b = true -> flt b c = true -> flt a c = true.
Proof.
  intros Pa Pb Pc Hab Hbc. destruct Hfloat as [Hasym Hneg].
  destruct (flt a c) eqn:E; [reflexivity|].
  pose proof (Hneg _ _ _ Pa Pc Pb E (Hasym _ _ Pb Pc Hbc)) as Habs. congruence.
Qed.

Lemma float_inv_step n v :
  float_inv snap score n v ->
  float_inv snap score (Datatypes.S n) (float_loop_body snap score v n).
Proof.
  intros Hinv. destruct v as [b0 m0]. unfold float_loop_body.
  destruct Hfloat as [Hasym Hneg].
  assert (Hkeep : (forall x, snap !! n = Some (READY, x) -> flt (score x) m0 = false) ->
                  float_inv snap score (Datatypes.S n) (b0, m0)).
  { intros Hn.
    destruct Hinv as [(H1 & H2 & H3)|(b & xb & Hb & H1 & H2 & H3 & H4 & H5)];
      simpl in *.
    - left. split; [assumption|]. split; [assumption|]. intros j x Hj Hs.
      destruct (decide (j = n)) as [->|]; [subst m0; now apply Hn|].
      eapply H3; [|eassumption]. lia.
    - right. exists b, xb.
      split; [lia|]. split; [assumption|]. split; [assumption|]. split; [assumption|].
      split; [assumption|].
      intros j x' Hj Hs.
      destruct (decide (j = n)) as [->|].
      + split; [subst m0; now apply Hn|lia].
      + apply (H5 j x'); [lia|assumption]. }
  destruct (snap !! n) as [[st x]|] eqn:En; [|apply Hkeep; congruence].
  destruct (decide (st = READY)) as [->|Hst].
  2:{ assert (float_inv snap score (Datatypes.S n) (b0, m0))
        by (apply Hkeep; congruence).
      now destruct st. }
  pose proof (scored_ready n x En) as Px. pose proof scored_max as Pmax.
  destruct (flt (score x) m0) eqn:Elt.
  2:{ apply Hkeep. intros x' Hx'. now injection Hx' as <-. }
  right. exists n, x.
  destruct Hinv as [(H1 & H2 & H3)|(b & xb & Hb & H1 & H2 & H3 & H4 & H5)];
    simpl in *; subst m0.
  - split; [lia|]. split; [reflexivity|]. split; [assumption|]. split; [reflexivity|].
    split; [assumption|].
    intros j x' Hj Hs.
    destruct (decide (j = n)) as [->|].
    + rewrite En in Hs. injection Hs as <-. split; [now apply flt_irrefl|lia].
    + pose proof (H3 j x' ltac:(lia) Hs) as Hj'.
      pose proof (scored_ready j x' Hs) as Px'.
      split; [|intros _; now apply (flt_lt_nlt _ FLT_MAX)].
      apply (Hneg _ FLT_MAX); [assumption..|now apply Hasym].
  - pose proof (scored_ready b xb H2) as Pb.
    split; [lia|]. split; [reflexivity|]. split; [assumption|]. split; [reflexivity|].
    split; [now apply (flt_trans _ (score xb))|].
    intros j x' Hj Hs.
    destruct (decide (j = n)) as [->|].
    + rewrite En in Hs. injection Hs as <-. split; [now apply flt_irrefl|lia].
    + destruct (H5 j x' ltac:(lia) Hs) as [Hj' _].
      pose proof (scored_ready j x' Hs) as Px'.
      assert (Hlt : flt (score x) (score x') = true)
        by now apply (flt_lt_nlt _ (score xb)).
      split; [now apply Hasym|auto].
Qed.

Lemma float_inv_loop n :
  float_inv snap score n
    (fold_left (float_loop_body snap score) (seq 0 n) (-1, FLT_MAX)).
Proof.
  induction n as [|n IH].
  - left. simpl. repeat split; auto. intros; lia.
  - rewrite seq_S, fold_left_app. simpl. now apply float_inv_step.
Qed.

End FloatOrder.

Lemma float_loop_selects_least {S : Type} (f : LaneProcess -> S) score ls :
  length ls = NUM_LANES ->
  float_order_on (ready_scores f score ls) ->
  selects_least f score ls
    (fst (fold_left (float_loop_body ((fun l => (state l, f l)) <$> ls) score)
                    (seq 0 NUM_LANES) (-1, FLT_MAX))).
Proof.
  intros Hlen Hord.
  set (snap := (fun l => (state l, f l)) <$> ls).
  assert (Hsnap : forall j x, snap !! j = Some (READY, x) ->
            exists l, ls !! j = Some l /\ state l = READY /\ f l = x).
  { intros j x Hj. unfold snap in Hj. rewrite list_lookup_fmap in Hj.
    destruct (ls !! j) as [l|]; simpl in Hj; [|discriminate].
    injection Hj as <- <-. now exists l. }
  assert (Hsnap' : forall j l, ls !! j = Some l -> state l = READY ->
            snap !! j = Some (READY, f l)).
  { intros j l Hj Hs. unfold snap. rewrite list_lookup_fmap, Hj. simpl. now rewrite Hs. }
  assert (Hsub : forall y, snap_scores snap score y -> ready_scores f score ls y).
  { intros y [->|(j & x & Hj & ->)]; [now left|right].
    destruct (Hsnap j x Hj) as (l & Hl & Hs & <-).
    exists l. split; [eapply list_elem_of_lookup_2; eauto|auto]. }
  assert (Hord' : float_order_on (snap_scores snap score)).
  { destruct Hord as [Hasym Hneg]. split.
    - intros a b Pa Pb. apply Hasym; auto.
    - intros a b c Pa Pb Pc. apply Hneg; auto. }
  pose proof (float_inv_loop snap score Hord' NUM_LANES) as Hinv.
  set (v := fold_left (float_loop_body snap score) (seq 0 NUM_LANES) (-1, FLT_MAX)) in *.
  split.
  - destruct Hinv as [(H1 & _ & H3)|(b & x & Hb & H1 & H2 & _ & H4 & _)].
    + split; [|auto]. intros _ l Hl Hs.
      apply list_elem_of_lookup in Hl as [j Hj].
      apply (H3 j (f l)); auto.
      apply lookup_lt_Some in Hj. now rewrite Hlen in Hj.
    + split; [lia|]. intros Hno. exfalso.
      destruct (Hsnap _ _ H2) as (l & Hl & Hs & Hx).
      rewrite <- Hx in H4.
      rewrite (Hno l) in H4;
        [discriminate|eapply list_elem_of_lookup_2; eauto|assumption].
  - destruct Hinv as [(H1 & _)|(b & x & Hb & H1 & H2 & _ & _ & H5)]; [congruence|].
    intros _. destruct (Hsnap _ _ H2) as (l & Hl & Hs & Hx).
    exists b, l.
    split; [assumption|]. split; [assumption|]. split; [assumption|].
    intros j l' Hj Hs'.
    assert (Hjn : (j < NUM_LANES)%nat).
    { apply lookup_lt_Some in Hj. now rewrite Hlen in Hj. }
    rewrite Hx. exact (H5 j _ Hjn (Hsnap' _ _ Hj Hs')).
Qed.

(** The order can be checked on the list of the scores. *)
Lemma float_order_check_sound (vals : list float) :
  float_order_check vals = true -> float_order_on (fun y => In y vals).
Proof.
  unfold float_order_check. intros Hcheck.
  assert (H : forall a b, In a vals -> In b vals ->
            (flt a b = true -> flt b a = false) /\
            (forall c, In c vals ->
               flt a b = false -> flt b c = false -> flt a c = false)).
  { intros a b Ha Hb.
    rewrite forallb_forall in Hcheck. specialize (Hcheck a Ha).
    rewrite forallb_forall in Hcheck. specialize (Hcheck b Hb).
    apply andb_true_iff in Hcheck as [H1 H2]. split.
    - intros Hab. rewrite Hab in H1. simpl in H1. now apply negb_true_iff in H1.
    - intros c Hc Hab Hbc. rewrite forallb_forall in H2. specialize (H2 c Hc).
      rewrite Hab, Hbc in H2. simpl in H2. now apply negb_true_iff in H2. }
  split.
  - intros a b Pa Pb. now apply H.
  - intros a b c Pa Pb Pc. now apply (H a b).
Qed.

Lemma ready_scores_listed {S : Type} (f : LaneProcess -> S) score ls y :
  ready_scores f score ls y -> In y (ready_score_list f score ls).
Proof.
  unfold ready_score_list. intros [->|(l & Hl & Hs & ->)]; [now left|right].
  apply in_map_iff. exists l. split; [reflexivity|].
  apply list_elem_of_In, list_elem_of_filter. auto.
Qed.

Lemma float_order_on_ready_scores {S : Type} (f : LaneProcess -> S) score ls :
  float_order_check (ready_score_list f score ls) = true ->
  float_order_on (ready_scores f score ls).
Proof.
  intros Hcheck. destruct (float_order_check_sound _ Hcheck) as [Hasym Hneg].
  split.
  - intros a b Pa Pb. apply Hasym; now apply ready_scores_listed.
  - intros a b c Pa Pb Pc. apply Hneg; now apply ready_scores_listed.
Qed.



(** * Further properties of the scheduler core (main.c) *)

(** ** The execution history *)

Lemma set_scheduler_same w : set_scheduler (scheduler w) w = w.
Proof. now destruct w. Qed.

Lemma record_execution_run a b c d w :
  holds scheduler_lock (held w) = false ->
  history_ok (scheduler w) ->
  record_execution a b c d w =
  Done tt (if holds scheduler_lock (busy w) then w
           else set_scheduler (store_record a b c d (scheduler w)) w).
Proof.
  intros Hh Hok. unfold record_execution, store_record.
  unfold bind at 1. unfold get_scheduler at 1.
  unfold history_ok in Hok.
  destruct (execution_history (scheduler w)) as [h|] eqn:Eh.
  2:{ unfold ret. destruct (holds scheduler_lock (busy w)); [reflexivity|].
      now rewrite set_scheduler_same. }
  destruct Hok as (Hsize & Hidx & Hmax).
  unfold bind at 1. unfold trylock. rewrite Hh. simpl orb.
  destruct (holds scheduler_lock (busy w)); [reflexivity|]. simpl when.
  unfold bind at 1. unfold get_scheduler at 1. simpl scheduler. rewrite Eh.
  destruct (Z.leb_spec 0 (history_index (scheduler w))); [|lia].
  destruct (Nat.ltb_spec (Z.to_nat (history_index (scheduler w))) (length h)); [|lia].
  simpl andb. cbv iota.
  unfold bind, modify_scheduler, unlock, modify. simpl.
  rewrite release_just_locked by assumption. reflexivity.
Qed.

Lemma store_record_history_ok a b c d s :
  history_ok s -> history_ok (store_record a b c d s).
Proof.
  unfold history_ok, store_record.
  destruct (execution_history s) as [h|] eqn:Eh; [|now rewrite Eh].
  intros (Hsize & Hidx & Hmax). simpl. rewrite length_insert.
  split; [assumption|]. split; [|assumption].
  rewrite wrap_int_id by (unfold in_int_range, INT_MIN, INT_MAX in *; lia).
  rewrite Z.rem_mod_nonneg by lia. apply Z.mod_pos_bound. lia.
Qed.

Lemma store_record_index a b c d s :
  history_ok s -> execution_history s <> None ->
  history_index (store_record a b c d s) = (history_index s + 1) mod history_size s.
Proof.
  unfold history_ok, store_record.
  destruct (execution_history s) as [h|] eqn:Eh; [|congruence].
  intros (Hsize & Hidx & Hmax) _. simpl.
  rewrite wrap_int_id by (unfold in_int_range, INT_MIN, INT_MAX in *; lia).
  apply Z.rem_mod_nonneg; lia.
Qed.

Lemma ring_slots_differ idx d size :
  0 <= idx < size -> 0 < d < size -> (idx + d) mod size <> idx.
Proof.
  intros Hidx Hd. destruct (Z_lt_dec (idx + d) size).
  - rewrite Z.mod_small by lia. lia.
  - rewrite <- (Z.mod_unique_pos (idx + d) size 1 (idx + d - size)) by lia. lia.
Qed.

Lemma ring_slot_shift idx k size :
  0 < size -> ((idx + 1) mod size + k) mod size = (idx + (k + 1)) mod size.
Proof.
  intros Hs. rewrite Z.add_mod_idemp_l by lia. f_equal. lia.
Qed.

(** X9.  The execution history is a ring buffer: successive calls of
    [record_execution] store their records, with the duration computed, in
    successive slots modulo [history_size], so that the buffer keeps the
    last [history_size] records.  [get_execution_history] reports as count
    the index of the next slot, that is the number of records stored modulo
    [history_size]: 0 again after [history_size] records. *)
Theorem execution_history_is_ring (w : World) (rs h : list ExecutionRecord) :
  holds scheduler_lock (held w) = false ->
  holds scheduler_lock (busy w) = false ->
  history_ok (scheduler w) ->
  execution_history (scheduler w) = Some h ->
  exists w' h',
    record_all rs w = Done tt w' /\
    execution_history (scheduler w') = Some h' /\ length h' = length h /\
    history_size (scheduler w') = history_size (scheduler w) /\
    history_index (scheduler w') =
      (history_index (scheduler w) + Z.of_nat (length rs)) mod history_size (scheduler w) /\
    (forall k r, rs !! k = Some r -> (length rs <= k + length h)%nat ->
       h' !! Z.to_nat ((history_index (scheduler w) + Z.of_nat k)
                       mod history_size (scheduler w)) = Some (as_recorded r)) /\
    (forall j, (forall k, (k < length rs)%nat ->
                  j <> Z.to_nat ((history_index (scheduler w) + Z.of_nat k)
                                 mod history_size (scheduler w))) ->
       h' !! j = h !! j) /\
    get_execution_history w' = Done (Some h', history_index (scheduler w')) w'.
Proof.
  revert w h. induction rs as [|r rest IH]; intros w h Hh Hb Hok Eh.
  - exists w, h. simpl.
    pose proof Hok as Hok'. unfold history_ok in Hok'. rewrite Eh in Hok'.
    destruct Hok' as (Hsize & Hidx & Hmax).
    split; [reflexivity|]. split; [assumption|]. split; [reflexivity|].
    split; [reflexivity|].
    split; [rewrite Z.add_0_r, Z.mod_small by lia; reflexivity|].
    split; [intros k r Hk; discriminate|]. split; [reflexivity|].
    unfold get_execution_history, bind, trylock. rewrite Hh, Hb. simpl.
    rewrite release_just_locked by assumption.
    destruct (Z.ltb_spec (history_index (scheduler w)) (history_size (scheduler w)));
      [|lia].
    unfold ret. rewrite Eh. f_equal. now destruct w.
  - pose proof Hok as Hok'. unfold history_ok in Hok'. rewrite Eh in Hok'.
    destruct Hok' as (Hsize & Hidx & Hmax).
    simpl record_all.
    rewrite (bind_Done _ _ _ _ _ (record_execution_run _ _ _ _ w Hh Hok)).
    rewrite Hb.
    set (s1 := store_record (er_lane_id r) (er_start_time r) (er_end_time r)
                 (er_vehicles_processed r) (scheduler w)).
    set (w1 := set_scheduler s1 w).
    set (h1 := <[Z.to_nat (history_index (scheduler w)) := as_recorded r]> h).
    assert (Eh1 : execution_history (scheduler w1) = Some h1).
    { unfold w1, s1, store_record. simpl. rewrite Eh. reflexivity. }
    assert (Hsz1 : history_size (scheduler w1) = history_size (scheduler w)).
    { unfold w1, s1, store_record. simpl. rewrite Eh. reflexivity. }
    assert (Hidx1 : history_index (scheduler w1) =
                    (history_index (scheduler w) + 1) mod history_size (scheduler w)).
    { unfold w1. simpl. apply store_record_index; [assumption|congruence]. }
    destruct (IH w1 h1) as (w' & h' & E & Eh' & Hlen' & Hsz' & Hidx' & Hslots & Hframe & Hget).
    { exact Hh. } { exact Hb. }
    { unfold w1. simpl. now apply store_record_history_ok. }
    { exact Eh1. }
    exists w', h'. split; [exact E|]. split; [exact Eh'|].
    split; [unfold h1 in Hlen'; now rewrite length_insert in Hlen'|].
    split; [congruence|].
    split.
    { rewrite Hidx', Hsz1, Hidx1. simpl length.
      rewrite Z.add_mod_idemp_l by lia. f_equal. lia. }
    split; [|split; [|exact Hget]].
    + intros [|k] r' Hk Hfit; simpl in Hk, Hfit.
      * injection Hk as <-. rewrite Z.add_0_r, Z.mod_small by lia.
        rewrite Hframe.
        { unfold h1. apply list_lookup_insert_eq. lia. }
        intros k Hk. rewrite Hsz1, Hidx1, ring_slot_shift by lia.
        intros Habs. apply Z2Nat.inj in Habs; [|lia|apply Z.mod_pos_bound; lia].
        symmetry in Habs. revert Habs. apply ring_slots_differ; lia.
      * rewrite <- (Hslots k r' Hk).
        2:{ unfold h1. rewrite length_insert. lia. }
        rewrite Hsz1, Hidx1, ring_slot_shift by lia. do 3 f_equal. lia.
    + intros j Hj. rewrite Hframe.
      * unfold h1. apply list_lookup_insert_ne.
        specialize (Hj 0%nat ltac:(simpl; lia)).
        rewrite Z.add_0_r, Z.mod_small in Hj by lia. congruence.
      * intros k Hk. rewrite Hsz1, Hidx1, ring_slot_shift by lia.
        specialize (Hj (S k) ltac:(simpl; lia)).
        replace (Z.of_nat k + 1) with (Z.of_nat (S k)) by lia. exact Hj.
Qed.

(** ** The scheduler lock is busy *)

Lemma trylock_busy m w :
  holds m (held w) || holds m (busy w) = true -> trylock m w = Done false w.
Proof. intros H. unfold trylock. now rewrite H. Qed.

(** X10.  While the scheduler lock is taken, every operation that guards
    its work with [pthread_mutex_trylock] gives up without notice: a change
    of algorithm is dropped (and the key that asked for it is still reported
    as handled), an execution record is lost, the ready queue is neither fed
    nor drained, and the queries answer with their defaults whatever the
    scheduler holds: algorithm SJF, 0 records, overhead 0, ready queue
    empty. *)
Theorem scheduler_operations_skip_when_busy (w : World) :
  holds scheduler_lock (held w) || holds scheduler_lock (busy w) = true ->
  (forall a, set_scheduling_algorithm a w = Done tt w) /\
  get_scheduling_algorithm w = Done SJF w /\
  (forall a b c d, record_execution a b c d w = Done tt w) /\
  get_execution_history w = Done (execution_history (scheduler w), 0) w /\
  calculate_context_switch_overhead w = Done 0 w /\
  (forall lane, add_lane_to_ready_queue lane w = Done tt w) /\
  (forall lane, remove_lane_from_ready_queue lane w = Done tt w) /\
  get_ready_queue_size w = Done 0 w /\
  is_ready_queue_empty w = Done true w /\
  (show_help w = false ->
   forall ch, ch = key "1" \/ ch = key "2" \/ ch = key "3" ->
     handle_user_input ch w = Done ch w).
Proof.
  intros Hbusy. pose proof (trylock_busy scheduler_lock w Hbusy) as Htry.
  assert (Hset : forall a, set_scheduling_algorithm a w = Done tt w).
  { intros a. unfold set_scheduling_algorithm.
    now rewrite (bind_Done _ _ _ _ _ Htry). }
  assert (Hsize : get_ready_queue_size w = Done 0 w).
  { unfold get_ready_queue_size. now rewrite (bind_Done _ _ _ _ _ Htry). }
  split; [exact Hset|].
  split; [unfold get_scheduling_algorithm; now rewrite (bind_Done _ _ _ _ _ Htry)|].
  split.
  { intros a b c d. unfold record_execution, bind at 1, get_scheduler at 1.
    destruct (execution_history (scheduler w)); [|reflexivity].
    now rewrite (bind_Done _ _ _ _ _ Htry). }
  split; [unfold get_execution_history; now rewrite (bind_Done _ _ _ _ _ Htry)|].
  split; [unfold calculate_context_switch_overhead;
          now rewrite (bind_Done _ _ _ _ _ Htry)|].
  split; [intros lane; unfold add_lane_to_ready_queue;
          now rewrite (bind_Done _ _ _ _ _ Htry)|].
  split; [intros lane; unfold remove_lane_from_ready_queue;
          now rewrite (bind_Done _ _ _ _ _ Htry)|].
  split; [exact Hsize|].
  split; [unfold is_ready_queue_empty; now rewrite (bind_Done _ _ _ _ _ Hsize)|].
  intros Hhelp ch Hch. unfold handle_user_input, bind at 1, get at 1.
  rewrite Hhelp.
  destruct Hch as [-> | [-> | ->]]; simpl; now rewrite (bind_Done _ _ _ _ _ (Hset _)).
Qed.

(** ** validate_single_lane_running *)

Lemma flags_of_busy_lanes (g : nat -> LaneProcess -> bool) idxs :
  (forall i l, i ∈ idxs -> g i l = false) ->
  forall ls, filter (fun b => b = true) (zip_with g idxs ls) = [].
Proof.
  induction idxs as [|i idxs IH]; intros Hg [|l ls]; simpl; try reflexivity.
  rewrite filter_cons, Hg by (now left). rewrite decide_False by discriminate.
  apply IH. intros j l' Hj. apply Hg. now right.
Qed.

(** X11.  [validate_single_lane_running] changes nothing and looks only at
    the lanes whose lock it can take: it never raises a false alarm (it
    answers false only if two lanes are RUNNING); with every lane lock free
    it answers true exactly when at most one lane is RUNNING; with every
    lane lock taken by other threads it answers true whatever the lanes
    are. *)
Theorem validate_single_lane_running_sees_free_lanes (w : World) :
  length (lanes w) = NUM_LANES ->
  (forall i, holds (queue_lock i) (held w) = false) ->
  exists b,
    validate_single_lane_running w = Done b w /\
    (b = false -> (2 <= running_count (lanes w))%nat) /\
    ((forall i, (i < NUM_LANES)%nat -> holds (queue_lock i) (busy w) = false) ->
     (b = true <-> (running_count (lanes w) <= 1)%nat)) /\
    ((forall i, (i < NUM_LANES)%nat -> holds (queue_lock i) (busy w) = true) ->
     b = true).
Proof.
  intros Hlen Hfree. unfold validate_single_lane_running, for_lanes.
  set (g := fun (i : nat) (l : LaneProcess) =>
              if holds (queue_lock i) (busy w) then false
              else LaneState_eqb (state l) RUNNING).
  erewrite bind_Done.
  2:{ apply (indexed_snapshot_loop g); [|rewrite Hlen; lia].
      intros i l Hl. unfold bind, trylock, g. rewrite Hfree. simpl.
      destruct (holds (queue_lock i) (busy w)); [reflexivity|].
      unfold get_lane, unlock, modify, ret. simpl. rewrite Hl. simpl.
      rewrite release_just_locked by auto. now destruct w. }
  assert (Htake : take NUM_LANES (drop 0 (lanes w)) = lanes w).
  { rewrite drop_0, <- Hlen. apply firstn_all. }
  rewrite Htake.
  set (flags := zip_with g (seq 0 NUM_LANES) (lanes w)).
  assert (Hle : (length (filter (fun b => b = true) flags) <= running_count (lanes w))%nat).
  { apply flagged_running_count. intros i l. unfold g.
    destruct (holds _ _); [discriminate|apply LaneState_eqb_eq]. }
  assert (Hret : forall c : bool,
            (if c then ret false else ret true) w = Done (negb c) w)
    by (intros []; reflexivity).
  rewrite Hret. eexists. split; [reflexivity|].
  split; [|split].
  - intros Hb. apply negb_false_iff in Hb. apply Z.ltb_lt in Hb. lia.
  - intros Hnobusy.
    assert (Hcount : length (filter (fun b => b = true) flags) = running_count (lanes w)).
    { apply flags_of_free_lanes; [|now rewrite length_seq].
      intros i l Hi. apply elem_of_seq in Hi. unfold g. rewrite Hnobusy by lia.
      reflexivity. }
    rewrite Hcount. rewrite negb_true_iff, Z.ltb_ge. lia.
  - intros Hallbusy.
    assert (Hnone : filter (fun b => b = true) flags = []).
    { apply flags_of_busy_lanes. intros i l Hi. apply elem_of_seq in Hi.
      unfold g. rewrite Hallbusy by lia. reflexivity. }
    rewrite Hnone. reflexivity.
Qed.

(** ** A scheduling decision that switches nothing *)

Lemma sjf_select_none now ls :
  (forall l, l ∈ ls -> state l <> READY) -> sjf_select now ls = -1.
Proof.
  intros Hno. unfold sjf_select.
  destruct (ready_only_loop sjf_best_lane
              (sjf_loop_body ((fun l => (state l, queue_length l, last_arrival_time l)) <$> ls))
              ls) with (n := NUM_LANES) (v0 := mkSjf (-1) INT_MAX now)
    as [E|(i & l & E & Hl & Hs)].
  - intros v i. unfold sjf_loop_body. rewrite list_lookup_fmap.
    destruct (ls !! i) as [l|] eqn:El; simpl; [|now left].
    destruct (state l) eqn:Es; try (now left).
    repeat match goal with |- context [if ?c then _ else _] => destruct c end;
      simpl; auto; right; split; auto; now exists l.
  - reflexivity.
  - exact E.
  - exfalso. apply (Hno l); [eapply list_elem_of_lookup_2; eauto|assumption].
Qed.

(** X12.  Under SJF a lane that is RUNNING is no candidate: when no lane is
    READY, [process_traffic_events] selects none, runs no time slice and
    leaves every lane as it is, so the vehicles queued in the RUNNING lane
    wait until some other lane becomes READY.  Only the scheduler's
    [last_schedule_time] is written. *)
Theorem sjf_serves_nobody_without_ready_lane (w : World) :
  held w = [] ->
  length (lanes w) = NUM_LANES ->
  algorithm (scheduler w) = SJF ->
  is_lane_or_none (current_lane (scheduler w)) ->
  (forall l, l ∈ lanes w -> state l <> READY) ->
  schedule_next_lane w =
    Done (-1) (set_scheduler (set_last_schedule_time (clock w) (scheduler w)) w) /\
  process_traffic_events w =
    Done tt (set_scheduler (set_last_schedule_time (clock w) (scheduler w)) w).
Proof.
  intros Hheld Hlen Halg Hcur Hno.
  assert (Hsel : selected_lane w = -1).
  { unfold selected_lane. rewrite Halg. now apply sjf_select_none. }
  assert (Hrun : schedule_next_lane w =
            Done (-1) (set_scheduler (set_last_schedule_time (clock w) (scheduler w)) w)).
  { rewrite (schedule_next_lane_run w Hheld Hlen); [|rewrite Hsel; now left|exact Hcur].
    rewrite Hsel. unfold after_schedule. rewrite Hsel. simpl.
    now rewrite andb_false_r. }
  split; [exact Hrun|].
  unfold process_traffic_events. now rewrite (bind_Done _ _ _ _ _ Hrun).
Qed.

(** ** A change of algorithm *)

Lemma drain_all q : drain (length (items q)) q = mkQueue [] (capacity q).
Proof.
  destruct q as [its cap]. simpl. induction its as [|v rest IH]; simpl.
  - reflexivity.
  - unfold is_empty, get_size. simpl length.
    destruct (Z.eqb_spec (Z.of_nat (S (length rest))) 0); [lia|].
    exact IH.
Qed.

Lemma demote_prefix_step k l ls :
  ls !! k = Some l ->
  <[k := demote l]> ((demote <$> take k ls) ++ drop k ls)
  = (demote <$> take (S k) ls) ++ drop (S k) ls.
Proof.
  intros Hl. assert (Hk : (k < length ls)%nat) by now apply lookup_lt_Some in Hl.
  rewrite insert_app_r_alt by (rewrite length_fmap, length_take; lia).
  rewrite length_fmap, length_take, Nat.min_l, Nat.sub_diag by lia.
  rewrite (drop_S _ _ _ Hl). simpl.
  rewrite (take_S_r _ _ _ Hl), fmap_app, <- app_assoc. reflexivity.
Qed.

(** X13.  A change of algorithm that obtains the scheduler lock installs
    the algorithm and forgets the current lane.  While the simulation runs
    it also stops every lane (a RUNNING lane becomes READY if its cached
    length is positive, WAITING otherwise; nothing else changes in any
    lane) and empties the ready queue; when the simulation does not run the
    lanes are left alone, a RUNNING lane included. *)
Theorem set_scheduling_algorithm_resets (w : World) (a : SchedulingAlgorithm) :
  held w = [] ->
  length (lanes w) = NUM_LANES ->
  holds scheduler_lock (busy w) = false ->
  exists w',
    set_scheduling_algorithm a w = Done tt w' /\
    w' = after_algorithm_change a w /\
    algorithm (scheduler w') = a /\
    current_lane (scheduler w') = -1 /\
    (simulation_running w = true ->
     items (ready_queue (scheduler w')) = [] /\
     forall i l, lanes w !! i = Some l ->
       exists l', lanes w' !! i = Some l' /\
         state l' <> RUNNING /\
         (state l <> RUNNING -> l' = l) /\
         (state l = RUNNING ->
          l' = set_state (if 0 <? queue_length l then READY else WAITING) l)) /\
    (simulation_running w = false ->
     lanes w' = lanes w /\
     ready_queue (scheduler w') = ready_queue (scheduler w)).
Proof.
  intros Hheld Hlen Hbusy.
  assert (Hrun : set_scheduling_algorithm a w = Done tt (after_algorithm_change a w)).
  { cut (wp (set_scheduling_algorithm a)
            (fun _ w' => w' = after_algorithm_change a w) w).
    { intros H. apply wp_elim in H as ([] & w' & E & ->). exact E. }
    unfold set_scheduling_algorithm.
    apply wp_bind, wp_trylock; [now rewrite Hheld|congruence|intros _]. simpl when.
    unfold modify_scheduler.
    apply wp_bind, wp_modify, wp_bind, wp_modify, wp_bind. unfold get at 1. unfold wp at 1.
    cbv beta. simpl (simulation_running _).
    unfold after_algorithm_change.
    destruct (simulation_running w) eqn:Erun; simpl when.
    - apply wp_bind, wp_bind. unfold for_lanes.
      match goal with |- wp _ _ ?x => set (w0 := x) end.
      set (P := fun (k : nat) (w1 : World) =>
        w1 = set_lanes ((demote <$> take k (lanes w)) ++ drop k (lanes w)) w0).
      eapply wp_conseq.
      { apply (wp_for_each_seq P) with (s := 0%nat).
        - intros k wk Hk ->.
          destruct (lookup_lt_is_Some_2 (lanes w) k ltac:(rewrite Hlen; lia)) as [l Hl].
          eapply wp_run.
          + apply (stop_lane_section k l); simpl; [now rewrite Hheld|].
            rewrite lookup_app_r by (rewrite length_fmap, length_take; lia).
            rewrite length_fmap, length_take, Nat.min_l, Nat.sub_diag by lia.
            now rewrite lookup_drop, Nat.add_0_r.
          + unfold P. simpl. now rewrite demote_prefix_step.
        - unfold P. simpl. rewrite drop_0. subst w0. now destruct w. }
      intros xs w1 ->. simpl.
      apply wp_modify, wp_unlock. simpl. rewrite Hheld.
      rewrite release_just_locked by reflexivity.
      rewrite drain_all. simpl.
      rewrite <- Hlen, firstn_all, drop_all, app_nil_r.
      subst w0. destruct w. simpl in *. subst. reflexivity.
    - apply wp_bind, wp_ret, wp_unlock. simpl. rewrite Hheld.
      rewrite release_just_locked by reflexivity.
      destruct w. simpl in *. subst. reflexivity. }
  exists (after_algorithm_change a w). split; [exact Hrun|]. split; [reflexivity|].
  unfold after_algorithm_change.
  destruct (simulation_running w); simpl.
  - split; [reflexivity|]. split; [reflexivity|]. split; [|discriminate].
    intros _. split; [reflexivity|].
    intros i l Hl. exists (demote l).
    split; [now rewrite list_lookup_fmap, Hl|].
    split; [apply demote_not_running|].
    unfold demote. split.
    + intros Hs. apply LaneState_eqb_neq in Hs. now rewrite Hs.
    + intros Hs. apply LaneState_eqb_eq in Hs. rewrite Hs.
      now destruct (0 <? queue_length l).
  - split; [reflexivity|]. split; [reflexivity|]. split; [discriminate|].
    intros _. split; reflexivity.
Qed.

(** ** A time slice: metrics, clock and execution record *)

Lemma wp_record_execution_exact a b c d (Q : unit -> World -> Prop) w :
  holds scheduler_lock (held w) = false ->
  history_ok (scheduler w) ->
  Q tt (if holds scheduler_lock (busy w) then w
        else set_scheduler (store_record a b c d (scheduler w)) w) ->
  wp (record_execution a b c d) Q w.
Proof.
  intros Hh Hok HQ. eapply wp_run; [now apply record_execution_run|exact HQ].
Qed.

Lemma execute_lane_time_slice_run i tq l w :
  held w = [] ->
  lanes w !! i = Some l ->
  history_ok (scheduler w) ->
  execute_lane_time_slice i tq w = Done tt (after_time_slice i l w).
Proof.
  intros Hheld Hl Hok.
  assert (Hlt : (i < length (lanes w))%nat) by now apply lookup_lt_Some in Hl.
  cut (wp (execute_lane_time_slice i tq)
          (fun _ w' => w' = after_time_slice i l w) w).
  { intros H. apply wp_elim in H as ([] & w' & E & ->). exact E. }
  unfold execute_lane_time_slice.
  apply wp_bind, wp_time_now.
  apply wp_bind, wp_lock; [now rewrite Hheld|].
  apply wp_bind, wp_lock; [simpl; now rewrite Hheld|].
  eapply wp_bind, wp_remove_vehicle_from_lane_unlocked; [exact Hl|].
  assert (Hl1 : forall xs : list LaneProcess, (i < length xs)%nat ->
                  <[i := after_dequeue l]> xs !! i = Some (after_dequeue l)).
  { intros xs Hxs. now apply list_lookup_insert_eq. }
  assert (Hfinish : forall n w1,
            lanes w1 = <[i := after_dequeue l]> (lanes w) ->
            held w1 = [queue_lock i; global_state_lock] ->
            scheduler w1 = scheduler w ->
            busy w1 = busy w ->
            wp (do end_time <- time_now;
                do l1 <- get_lane i;
                record_execution (lane_id l1) (clock w) end_time n >>
                do l2 <- get_lane i;
                when ((queue_length l2 =? 0) && LaneState_eqb (state l2) RUNNING)
                     (modify_lane i (set_state WAITING)) >>
                unlock (queue_lock i) >>
                unlock global_state_lock)
               (fun _ w' =>
                  w' = set_scheduler
                         (if holds scheduler_lock (busy w) then scheduler w
                          else store_record (lane_id l) (clock w) (clock w1) n (scheduler w))
                         (set_lanes (<[i := after_slice l]> (lanes w))
                            (set_held [] w1))) w1).
  { intros n w1 E1 H1 S1 B1.
    apply wp_bind, wp_time_now.
    eapply wp_bind, wp_get_lane; [rewrite E1; now apply Hl1|].
    apply wp_bind, wp_record_execution_exact; [now rewrite H1|now rewrite S1|].
    change (lane_id (after_dequeue l)) with (lane_id l).
    rewrite B1, S1.
    set (s' := if holds scheduler_lock (busy w) then scheduler w else _).
    assert (Ew : (if holds scheduler_lock (busy w) then w1
                  else set_scheduler (store_record (lane_id l) (clock w) (clock w1) n
                                        (scheduler w)) w1)
                 = set_scheduler s' w1).
    { unfold s'. destruct (holds scheduler_lock (busy w)); [|reflexivity].
      rewrite <- S1. now destruct w1. }
    rewrite Ew. clear Ew.
    eapply wp_bind, wp_get_lane; [simpl; rewrite E1; now apply Hl1|].
    unfold after_slice.
    destruct ((queue_length (after_dequeue l) =? 0)
              && LaneState_eqb (state (after_dequeue l)) RUNNING); simpl when.
    - eapply wp_bind, wp_modify_lane; [simpl; rewrite E1; now apply Hl1|].
      apply wp_bind, wp_unlock, wp_unlock. simpl.
      rewrite H1, E1, list_insert_insert_eq.
      rewrite !release_just_locked by reflexivity. reflexivity.
    - apply wp_bind, wp_ret, wp_bind, wp_unlock, wp_unlock. simpl.
      rewrite H1, <- E1.
      rewrite !release_just_locked by reflexivity. now destruct w1. }
  unfold after_time_slice, serves.
  destruct (negb (fst (dequeue (queue l)) =? -1)).
  - apply wp_bind, wp_bind, wp_time_now.
    eapply wp_bind, wp_get_lane; [simpl; now apply Hl1|].
    apply wp_bind, wp_modify, wp_bind, wp_unlock, wp_bind, wp_unlock.
    apply wp_bind, wp_rand, wp_bind, wp_usleep.
    apply wp_bind, wp_lock;
      [simpl; rewrite Hheld, !release_just_locked by reflexivity; reflexivity|].
    apply wp_bind, wp_lock;
      [simpl; rewrite Hheld, !release_just_locked by reflexivity; reflexivity|].
    apply wp_ret. eapply wp_conseq.
    { apply Hfinish; simpl; auto.
      rewrite Hheld. now rewrite !release_just_locked by reflexivity. }
    intros _ w' ->. simpl. unfold slice_wait, slice_delay.
    destruct w. simpl in *. subst. reflexivity.
  - apply wp_bind, wp_ret. eapply wp_conseq.
    { apply Hfinish; simpl; auto. now rewrite Hheld. }
    intros _ w' ->. simpl.
    destruct w. simpl in *. subst. reflexivity.
Qed.

Lemma slice_delay_bounds w : 2000000 <= slice_delay w < 4000000.
Proof.
  unfold slice_delay.
  pose proof (Z.rem_bound_pos (Z.abs (rand_src w 0%nat)) 2000000
                ltac:(lia) ltac:(lia)) as Hr.
  lia.
Qed.


(** ** The ready queue *)

(** X15.  The ready queue is fed with lane ids but drained from the front
    whatever lane is named: adding lane [a], adding lane [b] and then
    removing lane [b] from an empty ready queue leaves the id of [b] in
    it.  [get_ready_queue_size] and [is_ready_queue_empty] then report one
    entry. *)
Theorem remove_lane_from_ready_queue_takes_front (w : World) (a b : nat)
    (la lb : LaneProcess) :
  holds scheduler_lock (held w) = false ->
  holds scheduler_lock (busy w) = false ->
  lanes w !! a = Some la ->
  lanes w !! b = Some lb ->
  items (ready_queue (scheduler w)) = [] ->
  2 <= capacity (ready_queue (scheduler w)) ->
  exists w',
    (add_lane_to_ready_queue a >> add_lane_to_ready_queue b >>
     remove_lane_from_ready_queue b) w = Done tt w' /\
    items (ready_queue (scheduler w')) = [lane_id lb] /\
    lanes w' = lanes w /\ held w' = held w /\
    get_ready_queue_size w' = Done 1 w' /\
    is_ready_queue_empty w' = Done false w'.
Proof.
  intros Hh Hb Hla Hlb Hempty Hcap.
  assert (Hadd : forall i li w0 xs,
            holds scheduler_lock (held w0) = false ->
            holds scheduler_lock (busy w0) = false ->
            lanes w0 !! i = Some li ->
            items (ready_queue (scheduler w0)) = xs ->
            Z.of_nat (length xs) < capacity (ready_queue (scheduler w0)) ->
            add_lane_to_ready_queue i w0 =
            Done tt (set_scheduler
                       (set_ready_queue
                          (mkQueue (xs ++ [lane_id li])
                                   (capacity (ready_queue (scheduler w0))))
                          (scheduler w0)) w0)).
  { intros i li w0 xs Hh0 Hb0 Hli Hxs Hroom. unfold add_lane_to_ready_queue.
    unfold bind at 1. unfold trylock. rewrite Hh0, Hb0. simpl.
    rewrite (bind_Done _ _ _ _ _
               (get_lane_run i li (set_held (scheduler_lock :: held w0) w0) Hli)).
    unfold bind, modify_scheduler, unlock, modify. simpl.
    rewrite release_just_locked by assumption.
    rewrite enqueue_room by (unfold get_size; now rewrite Hxs).
    simpl. rewrite Hxs. reflexivity. }
  rewrite (bind_Done _ _ _ _ _ (Hadd a la w [] Hh Hb Hla Hempty ltac:(simpl; lia))).
  erewrite bind_Done.
  2:{ apply (Hadd b lb _ [lane_id la]); simpl; auto. lia. }
  simpl.
  unfold remove_lane_from_ready_queue, bind, trylock. simpl. rewrite Hh, Hb. simpl.
  unfold modify_scheduler, unlock, modify. simpl.
  rewrite release_just_locked by assumption.
  eexists. split; [reflexivity|]. simpl.
  split; [reflexivity|]. split; [reflexivity|]. split; [reflexivity|].
  unfold is_ready_queue_empty, get_ready_queue_size, bind, trylock. simpl.
  rewrite Hh, Hb. simpl. unfold unlock, modify. simpl.
  rewrite release_just_locked by assumption.
  split; reflexivity.
Qed.

(** * Further properties of the driver (main.c) *)

(** ** The vehicle generator *)

Lemma generator_lane_in_range w : (generator_lane w < NUM_LANES)%nat.
Proof.
  unfold generator_lane.
  pose proof (Z.rem_bound_pos (Z.abs (rand_src w 2%nat)) (Z.of_nat NUM_LANES)
                ltac:(lia) ltac:(unfold NUM_LANES; lia)).
  lia.
Qed.

Lemma wake_section i l w :
  holds (queue_lock i) (held w) = false ->
  lanes w !! i = Some l ->
  (lock (queue_lock i) >>
   do l <- get_lane i;
   when (LaneState_eqb (state l) WAITING)
        (modify_lane i (set_state READY) >>
         modify_lane i (set_waiting_time 0)) >>
   unlock (queue_lock i)) w
  = Done tt (set_lanes (<[i := wake l]> (lanes w)) w).
Proof.
  intros Hh Hl.
  apply (update_lane_locked wake
           (fun l => when (LaneState_eqb (state l) WAITING)
                       (modify_lane i (set_state READY) >>
                        modify_lane i (set_waiting_time 0)))); auto.
  intros w1 E1. assert (Hl1 : lanes w1 !! i = Some l) by now rewrite E1.
  unfold wake. destruct (LaneState_eqb (state l) WAITING); simpl.
  - rewrite (bind_Done _ _ _ _ _ (modify_lane_run _ _ _ _ Hl1)).
    erewrite modify_lane_run.
    2:{ simpl. apply list_lookup_insert_eq. now apply lookup_lt_Some in Hl1. }
    simpl. now rewrite list_insert_insert_eq.
  - unfold ret. now rewrite set_lanes_insert_same.
Qed.

Lemma add_vehicle_to_lane_arrival i v l w :
  holds (queue_lock i) (held w) = false ->
  lanes w !! i = Some l ->
  add_vehicle_to_lane i v w =
  Done tt (set_lanes (<[i := arrival v (clock w) l]> (lanes w)) w).
Proof.
  intros Hh Hl. rewrite (add_vehicle_to_lane_run i v l w Hh Hl). unfold arrival.
  destruct (fst (enqueue (queue l) v)); [reflexivity|].
  now rewrite set_lanes_insert_same.
Qed.

Lemma vehicle_generator_iteration_run w l :
  held w = [] ->
  length (lanes w) = NUM_LANES ->
  lanes w !! generator_lane w = Some l ->
  vehicle_generator_iteration w =
  Done tt (if simulation_paused w then elapse 500000 w else after_generator_tick l w).
Proof.
  intros Hheld Hlen Hl. unfold vehicle_generator_iteration.
  unfold bind at 1. unfold get at 1.
  destruct (simulation_paused w) eqn:Hp; simpl negb; cbv iota.
  { reflexivity. }
  cut (wp (do r1 <- rand;
           do r2 <- rand;
           do r3 <- rand;
           do lane <- lane_index (Z.rem r3 (Z.of_nat NUM_LANES));
           lock global_state_lock >>
           do w1 <- get;
           modify (set_total_vehicles_generated
                     (wrap_int (total_vehicles_generated w1 + 1))) >>
           unlock global_state_lock >>
           add_vehicle_to_lane lane (total_vehicles_generated w1) >>
           do r4 <- rand;
           when (Z.rem r4 EMERGENCY_PROBABILITY =? 0)
                (modify (fun w0 =>
                   set_emergency_system
                     (add_random_emergency (emergency_system w0)
                        (Z.rem r3 (Z.of_nat NUM_LANES))) w0)) >>
           lock (queue_lock lane) >>
           do l0 <- get_lane lane;
           when (LaneState_eqb (state l0) WAITING)
                (modify_lane lane (set_state READY) >>
                 modify_lane lane (set_waiting_time 0)) >>
           unlock (queue_lock lane) >>
           usleep
             (wrap_int
                (wrap_int
                   (wrap_int
                      (Z.rem r1
                         (wrap_int
                            (max_arrival_rate w -
                             (if max_arrival_rate w <? min_arrival_rate w
                              then max_arrival_rate w else min_arrival_rate w) + 1))
                       + (if max_arrival_rate w <? min_arrival_rate w
                          then max_arrival_rate w else min_arrival_rate w))
                    * 1000000)
                 + wrap_int (Z.rem r2 1000 * 1000))))
          (fun _ w' => w' = after_generator_tick l w) w).
  { intros H. apply wp_elim in H as ([] & w' & E & ->). exact E. }
  apply wp_bind, wp_rand, wp_bind, wp_rand, wp_bind, wp_rand. simpl rand_src.
  pose proof (generator_lane_in_range w) as Hrange.
  assert (Hidx : 0 <= Z.rem (Z.abs (rand_src w 2%nat)) (Z.of_nat NUM_LANES)
                 < Z.of_nat NUM_LANES).
  { apply Z.rem_bound_pos; unfold NUM_LANES; lia. }
  apply wp_bind, wp_lane_index; [simpl; now rewrite Hlen|].
  fold (generator_lane w). set (i := generator_lane w) in *.
  apply wp_bind, wp_lock; [simpl; now rewrite Hheld|].
  apply wp_bind, wp_get, wp_bind, wp_modify, wp_bind, wp_unlock.
  eapply wp_bind, wp_run.
  { apply (add_vehicle_to_lane_arrival i _ l); simpl; [|exact Hl].
    rewrite Hheld. now rewrite release_just_locked by reflexivity. }
  simpl total_vehicles_generated. simpl clock. simpl lanes.
  apply wp_bind, wp_rand. simpl rand_src.
  set (l1 := arrival (total_vehicles_generated w) (clock w) l).
  assert (Hfin : forall w1,
            lanes w1 = <[i := l1]> (lanes w) -> held w1 = [] ->
            forall us,
            wp (lock (queue_lock i) >>
                do l0 <- get_lane i;
                when (LaneState_eqb (state l0) WAITING)
                     (modify_lane i (set_state READY) >>
                      modify_lane i (set_waiting_time 0)) >>
                unlock (queue_lock i) >>
                usleep us)
               (fun _ w' =>
                  w' = elapse us (set_lanes (<[i := wake l1]> (lanes w)) w1)) w1).
  { intros w1 E1 H1 us.
    assert (Hl1 : lanes w1 !! i = Some l1).
    { rewrite E1. apply list_lookup_insert_eq. now apply lookup_lt_Some in Hl. }
    pose proof (wake_section i l1 w1 ltac:(now rewrite H1) Hl1) as Hwake.
    unfold wp.
    match goal with |- match ?m w1 with _ => _ end =>
      replace (m w1) with
        (usleep us (set_lanes (<[i := wake l1]> (lanes w1)) w1)) end.
    - unfold usleep, modify. rewrite E1, list_insert_insert_eq. reflexivity.
    - revert Hwake. unfold bind.
      destruct (lock (queue_lock i) w1) as [[] w2| |]; try discriminate.
      destruct (get_lane i w2) as [l2 w3| |]; try discriminate.
      destruct (when _ _ w3) as [[] w4| |]; try discriminate.
      intros ->. reflexivity. }
  apply wp_bind.
  destruct (Z.rem (Z.abs (rand_src w 3%nat)) EMERGENCY_PROBABILITY =? 0) eqn:Ee;
    simpl when.
  - apply wp_modify. eapply wp_conseq.
    { apply Hfin; simpl; [reflexivity|].
      rewrite Hheld. now rewrite release_just_locked by reflexivity. }
    intros _ w' ->. unfold after_generator_tick, generator_sleep_us, generator_sleep_sec.
    rewrite Ee. fold i. fold l1. destruct w; simpl in *; subst; reflexivity.
  - apply wp_ret. eapply wp_conseq.
    { apply Hfin; simpl; [reflexivity|].
      rewrite Hheld. now rewrite release_just_locked by reflexivity. }
    intros _ w' ->. unfold after_generator_tick, generator_sleep_us, generator_sleep_sec.
    rewrite Ee. fold i. fold l1. destruct w; simpl in *; subst; reflexivity.
Qed.

(** X16.  An iteration of the vehicle generator (simulation not paused)
    counts its vehicle in [total_vehicles_generated] whether or not the lane
    has room for it: with room the vehicle, whose id is the previous count,
    is appended to the picked lane; on a full lane it is dropped and the
    queue stays as it was.  Either way the lane is woken: WAITING becomes
    READY with the waiting time reset, any other state is kept.  No other
    lane changes. *)
Theorem vehicle_generator_counts_every_vehicle (w : World) (l : LaneProcess) :
  held w = [] ->
  length (lanes w) = NUM_LANES ->
  simulation_paused w = false ->
  lanes w !! generator_lane w = Some l ->
  exists w' l',
    vehicle_generator_iteration w = Done tt w' /\
    total_vehicles_generated w' = wrap_int (total_vehicles_generated w + 1) /\
    lanes w' !! generator_lane w = Some l' /\
    state l' = (if LaneState_eqb (state l) WAITING then READY else state l) /\
    (state l = WAITING -> waiting_time l' = 0) /\
    (get_size (queue l) < capacity (queue l) ->
     items (queue l') = items (queue l) ++ [total_vehicles_generated w] /\
     queue_length l' = get_size (queue l') /\
     last_arrival_time l' = clock w) /\
    (capacity (queue l) <= get_size (queue l) ->
     queue l' = queue l /\ queue_length l' = queue_length l /\
     last_arrival_time l' = last_arrival_time l) /\
    (forall j, j <> generator_lane w -> lanes w' !! j = lanes w !! j).
Proof.
  intros Hheld Hlen Hp Hl.
  rewrite (vehicle_generator_iteration_run w l Hheld Hlen Hl), Hp.
  set (v := total_vehicles_generated w).
  exists (after_generator_tick l w), (wake (arrival v (clock w) l)).
  split; [reflexivity|]. split; [reflexivity|]. simpl.
  split; [apply list_lookup_insert_eq; now apply lookup_lt_Some in Hl|].
  assert (Hst : state (arrival v (clock w) l) = state l).
  { unfold arrival. now destruct (fst (enqueue _ _)). }
  split; [|split; [|split; [|split]]].
  - unfold wake. rewrite Hst. now destruct (LaneState_eqb (state l) WAITING) eqn:E.
  - intros Hs. unfold wake. rewrite Hst, Hs. reflexivity.
  - intros Hroom. unfold wake, arrival, lane_with_vehicle.
    rewrite enqueue_room by assumption. simpl.
    destruct (LaneState_eqb (state l) WAITING); simpl; auto.
  - intros Hfull. unfold wake, arrival.
    rewrite enqueue_full by assumption. simpl.
    destruct (LaneState_eqb (state l) WAITING); simpl; auto.
  - intros j Hj. apply list_lookup_insert_ne. congruence.
Qed.

(** X17.  With arrival rates between 0 and 2146 seconds (so that the
    microseconds fit a C [int]) the generator sleeps, after an arrival, a
    whole number of seconds between the smaller of the two rates and the
    maximum rate, plus [rand() % 1000] milliseconds: at least the smaller
    rate and less than a second more than the maximum rate.  The modulus
    max - min + 1 is at least 1 because the minimum is first lowered to the
    maximum when it exceeds it. *)
Theorem vehicle_generator_sleeps_between_rates (w : World) (l : LaneProcess) :
  held w = [] ->
  length (lanes w) = NUM_LANES ->
  simulation_paused w = false ->
  lanes w !! generator_lane w = Some l ->
  0 <= min_arrival_rate w ->
  0 <= max_arrival_rate w <= 2146 ->
  exists w',
    vehicle_generator_iteration w = Done tt w' /\
    now_us w' = now_us w + generator_sleep_us w /\
    generator_sleep_us w =
      generator_sleep_sec w * 1000000 + Z.rem (Z.abs (rand_src w 1%nat)) 1000 * 1000 /\
    Z.min (min_arrival_rate w) (max_arrival_rate w) <= generator_sleep_sec w
      <= max_arrival_rate w /\
    Z.min (min_arrival_rate w) (max_arrival_rate w) * 1000000 <= generator_sleep_us w
      <= max_arrival_rate w * 1000000 + 999000.
Proof.
  intros Hheld Hlen Hp Hl Hmin Hmax.
  rewrite (vehicle_generator_iteration_run w l Hheld Hlen Hl), Hp.
  exists (after_generator_tick l w). split; [reflexivity|].
  set (lo := if max_arrival_rate w <? min_arrival_rate w
             then max_arrival_rate w else min_arrival_rate w).
  assert (Hlo : lo = Z.min (min_arrival_rate w) (max_arrival_rate w)).
  { unfold lo. destruct (Z.ltb_spec (max_arrival_rate w) (min_arrival_rate w)); lia. }
  assert (Hmod : wrap_int (max_arrival_rate w - lo + 1) = max_arrival_rate w - lo + 1).
  { apply wrap_int_id. unfold in_int_range, INT_MIN, INT_MAX. lia. }
  pose proof (Z.rem_bound_pos (Z.abs (rand_src w 0%nat)) (max_arrival_rate w - lo + 1)
                ltac:(lia) ltac:(lia)) as Hr1.
  pose proof (Z.rem_bound_pos (Z.abs (rand_src w 1%nat)) 1000
                ltac:(lia) ltac:(lia)) as Hr2.
  assert (Hsec : generator_sleep_sec w =
                 Z.rem (Z.abs (rand_src w 0%nat)) (max_arrival_rate w - lo + 1) + lo).
  { unfold generator_sleep_sec. fold lo. rewrite Hmod.
    apply wrap_int_id. unfold in_int_range, INT_MIN, INT_MAX. lia. }
  assert (Hbounds : lo <= generator_sleep_sec w <= max_arrival_rate w) by lia.
  assert (Hus : generator_sleep_us w =
                generator_sleep_sec w * 1000000
                + Z.rem (Z.abs (rand_src w 1%nat)) 1000 * 1000).
  { unfold generator_sleep_us.
    rewrite (wrap_int_id (generator_sleep_sec w * 1000000))
      by (unfold in_int_range, INT_MIN, INT_MAX; lia).
    rewrite (wrap_int_id (Z.rem (Z.abs (rand_src w 1%nat)) 1000 * 1000))
      by (unfold in_int_range, INT_MIN, INT_MAX; lia).
    apply wrap_int_id. unfold in_int_range, INT_MIN, INT_MAX. lia. }
  split; [unfold after_generator_tick; now rewrite now_us_elapse|].
  split; [exact Hus|]. split; [lia|]. lia.
Qed.

(** X18.  While the simulation is paused, an iteration of the vehicle
    generator and an iteration of the simulation loop only sleep (half a
    second, and the update interval): no vehicle is generated, no metric
    updated, no lane scheduled or served. *)
Theorem paused_simulation_is_frozen (w : World) :
  simulation_paused w = true ->
  vehicle_generator_iteration w = Done tt (elapse 500000 w) /\
  simulation_main_loop_iteration w = Done tt (elapse SIMULATION_UPDATE_INTERVAL w).
Proof.
  intros Hp. split.
  - unfold vehicle_generator_iteration, bind, get. now rewrite Hp.
  - unfold simulation_main_loop_iteration, bind, get. now rewrite Hp.
Qed.

(** * Invariants of the reachable states *)

Section Keeps.

Variable PS : Scheduler -> Prop.
Variable PL : nat -> LaneProcess -> Prop.

Hypothesis PS_frame : forall s s',
  execution_history s' = execution_history s ->
  history_size s' = history_size s ->
  history_index s' = history_index s ->
  total_context_switches s' = total_context_switches s ->
  PS s -> PS s'.
Hypothesis PS_store : forall a b c d s, PS s -> PS (store_record a b c d s).
Hypothesis PL_frame : forall i l l',
  lane_id l' = lane_id l -> queue l' = queue l ->
  queue_length l' = queue_length l -> max_queue_length l' = max_queue_length l ->
  PL i l -> PL i l'.
Hypothesis PL_arrival : forall i l v now, PL i l -> PL i (arrival v now l).
Hypothesis PL_dequeue : forall i l, PL i l -> PL i (after_dequeue l).
Hypothesis PL_sweep : forall ls,
  (forall i l, ls !! i = Some l -> PL i l) ->
  forall i l, detect_and_resolve_advanced_deadlock ls !! i = Some l -> PL i l.

Ltac same_world :=
  let E := fresh in intros E; injection E as _ <-; split; reflexivity.

Lemma keeps_ret {A : Type} (a : A) : keeps PS PL (ret a).
Proof. intros w a' w' Hk E. injection E as _ <-. exact Hk. Qed.

Lemma keeps_bind {A B : Type} (m : M A) (k : A -> M B) :
  keeps PS PL m -> (forall a, keeps PS PL (k a)) -> keeps PS PL (bind m k).
Proof.
  intros Hm Hk w b w' Hw E. apply bind_inv in E as (a & w1 & E1 & E2).
  eapply Hk; [|exact E2]. eapply Hm; eauto.
Qed.

Lemma keeps_same {A : Type} (m : M A) :
  (forall w a w', m w = Done a w' ->
     lanes w' = lanes w /\ scheduler w' = scheduler w) ->
  keeps PS PL m.
Proof.
  intros Hm w a w' [HS HL] E. destruct (Hm w a w' E) as [E1 E2].
  split; [now rewrite E2|now rewrite E1].
Qed.

Lemma keeps_lock m : keeps PS PL (lock m).
Proof.
  apply keeps_same. intros w a w'. unfold lock.
  destruct (holds m (held w)); [discriminate|]. same_world.
Qed.

Lemma keeps_unlock m : keeps PS PL (unlock m).
Proof. apply keeps_same. intros w a w'. unfold unlock, modify. same_world. Qed.

Lemma keeps_trylock m : keeps PS PL (trylock m).
Proof.
  apply keeps_same. intros w a w'. unfold trylock.
  destruct (_ || _); same_world.
Qed.

Lemma keeps_get : keeps PS PL get.
Proof. apply keeps_same. intros w a w'. unfold get. same_world. Qed.

Lemma keeps_time_now : keeps PS PL time_now.
Proof. apply keeps_same. intros w a w'. unfold time_now. same_world. Qed.

Lemma keeps_get_scheduler : keeps PS PL get_scheduler.
Proof. apply keeps_same. intros w a w'. unfold get_scheduler. same_world. Qed.

Lemma keeps_get_lane i : keeps PS PL (get_lane i).
Proof.
  apply keeps_same. intros w a w'. unfold get_lane.
  destruct (lanes w !! i); [|discriminate]. same_world.
Qed.

Lemma keeps_lane_index n : keeps PS PL (lane_index n).
Proof.
  apply keeps_same. intros w a w'. unfold lane_index.
  destruct (_ && _); [|discriminate]. same_world.
Qed.

Lemma keeps_rand : keeps PS PL rand.
Proof. apply keeps_same. intros w a w'. unfold rand. same_world. Qed.

Lemma keeps_modify_other (f : World -> World) :
  (forall w, lanes (f w) = lanes w /\ scheduler (f w) = scheduler w) ->
  keeps PS PL (modify f).
Proof.
  intros Hf. apply keeps_same. intros w a w'. unfold modify.
  intros E. injection E as _ <-. apply Hf.
Qed.

Lemma keeps_usleep us : keeps PS PL (usleep us).
Proof. apply keeps_modify_other. intros w. split; reflexivity. Qed.

Lemma keeps_modify_lane i (f : LaneProcess -> LaneProcess) :
  (forall l, lane_id (f l) = lane_id l /\ queue (f l) = queue l /\
             queue_length (f l) = queue_length l /\
             max_queue_length (f l) = max_queue_length l) ->
  keeps PS PL (modify_lane i f).
Proof.
  intros Hf w a w' [HS HL]. unfold modify_lane.
  destruct (lanes w !! i) as [l|] eqn:El; [|discriminate].
  intros E. injection E as _ <-. split; [exact HS|]. simpl.
  intros j lj Hj. destruct (decide (i = j)) as [->|Hne].
  - rewrite list_lookup_insert_eq in Hj by now apply lookup_lt_Some in El.
    injection Hj as <-. destruct (Hf l) as (H1 & H2 & H3 & H4).
    apply (PL_frame j l); auto.
  - rewrite list_lookup_insert_ne in Hj by assumption. now apply HL.
Qed.

Lemma keeps_set_lane i (g : LaneProcess -> LaneProcess) w l :
  (forall j, PL j l -> PL j (g l)) ->
  kept PS PL w -> lanes w !! i = Some l ->
  kept PS PL (set_lanes (<[i := g l]> (lanes w)) w).
Proof.
  intros Hg [HS HL] Hl. split; [exact HS|]. simpl.
  intros j lj Hj. destruct (decide (i = j)) as [->|Hne].
  - rewrite list_lookup_insert_eq in Hj by now apply lookup_lt_Some in Hl.
    injection Hj as <-. apply Hg. now apply HL.
  - rewrite list_lookup_insert_ne in Hj by assumption. now apply HL.
Qed.

Lemma keeps_modify_scheduler (f : Scheduler -> Scheduler) :
  (forall s, execution_history (f s) = execution_history s /\
             history_size (f s) = history_size s /\
             history_index (f s) = history_index s /\
             total_context_switches (f s) = total_context_switches s) ->
  keeps PS PL (modify_scheduler f).
Proof.
  intros Hf w a w' [HS HL]. unfold modify_scheduler, modify.
  intros E. injection E as _ <-. split; [|exact HL]. simpl.
  destruct (Hf (scheduler w)) as (H1 & H2 & H3 & H4).
  apply (PS_frame (scheduler w)); auto.
Qed.

Lemma keeps_when (b : bool) (m : M unit) : keeps PS PL m -> keeps PS PL (when b m).
Proof. intros Hm. destruct b; simpl; [assumption|apply keeps_ret]. Qed.

Lemma keeps_for_each {A : Type} (body : nat -> M A) idxs :
  (forall i, keeps PS PL (body i)) -> keeps PS PL (for_each idxs body).
Proof.
  intros Hbody. induction idxs as [|i rest IH]; simpl.
  - apply keeps_ret.
  - apply keeps_bind; [apply Hbody|]. intros x.
    apply keeps_bind; [apply IH|]. intros xs. apply keeps_ret.
Qed.

Lemma keeps_add_vehicle_to_lane i v : keeps PS PL (add_vehicle_to_lane i v).
Proof.
  intros w a w' Hk E.
  destruct (holds (queue_lock i) (held w)) eqn:Hh.
  { unfold add_vehicle_to_lane in E. now rewrite relock_deadlock in E. }
  destruct (lanes w !! i) as [l|] eqn:Hl.
  - rewrite (add_vehicle_to_lane_arrival i v l w Hh Hl) in E. injection E as _ <-.
    apply keeps_set_lane; auto.
  - unfold add_vehicle_to_lane in E.
    rewrite (bind_Done _ _ _ _ _ (lock_run _ _ Hh)) in E.
    unfold bind, get_lane in E. simpl in E. now rewrite Hl in E.
Qed.

Lemma keeps_remove_vehicle_from_lane_unlocked i :
  keeps PS PL (remove_vehicle_from_lane_unlocked i).
Proof.
  intros w a w' Hk E.
  destruct (lanes w !! i) as [l|] eqn:Hl.
  - rewrite (remove_vehicle_from_lane_unlocked_run i l w Hl) in E. injection E as _ <-.
    apply keeps_set_lane; auto.
  - unfold remove_vehicle_from_lane_unlocked, bind, get_lane in E. now rewrite Hl in E.
Qed.

Lemma keeps_remove_vehicle_from_lane i : keeps PS PL (remove_vehicle_from_lane i).
Proof.
  intros w a w' Hk E.
  destruct (holds (queue_lock i) (held w)) eqn:Hh.
  { unfold remove_vehicle_from_lane in E. now rewrite relock_deadlock in E. }
  destruct (lanes w !! i) as [l|] eqn:Hl.
  - rewrite (remove_vehicle_from_lane_run i l w Hh Hl) in E. injection E as _ <-.
    apply keeps_set_lane; auto.
  - unfold remove_vehicle_from_lane in E.
    rewrite (bind_Done _ _ _ _ _ (lock_run _ _ Hh)) in E.
    unfold bind, get_lane in E. simpl in E. now rewrite Hl in E.
Qed.

Lemma record_execution_cases a b c d w u w' :
  record_execution a b c d w = Done u w' ->
  lanes w' = lanes w /\
  (scheduler w' = scheduler w \/
   scheduler w' = store_record a b c d (scheduler w)).
Proof.
  unfold record_execution. unfold bind at 1. unfold get_scheduler at 1.
  unfold store_record.
  destruct (execution_history (scheduler w)) as [h|] eqn:Eh.
  2:{ intros E. injection E as _ <-. auto. }
  unfold bind at 1. unfold trylock.
  destruct (_ || _); simpl when.
  { intros E. injection E as _ <-. auto. }
  unfold bind at 1. unfold get_scheduler at 1. simpl scheduler. rewrite Eh.
  destruct (_ && _); [|unfold bind; discriminate].
  unfold bind, modify_scheduler, unlock, modify. intros E. injection E as _ <-.
  simpl. auto.
Qed.

Lemma keeps_record_execution a b c d : keeps PS PL (record_execution a b c d).
Proof.
  intros w u w' [HS HL] E. apply record_execution_cases in E as [E1 [E2|E2]].
  - split; [now rewrite E2|now rewrite E1].
  - split; [rewrite E2; now apply PS_store|now rewrite E1].
Qed.

Lemma keeps_sweep :
  keeps PS PL (modify (fun w => set_lanes (detect_and_resolve_advanced_deadlock (lanes w)) w)).
Proof.
  intros w u w' [HS HL]. unfold modify. intros E. injection E as _ <-.
  split; [exact HS|]. simpl. now apply PL_sweep.
Qed.

Ltac keeps_side := intros; simpl; repeat split; reflexivity.

Ltac keeps_step :=
  first
    [ apply keeps_ret
    | apply keeps_record_execution
    | apply keeps_add_vehicle_to_lane
    | apply keeps_remove_vehicle_from_lane_unlocked
    | apply keeps_remove_vehicle_from_lane
    | apply keeps_sweep
    | apply keeps_lock
    | apply keeps_unlock
    | apply keeps_trylock
    | apply keeps_get
    | apply keeps_time_now
    | apply keeps_get_scheduler
    | apply keeps_get_lane
    | apply keeps_lane_index
    | apply keeps_rand
    | apply keeps_usleep
    | apply keeps_modify_lane; keeps_side
    | apply keeps_modify_scheduler; keeps_side
    | apply keeps_modify_other; keeps_side
    | apply keeps_when
    | apply keeps_for_each; intros ?
    | apply keeps_bind; [|intros ?]
    | match goal with |- keeps _ _ (if ?c then _ else _) => destruct c end
    | match goal with |- keeps _ _ (match ?x with _ => _ end) => destruct x end ].

Ltac keeps_auto := repeat (try (progress cbv zeta); keeps_step).

Lemma keeps_schedule_next_lane : keeps PS PL schedule_next_lane.
Proof.
  unfold schedule_next_lane, schedule_next_lane_sjf, context_switch,
    validate_single_lane_running, for_lanes.
  keeps_auto.
Qed.

Lemma keeps_execute_lane_time_slice lane tq :
  keeps PS PL (execute_lane_time_slice lane tq).
Proof. unfold execute_lane_time_slice. keeps_auto. Qed.

Lemma keeps_vehicle_generator_iteration : keeps PS PL vehicle_generator_iteration.
Proof. unfold vehicle_generator_iteration. keeps_auto. Qed.

Lemma keeps_lane_process_thread_iteration lane :
  keeps PS PL (lane_process_thread_iteration lane).
Proof. unfold lane_process_thread_iteration. keeps_auto. Qed.

Lemma keeps_update_simulation_state : keeps PS PL update_simulation_state.
Proof. unfold update_simulation_state. keeps_auto. Qed.

Lemma keeps_set_scheduling_algorithm a : keeps PS PL (set_scheduling_algorithm a).
Proof. unfold set_scheduling_algorithm, for_lanes. keeps_auto. Qed.

Lemma keeps_handle_user_input ch : keeps PS PL (handle_user_input ch).
Proof.
  unfold handle_user_input.
  apply keeps_bind; [apply keeps_get|intros w0].
  destruct (show_help w0); [keeps_auto|].
  repeat match goal with
         | |- keeps _ _ (if ?c then _ else _) => destruct c
         end;
    try (apply keeps_bind; [apply keeps_set_scheduling_algorithm|intros ?; apply keeps_ret]);
    keeps_auto.
Qed.

Lemma keeps_perform e : keeps PS PL (perform e).
Proof.
  destruct e; simpl.
  - apply keeps_update_simulation_state.
  - apply keeps_bind; [apply keeps_schedule_next_lane|intros ?; apply keeps_ret].
  - apply keeps_execute_lane_time_slice.
  - apply keeps_vehicle_generator_iteration.
  - apply keeps_lane_process_thread_iteration.
  - apply keeps_bind; [apply keeps_handle_user_input|intros ?; apply keeps_ret].
  - unfold handle_signal_interrupt. keeps_auto.
  - keeps_auto.
Qed.

Lemma reachable_kept :
  (forall now min_rate max_rate a history_allocated blank m0 e0 rnd others b0,
     kept PS PL
       (boot now min_rate max_rate a history_allocated blank m0 e0 rnd others b0)) ->
  forall w, reachable w -> kept PS PL w.
Proof.
  intros Hboot w Hr. induction Hr as [|w e w' _ IH E].
  - apply Hboot.
  - eapply keeps_perform; eauto.
Qed.

End Keeps.

(** ** The scheduler's bookkeeping *)

Lemma scheduler_ok_reachable w : reachable w -> scheduler_ok (scheduler w).
Proof.
  intros Hr.
  apply (reachable_kept scheduler_ok (fun _ _ => True)); try assumption; auto.
  - intros s s' E1 E2 E3 E4 [Hok Hz]. split; [|congruence].
    unfold history_ok in *. rewrite E1, E2, E3. exact Hok.
  - intros a b c d s [Hok Hz]. split; [now apply store_record_history_ok|].
    unfold store_record. now destruct (execution_history s).
  - intros now min_rate max_rate a history_allocated blank m0 e0 rnd others b0.
    split; [|auto]. split; [|reflexivity].
    destruct history_allocated; vm_compute; [|exact I].
    repeat split; discriminate.
Qed.

(** X19.  No operation of the program ever writes
    [total_context_switches]: in every reachable state it still has the
    value 0 that [init_scheduler] gave it, so that
    [calculate_context_switch_overhead] returns 0 whatever number of context
    switches took place.  (The execution history stays well formed.) *)
Theorem context_switches_are_never_counted (w : World) :
  reachable w ->
  total_context_switches (scheduler w) = 0 /\
  history_ok (scheduler w) /\
  calculate_context_switch_overhead w = Done 0 w.
Proof.
  intros Hr. destruct (scheduler_ok_reachable w Hr) as [Hok Hz].
  split; [exact Hz|]. split; [exact Hok|].
  unfold calculate_context_switch_overhead, bind, trylock.
  destruct (holds scheduler_lock (held w)) eqn:Hh; simpl; [reflexivity|].
  destruct (holds scheduler_lock (busy w)); simpl; [reflexivity|].
  unfold unlock, modify, ret. simpl. rewrite Hz.
  rewrite release_just_locked by assumption. f_equal. now destruct w.
Qed.

(** ** The lanes' bookkeeping *)

Lemma lane_ok_arrival i l v now : lane_ok i l -> lane_ok i (arrival v now l).
Proof.
  intros (H1 & H2 & H3 & H4 & H5). unfold arrival, enqueue.
  destruct (Z.ltb_spec (get_size (queue l)) (capacity (queue l))) as [Hroom|Hfull];
    simpl; [|repeat split; assumption].
  unfold lane_with_vehicle, enqueue.
  destruct (Z.ltb_spec (get_size (queue l)) (capacity (queue l))); [|lia].
  unfold lane_ok, get_size in *. simpl. rewrite length_app. simpl.
  repeat split; auto; lia.
Qed.

Lemma lane_ok_dequeue i l : lane_ok i l -> lane_ok i (after_dequeue l).
Proof.
  intros (H1 & H2 & H3 & H4 & H5). unfold after_dequeue, dequeue.
  unfold lane_ok, get_size in *.
  destruct (items (queue l)) as [|v rest] eqn:E; simpl; rewrite ?E; simpl in *;
    repeat split; auto; lia.
Qed.

(** X20.  In every reachable state each lane still carries its index as
    [lane_id], its cached [queue_length] equals the size of its queue, and
    that size lies between 0 and MAX_QUEUE_CAPACITY: arrivals to a full lane
    are dropped, never stored.  (The deadlock sweep, which is not among the
    sources, is assumed to leave consistent lanes consistent.) *)
Theorem reachable_lanes_are_consistent (w : World) (i : nat) (l : LaneProcess) :
  sweep_keeps_lanes_ok ->
  reachable w ->
  lanes w !! i = Some l ->
  lane_id l = Z.of_nat i /\
  queue_length l = get_size (queue l) /\
  0 <= queue_length l <= MAX_QUEUE_CAPACITY /\
  max_queue_length l = MAX_QUEUE_CAPACITY.
Proof.
  intros Hsweep Hr Hl.
  assert (Hk : kept (fun _ => True) lane_ok w).
  { apply reachable_kept; try assumption; auto.
    - intros j l0 l' E1 E2 E3 E4 (H1 & H2 & H3 & H4 & H5).
      unfold lane_ok. rewrite E1, E2, E3, E4. auto.
    - apply lane_ok_arrival.
    - apply lane_ok_dequeue.
    - intros now min_rate max_rate a history_allocated blank m0 e0 rnd others b0.
      split; [exact I|]. intros j lj Hj.
      destruct j as [|[|[|[|j]]]]; vm_compute in Hj; try discriminate;
        injection Hj as <-; repeat split; vm_compute; discriminate. }
  destruct Hk as [_ HL]. destruct (HL i l Hl) as (H1 & H2 & H3 & H4 & H5).
  split; [exact H1|]. split; [exact H2|]. split; [|exact H5].
  rewrite H2, <- H4. unfold get_size in *. lia.
Qed.

(** ** The simulation thread *)

Lemma update_simulation_state_returns w :
  held w = [] -> exists w', update_simulation_state w = Done tt w'.
Proof.
  intros Hheld. unfold update_simulation_state, bind, lock, time_now, modify,
    unlock, get, modify. rewrite Hheld. simpl.
  destruct (100 <=? _); simpl; eexists; reflexivity.
Qed.

Lemma history_ok_after_schedule w :
  history_ok (scheduler w) -> history_ok (scheduler (after_schedule w)).
Proof.
  unfold after_schedule. destruct (_ && _); simpl; auto.
Qed.

Section SimulationThread.

Hypothesis Hpolicies : policies_in_range.
Hypothesis Hsweep : sweep_starts_no_lane.

Lemma process_traffic_events_returns w :
  reachable w -> exists w', process_traffic_events w = Done tt w'.
Proof.
  intros Hr.
  pose proof (reachable_Inv Hpolicies Hsweep w Hr) as HI.
  pose proof (selected_lane_in_range w Hpolicies (inv_lanes w HI)) as Hsel.
  unfold process_traffic_events.
  rewrite (bind_Done _ _ _ _ _
             (schedule_next_lane_run w (inv_held w HI) (inv_lanes w HI) Hsel
                (inv_current w HI))).
  destruct (Z.eqb_spec (selected_lane w) (-1)) as [E|Hne]; cbn [negb].
  { now eexists. }
  pose proof (Inv_after_schedule w Hpolicies HI) as HI2.
  destruct Hsel as [?|Hsel]; [contradiction|].
  rewrite (bind_Done _ _ _ _ _ (lane_index_run (selected_lane w) (after_schedule w)
             ltac:(rewrite (inv_lanes _ HI2); exact Hsel))).
  unfold bind at 1. unfold get_scheduler at 1.
  destruct (lookup_lt_is_Some_2 (lanes (after_schedule w)) (Z.to_nat (selected_lane w)))
    as [l Hl].
  { rewrite (inv_lanes _ HI2). lia. }
  rewrite (execute_lane_time_slice_run _ _ l).
  - now eexists.
  - apply (inv_held _ HI2).
  - exact Hl.
  - apply history_ok_after_schedule. now apply scheduler_ok_reachable.
Qed.

(** X21.  From every reachable state in which the simulation runs, an
    iteration of the simulation loop returns: the simulation thread never
    waits for a mutex it holds itself and never indexes the lane array out
    of range, whatever the other threads did before.  The state it leaves
    is reachable again.  (The two policies and the deadlock sweep that are
    not among the sources are assumed to return a lane index or none and to
    start no lane.) *)
Theorem simulation_thread_never_blocks (w : World) :
  reachable w ->
  simulation_running w = true ->
  exists w', simulation_main_loop_iteration w = Done tt w' /\ reachable w'.
Proof.
  intros Hr Hrun.
  cut (exists w', simulation_main_loop_iteration w = Done tt w').
  { intros [w' E]. exists w'. split; [exact E|].
    now apply (reachable_simulation_main_loop_iteration w w'). }
  pose proof (reachable_Inv Hpolicies Hsweep w Hr) as HI.
  unfold simulation_main_loop_iteration. unfold bind at 1. unfold get at 1.
  destruct (simulation_paused w); simpl when.
  { unfold bind, ret, usleep, modify. now eexists. }
  destruct (update_simulation_state_returns w (inv_held w HI)) as [w1 E1].
  assert (Hr1 : reachable w1) by now apply (reachable_step w UpdateState w1).
  destruct (process_traffic_events_returns w1 Hr1) as [w2 E2].
  rewrite (bind_Done _ _ _ tt w2).
  - unfold usleep, modify. now eexists.
  - now rewrite (bind_Done _ _ _ _ _ E1).
Qed.

End SimulationThread.

(** ** The command line *)

Lemma parse_options_positive D atoi opts a a' :
  CommandLine.parse_options D atoi opts a = Some a' ->
  1 <= CommandLine.min_arrival_rate a ->
  1 <= CommandLine.max_arrival_rate a ->
  1 <= CommandLine.time_quantum a ->
  1 <= CommandLine.min_arrival_rate a' /\
  1 <= CommandLine.max_arrival_rate a' /\
  1 <= CommandLine.time_quantum a'.
Proof.
  revert a. induction opts as [|[c optarg] rest IH]; intros a E Hmin Hmax Hq; simpl in E.
  { injection E as <-. auto. }
  destruct (CommandLine.parse_option D atoi c optarg a) as [a1|] eqn:E1; [|discriminate].
  apply (IH a1 E); clear IH E; unfold CommandLine.parse_option in E1;
    repeat match type of E1 with
           | (if ?b then _ else _) = _ => destruct b
           end;
    try discriminate; injection E1 as <-; simpl; try assumption;
    unfold DEFAULT_TIME_QUANTUM;
    match goal with
    | |- context [?x <=? 0] => destruct (Z.leb_spec x 0); lia
    end.
Qed.

(** X22.  Whatever options the command line carries, the configuration that
    [parse_command_line_args] returns has arrival rates and a time quantum
    of at least one second, with the minimum rate not above the maximum, and
    [validate_command_line_args] brings the duration between 10 and 3600
    seconds without touching the rest.  So when [main] applies it,
    [set_vehicle_arrival_rate] stores both rates as given and
    [set_time_quantum] always takes effect. *)
Theorem command_line_configuration_is_sane
    (SIMULATION_DURATION : Z) (atoi : String.string -> Z)
    (opts : list (ascii * String.string)) (args : CommandLine.CommandLineArgs)
    (w : World) :
  CommandLine.parse_command_line_args SIMULATION_DURATION atoi opts = Some args ->
  let args' := CommandLine.validate_command_line_args args in
  1 <= CommandLine.min_arrival_rate args <= CommandLine.max_arrival_rate args /\
  1 <= CommandLine.time_quantum args /\
  10 <= CommandLine.duration args' <= 3600 /\
  CommandLine.min_arrival_rate args' = CommandLine.min_arrival_rate args /\
  CommandLine.max_arrival_rate args' = CommandLine.max_arrival_rate args /\
  CommandLine.time_quantum args' = CommandLine.time_quantum args /\
  CommandLine.algorithm args' = CommandLine.algorithm args /\
  set_vehicle_arrival_rate (CommandLine.min_arrival_rate args')
      (CommandLine.max_arrival_rate args') w =
    Done tt (set_max_arrival_rate (CommandLine.max_arrival_rate args)
               (set_min_arrival_rate (CommandLine.min_arrival_rate args) w)) /\
  set_time_quantum (CommandLine.time_quantum args') w =
    Done tt (set_scheduler
               (with_time_quantum (CommandLine.time_quantum args) (scheduler w)) w).
Proof.
  intros E args'. unfold CommandLine.parse_command_line_args in E.
  destruct (CommandLine.parse_options _ _ _ _) as [a|] eqn:Eo; [|discriminate].
  apply parse_options_positive in Eo; [|simpl; unfold VEHICLE_ARRIVAL_RATE_MIN,
    VEHICLE_ARRIVAL_RATE_MAX, DEFAULT_TIME_QUANTUM; lia..].
  destruct Eo as (Hmin & Hmax & Hq).
  assert (Hargs : 1 <= CommandLine.min_arrival_rate args <=
                    CommandLine.max_arrival_rate args /\
                  1 <= CommandLine.time_quantum args).
  { destruct (Z.ltb_spec (CommandLine.max_arrival_rate a)
                (CommandLine.min_arrival_rate a));
      injection E as <-; simpl; lia. }
  clear E a Hmin Hmax Hq. destruct Hargs as [Hr Hq].
  assert (Hv : 10 <= CommandLine.duration args' <= 3600 /\
    CommandLine.min_arrival_rate args' = CommandLine.min_arrival_rate args /\
    CommandLine.max_arrival_rate args' = CommandLine.max_arrival_rate args /\
    CommandLine.time_quantum args' = CommandLine.time_quantum args /\
    CommandLine.algorithm args' = CommandLine.algorithm args).
  { subst args'. unfold CommandLine.validate_command_line_args.
    destruct (Z.ltb_spec (CommandLine.duration args) 10); simpl.
    - repeat split; lia.
    - destruct (Z.ltb_spec 3600 (CommandLine.duration args)); simpl;
        repeat split; lia. }
  destruct Hv as (Hd & Emin & Emax & Etq & Ealg).
  split; [exact Hr|]. split; [exact Hq|]. split; [exact Hd|].
  split; [exact Emin|]. split; [exact Emax|]. split; [exact Etq|].
  split; [exact Ealg|]. rewrite Emin, Emax, Etq. split.
  - unfold set_vehicle_arrival_rate, bind, modify, get, when. simpl.
    destruct (Z.ltb_spec (CommandLine.max_arrival_rate args)
                (CommandLine.min_arrival_rate args)); [lia|reflexivity].
  - unfold set_time_quantum, when.
    destruct (Z.ltb_spec 0 (CommandLine.time_quantum args)); [reflexivity|lia].
Qed.

(** ** The help screen *)

(** X23.  Opening the help screen with 'h' pauses the simulation; while it
    is shown, a call that reads no key changes nothing, and the next key,
    whichever it is, only closes the screen: it returns 0, is not
    interpreted (a 'q' does not quit) and puts [simulation_paused] back to
    what it was before the 'h'. *)
Theorem help_screen_round_trip (w : World) (k : Z) :
  show_help w = false ->
  k <> ERR ->
  exists w1,
    handle_user_input (key "h") w = Done (key "h") w1 /\
    show_help w1 = true /\
    simulation_paused w1 = true /\
    handle_user_input ERR w1 = Done 0 w1 /\
    handle_user_input k w1 = Done 0 (set_pause_requested false w).
Proof.
  intros Hhelp Hk. apply Z.eqb_neq in Hk.
  destruct w; simpl in Hhelp; subst.
  unfold handle_user_input, bind, get, modify, when, ret. simpl.
  rewrite Hk. simpl.
  match goal with
  | |- context [if ?b then _ else _] => destruct b
  end; simpl; eexists; repeat split; simpl; rewrite ?Hk; reflexivity.
Qed.

(** ** The wait-time metrics *)

(** X24.  As long as no lane has served a vehicle,
    [calculate_average_wait_time] returns 0.0 and
    [calculate_fairness_index] returns 1.0; neither takes a lock nor
    changes anything, so they return even to a thread that holds lane
    locks.  (0.0 < 0.0 is false.) *)
Theorem wait_metrics_before_first_service (w : World) :
  flt float_zero float_zero = false ->
  length (lanes w) = NUM_LANES ->
  (forall i l, lanes w !! i = Some l -> total_vehicles_served l = 0) ->
  calculate_average_wait_time w = Done float_zero w /\
  calculate_fairness_index w = Done (float_of_int 1) w.
Proof.
  intros Hflt Hlen Hnone.
  assert (Hwait : forall i, (i < NUM_LANES)%nat ->
            get_lane_average_wait_time i w = Done float_zero w).
  { intros i Hi.
    destruct (lookup_lt_is_Some_2 (lanes w) i) as [l Hl]; [lia|].
    unfold get_lane_average_wait_time, bind, get_lane. rewrite Hl.
    now rewrite (Hnone i l Hl). }
  assert (Hall : for_lanes get_lane_average_wait_time w =
                 Done [float_zero; float_zero; float_zero; float_zero] w).
  { unfold for_lanes, NUM_LANES. simpl. unfold bind.
    rewrite !Hwait by (unfold NUM_LANES; lia). reflexivity. }
  unfold calculate_average_wait_time, calculate_fairness_index, bind.
  rewrite Hall. simpl. unfold wait_total, wait_sums. rewrite !Hflt. simpl.
  split; reflexivity.
Qed.

End Properties.

(** * The concrete system at work *)

Import Sample.

Lemma sample_policies_in_range : policies_in_range.
Proof.
  intros s ls Hlen. split; simpl.
  - unfold is_lane_or_none.
    assert (H : forall i xs, first_ready i xs = -1 \/
              Z.of_nat i <= first_ready i xs < Z.of_nat i + Z.of_nat (length xs)).
    { intros i xs. revert i. induction xs as [|x xs IH]; intros i; simpl; [now left|].
      destruct (LaneState_eqb (state x) READY); [right; lia|].
      destruct (IH (S i)) as [E|E]; [now left|right; lia]. }
    destruct (H 0%nat (take NUM_LANES ls)) as [E|E]; [now left|right].
    rewrite length_take in E. unfold NUM_LANES in *. lia.
  - right. pose proof (Z.mod_pos_bound (current_lane s + 1) 4 ltac:(lia)).
    unfold NUM_LANES. lia.
Qed.

Lemma sample_sweep_starts_no_lane : sweep_starts_no_lane.
Proof.
  intros ls. split; simpl.
  - apply length_map.
  - intros i l' Hl Hs. change (map unblock ls) with (unblock <$> ls) in Hl.
    rewrite list_lookup_fmap in Hl.
    destruct (ls !! i) as [l|]; simpl in Hl; [|discriminate].
    injection Hl as <-. exists l. split; [reflexivity|].
    unfold unblock in Hs. destruct (LaneState_eqb (state l) BLOCKED); [discriminate|assumption].
Qed.

Lemma reachable_next w e : reachable w -> reachable (next w e).
Proof.
  intros Hr. unfold next.
  destruct (perform e w) as [[] w'| |] eqn:E; auto.
  now apply (reachable_step w e w').
Qed.

Lemma reachable_run w es : reachable w -> reachable (fold_left next es w).
Proof.
  revert w. induction es as [|e es IH]; intros w Hr; simpl; [assumption|].
  apply IH. now apply reachable_next.
Qed.

Lemma policy_switch_after_interrupt_runs_two_lanes_witness :
  exists w3,
    reachable w3 /\
    (2 <= running_count (lanes w3))%nat /\
    validate_single_lane_running w3 = Done false w3.
Proof.
  edestruct (policy_switch_after_interrupt_runs_two_lanes w_second_iteration 0%nat 1%nat)
    as (w1 & w2 & w3 & _ & _ & _ & _ & _ & Hcount & Hvalidate & Hreach);
    [vm_compute; reflexivity..|].
  exists w3. split; [apply Hreach, reachable_run, reachable_boot|].
  split; [exact Hcount|].
  apply Hvalidate. intros i _. vm_compute. reflexivity.
Defined.

Lemma w_ready_in_range l : l ∈ lanes w_ready -> in_int_range (lane_cost l).
Proof.
  intros Hl. vm_compute in Hl.
  repeat (apply elem_of_cons in Hl as [->|Hl]);
    [vm_compute; split; discriminate..|inversion Hl].
Qed.

Lemma sjf_selects_cheapest_ready_lane_witness :
  schedule_next_lane_sjf w_ready = Done 1 w_ready.
Proof.
  destruct (sjf_selects_cheapest_ready_lane w_ready) as (r & E & _ & _ & Hex).
  - reflexivity.
  - intros i. reflexivity.
  - exact w_ready_in_range.
  - rewrite E. f_equal.
    apply (Hex _ _ _ _ eq_refl); try reflexivity. discriminate.
Defined.

Lemma predictive_sjf_self_deadlock_witness :
  schedule_next_lane_predictive_sjf w_boot = Deadlock /\
  schedule_next_lane_sjf w_boot = Done (-1) w_boot.
Proof.
  split.
  - apply (predictive_sjf_self_deadlock w_boot). reflexivity.
  - apply honours_contract_none.
    + apply sjf_honours_contract; [reflexivity|intros i; reflexivity].
    + intros l Hl. vm_compute in Hl.
      repeat (apply elem_of_cons in Hl as [->|Hl]); [discriminate..|inversion Hl].
Defined.

Ltac in_range := first [left; reflexivity | right; vm_compute; split; [discriminate|reflexivity]].

Lemma schedule_next_lane_switches_context_witness :
  exists w',
    schedule_next_lane w_running = Done 1 w' /\
    current_lane (scheduler w') = 1 /\
    state <$> lanes w' !! 0%nat = Some READY /\
    state <$> lanes w' !! 1%nat = Some RUNNING /\
    waiting_time <$> lanes w' !! 1%nat = Some 0.
Proof.
  destruct (schedule_next_lane_switches_context w_running)
    as (w' & E & Hcur & Hfrom & Hto & _).
  - reflexivity.
  - reflexivity.
  - in_range.
  - in_range.
  - vm_compute. discriminate.
  - vm_compute. discriminate.
  - exists w'. split; [exact E|]. split; [exact Hcur|].
    rewrite (Hfrom 0%nat _ eq_refl eq_refl eq_refl).
    rewrite (Hto 1%nat _ eq_refl eq_refl eq_refl).
    repeat split.
Defined.

Lemma schedule_next_lane_keeps_switch_counter_witness :
  exists w',
    schedule_next_lane w_running = Done 1 w' /\
    current_lane (scheduler w') <> 0 /\
    total_context_switches (scheduler w') = 0.
Proof.
  destruct (schedule_next_lane_keeps_switch_counter w_running) as (w' & E & Hc & Ht).
  - reflexivity.
  - reflexivity.
  - in_range.
  - in_range.
  - vm_compute. discriminate.
  - vm_compute. discriminate.
  - exists w'. auto.
Defined.



Lemma execute_lane_time_slice_effect_witness :
  exists w' l',
    execute_lane_time_slice 0 3 w_running = Done tt w' /\
    lanes w' !! 0%nat = Some l' /\
    queue_length l' = get_size (queue l') /\ state l' = RUNNING.
Proof.
  destruct (execute_lane_time_slice_effect w_running 0 3 _ eq_refl eq_refl)
    as (w' & l' & E & Hl & (k & Hk & _ & Hitems) & Hq & _ & Hkeep & _).
  - vm_compute. repeat split; discriminate.
  - exists w', l'. repeat split; auto. apply Hkeep.
    unfold get_size. rewrite Hitems.
    destruct k as [|[|k]]; simpl; try discriminate; lia.
Defined.

Lemma emergency_key_triggers_nothing_witness :
  handle_user_input (key "e") w_ready = Done (key "e") w_ready.
Proof.
  destruct (emergency_key_triggers_nothing w_ready (key "e"))
    as ((r & w' & E & _ & _ & _ & Hsame) & _).
  - now left.
  - reflexivity.
  - reflexivity.
  - in_range.
  - in_range.
  - destruct (Hsame eq_refl) as [-> ->]. exact E.
Defined.

Lemma release_intersection_quadrants_clears_witness :
  exists w' l',
    release_intersection_quadrants 0 w_granted = Done tt w' /\
    lanes w' !! 0%nat = Some l' /\
    allocated_quadrants l' = 0 /\ requested_quadrants l' = 0 /\
    bankers_state w' = bankers_state w_granted.
Proof.
  destruct (release_intersection_quadrants_clears w_granted 0 _ eq_refl eq_refl)
    as (w' & l' & E & Hl & Ha & Hr & _ & Hb & _).
  exists w', l'. auto.
Defined.

Lemma release_intersection_quadrants_keeps_pool :
  exists w' l,
    lanes w_granted !! 0%nat = Some l /\
    allocated_quadrants l = 1 /\
    release_intersection_quadrants 0 w_granted = Done tt w' /\
    allocation (bankers_state w') = allocation (bankers_state w_granted) /\
    available (bankers_state w') <>
      available (bankers_state w_granted) + allocated_quadrants l.
Proof.
  eexists. eexists. split; [reflexivity|]. split; [reflexivity|].
  split; [reflexivity|]. split; [reflexivity|]. vm_compute. discriminate.
Qed.

Lemma switch_to_lane_not_ready_witness :
  exists w',
    schedule_next_lane w_round_robin = Done 0 w' /\
    state <$> lanes w' !! 0%nat = Some WAITING /\
    current_lane (scheduler w') = 0.
Proof.
  destruct (switch_to_lane_not_ready w_round_robin 0
              (init_lane_process 0 MAX_QUEUE_CAPACITY 1000) eq_refl eq_refl)
    as (_ & w' & E & Hl & Hc & _).
  - in_range.
  - reflexivity.
  - vm_compute. discriminate.
  - reflexivity.
  - discriminate.
  - exists w'. rewrite Hl. auto.
Defined.

Lemma lane_process_thread_self_deadlock_witness :
  lane_process_thread_iteration 0 w_boot = Deadlock.
Proof.
  apply (proj1 (lane_process_thread_self_deadlock w_boot 0 _ eq_refl eq_refl)).
  left. reflexivity.
Defined.

Lemma lane_process_thread_iteration_effect_witness :
  exists w' l',
    lane_process_thread_iteration 0 w_dice = Done tt w' /\
    lanes w' !! 0%nat = Some l' /\
    state l' = READY /\ waiting_time l' = 6 /\ items (queue l') = [11; 12; 13].
Proof.
  destruct (lane_process_thread_iteration_effect w_dice 0 _ eq_refl eq_refl)
    as (w' & l' & E & Hl & -> & _).
  - vm_compute. discriminate.
  - discriminate.
  - exists w', (lane_tick (lane 0 [11; 12; 13] READY 990)).
    repeat split; assumption.
Defined.

Lemma lane_operations_relock_deadlock_witness :
  add_vehicle_to_lane 0 7 w_in_section = Deadlock /\
  is_lane_ready 0 w_in_section = Deadlock /\
  get_lane_average_wait_time 0 w_in_section = Done float_zero w_in_section.
Proof.
  destruct (lane_operations_relock_deadlock w_in_section 0 eq_refl)
    as (Hadd & _ & _ & _ & Hready & _ & _ & _ & _ & _ & Hrest).
  destruct (Hrest _ eq_refl) as (_ & Havg & _).
  split; [apply Hadd|]. split; [exact Hready|]. apply Havg. reflexivity.
Defined.

Lemma remove_vehicle_from_lane_unlocked_agrees_witness :
  remove_vehicle_from_lane 0 w_ready = remove_vehicle_from_lane_unlocked 0 w_ready.
Proof. apply (remove_vehicle_from_lane_unlocked_agrees w_ready 0). reflexivity. Defined.

Lemma add_then_remove_is_fifo_witness :
  exists w1 w2 l2,
    add_vehicle_to_lane 3 7 w_ready = Done tt w1 /\
    remove_vehicle_from_lane 3 w1 = Done 7 w2 /\
    lanes w2 !! 3%nat = Some l2 /\ items (queue l2) = [] /\ queue_length l2 = 0.
Proof.
  destruct (add_then_remove_is_fifo w_ready 3 7 _ eq_refl eq_refl)
    as (w1 & w2 & l2 & E1 & E2 & Hl & Hi & Hq & _).
  exists w1, w2, l2. rewrite Hq. unfold get_size. rewrite Hi.
  repeat split; assumption.
Defined.

Lemma srtf_selects_first_cheapest_ready_lane_witness :
  schedule_next_lane_srtf w_ready = Done 1 w_ready.
Proof.
  destruct (srtf_selects_first_cheapest_ready_lane w_ready) as (r & E & _).
  - reflexivity.
  - intros i. reflexivity.
  - exact w_ready_in_range.
  - rewrite E. f_equal. apply (f_equal result_of) in E. vm_compute in E. congruence.
Defined.



Lemma w_boot_history_ok : history_ok (scheduler w_boot).
Proof. vm_compute. repeat split; discriminate. Qed.

Lemma execution_history_is_ring_witness :
  exists w' h',
    record_all (replicate 1000 (mkRecord 2 1000 1003 0 1)) w_boot = Done tt w' /\
    h' !! 999%nat = Some (mkRecord 2 1000 1003 3 1) /\
    get_execution_history w' = Done (Some h', 0) w'.
Proof.
  destruct (execution_history_is_ring w_boot (replicate 1000 (mkRecord 2 1000 1003 0 1))
              (replicate 1000 blank_record) eq_refl eq_refl w_boot_history_ok eq_refl)
    as (w' & h' & E & _ & _ & _ & Hidx & Hslots & _ & Hget).
  exists w', h'. split; [exact E|]. split.
  - apply (Hslots 999%nat (mkRecord 2 1000 1003 0 1) eq_refl).
    rewrite !length_replicate. lia.
  - rewrite Hidx in Hget. exact Hget.
Defined.

Lemma scheduler_operations_skip_when_busy_witness :
  algorithm (scheduler w_locked_out) = PRIORITY_ROUND_ROBIN /\
  get_scheduling_algorithm w_locked_out = Done SJF w_locked_out /\
  handle_user_input (key "1") w_locked_out = Done (key "1") w_locked_out.
Proof.
  destruct (scheduler_operations_skip_when_busy w_locked_out eq_refl)
    as (_ & Hget & _ & _ & _ & _ & _ & _ & _ & Hkey).
  split; [reflexivity|]. split; [exact Hget|].
  apply Hkey; [reflexivity|now left].
Defined.

Lemma validate_single_lane_running_sees_free_lanes_witness :
  running_count (lanes w_two_running) = 2%nat /\
  validate_single_lane_running w_two_running = Done true w_two_running.
Proof.
  split; [reflexivity|].
  destruct (validate_single_lane_running_sees_free_lanes w_two_running eq_refl
              (fun i => eq_refl)) as (b & E & _ & _ & Hblind).
  rewrite E. f_equal. apply Hblind.
  intros [|[|[|[|i]]]] Hi; try reflexivity. unfold NUM_LANES in Hi. lia.
Defined.

Lemma sjf_serves_nobody_without_ready_lane_witness :
  exists w',
    process_traffic_events w_stalled = Done tt w' /\ lanes w' = lanes w_stalled.
Proof.
  destruct (sjf_serves_nobody_without_ready_lane w_stalled eq_refl eq_refl eq_refl)
    as [_ E].
  - in_range.
  - intros l Hl. vm_compute in Hl.
    repeat (apply elem_of_cons in Hl as [->|Hl]); [discriminate..|inversion Hl].
  - eexists. split; [exact E|reflexivity].
Defined.

Lemma set_scheduling_algorithm_resets_witness :
  exists w',
    set_scheduling_algorithm MULTILEVEL_FEEDBACK w_running = Done tt w' /\
    state <$> lanes w' !! 0%nat = Some READY /\
    current_lane (scheduler w') = -1.
Proof.
  destruct (set_scheduling_algorithm_resets w_running MULTILEVEL_FEEDBACK
              eq_refl eq_refl eq_refl) as (w' & E & -> & _).
  eexists. split; [exact E|]. split; reflexivity.
Defined.


Lemma remove_lane_from_ready_queue_takes_front_witness :
  exists w',
    (bind (add_lane_to_ready_queue 0)
       (fun _ => bind (add_lane_to_ready_queue 2)
          (fun _ => remove_lane_from_ready_queue 2))) w_ready = Done tt w' /\
    items (ready_queue (scheduler w')) = [2] /\
    is_ready_queue_empty w' = Done false w'.
Proof.
  destruct (remove_lane_from_ready_queue_takes_front w_ready 0 2 _ _
              eq_refl eq_refl eq_refl eq_refl eq_refl)
    as (w' & E & Hq & _ & _ & _ & Hempty).
  - vm_compute. discriminate.
  - exists w'. split; [exact E|]. split; [exact Hq|exact Hempty].
Defined.

Lemma vehicle_generator_counts_every_vehicle_witness :
  exists w' l',
    vehicle_generator_iteration w_full_dice = Done tt w' /\
    total_vehicles_generated w' = 1 /\
    lanes w' !! 0%nat = Some l' /\ items (queue l') = [1; 2].
Proof.
  destruct (vehicle_generator_counts_every_vehicle w_full_dice _
              eq_refl eq_refl eq_refl eq_refl)
    as (w' & l' & E & Ht & Hl & _ & _ & _ & Hfull & _).
  destruct Hfull as (Hq & _); [vm_compute; discriminate|].
  exists w', l'. rewrite Hq. repeat split; assumption.
Defined.

Lemma vehicle_generator_sleeps_between_rates_witness :
  exists w',
    vehicle_generator_iteration w_boot = Done tt w' /\
    now_us w' = now_us w_boot + 3001000.
Proof.
  destruct (vehicle_generator_sleeps_between_rates w_boot _
              eq_refl eq_refl eq_refl eq_refl)
    as (w' & E & Hnow & _).
  - vm_compute. discriminate.
  - vm_compute. split; discriminate.
  - exists w'. split; [exact E|exact Hnow].
Defined.

Lemma paused_simulation_is_frozen_witness :
  vehicle_generator_iteration w_paused = Done tt (elapse 500000 w_paused) /\
  simulation_main_loop_iteration w_paused = Done tt (elapse 300000 w_paused).
Proof. apply (paused_simulation_is_frozen w_paused). reflexivity. Defined.

Lemma sample_sweep_keeps_lanes_ok : sweep_keeps_lanes_ok.
Proof.
  intros ls Hok i l' Hl. simpl in Hl.
  change (map unblock ls) with (unblock <$> ls) in Hl.
  rewrite list_lookup_fmap in Hl.
  destruct (ls !! i) as [l|] eqn:E; simpl in Hl; [|discriminate].
  injection Hl as <-. specialize (Hok i l E).
  unfold unblock. now destruct (LaneState_eqb (state l) BLOCKED).
Qed.

Lemma w_later_reachable : reachable w_later.
Proof. apply reachable_run. apply reachable_boot. Qed.

Lemma context_switches_are_never_counted_witness :
  total_context_switches (scheduler w_later) = 0 /\
  history_ok (scheduler w_later) /\
  calculate_context_switch_overhead w_later = Done 0 w_later.
Proof.
  exact (context_switches_are_never_counted w_later w_later_reachable).
Defined.

Lemma reachable_lanes_are_consistent_witness :
  exists l, lanes w_later !! 3%nat = Some l /\
    lane_id l = 3 /\
    queue_length l = get_size (queue l) /\
    0 <= queue_length l <= MAX_QUEUE_CAPACITY /\
    max_queue_length l = MAX_QUEUE_CAPACITY.
Proof.
  eexists. split; [vm_compute; reflexivity|].
  apply (reachable_lanes_are_consistent w_later 3 _ sample_sweep_keeps_lanes_ok
           w_later_reachable).
  vm_compute. reflexivity.
Defined.

Lemma simulation_thread_never_blocks_witness :
  exists w', simulation_main_loop_iteration w_later = Done tt w' /\ reachable w'.
Proof.
  apply (simulation_thread_never_blocks sample_policies_in_range
           sample_sweep_starts_no_lane w_later w_later_reachable).
  vm_compute. reflexivity.
Defined.

Lemma command_line_configuration_is_sane_witness :
  exists args,
    CommandLine.parse_command_line_args 300 sample_atoi sample_options = Some args /\
    CommandLine.min_arrival_rate args = 8 /\
    CommandLine.max_arrival_rate args = 10 /\
    set_time_quantum
        (CommandLine.time_quantum (CommandLine.validate_command_line_args args)) w_boot =
      Done tt (set_scheduler (with_time_quantum 3 (scheduler w_boot)) w_boot).
Proof.
  eexists. split; [vm_compute; reflexivity|].
  split; [reflexivity|]. split; [reflexivity|].
  refine (proj2 (proj2 (proj2 (proj2 (proj2 (proj2 (proj2 (proj2
    (command_line_configuration_is_sane 300 sample_atoi sample_options _ w_boot _))))))))).
  vm_compute. reflexivity.
Defined.

Lemma help_screen_round_trip_witness :
  exists w1,
    handle_user_input (key "h") w_ready = Done (key "h") w1 /\
    show_help w1 = true /\
    simulation_paused w1 = true /\
    handle_user_input ERR w1 = Done 0 w1 /\
    handle_user_input (key "q") w1 = Done 0 (set_pause_requested false w_ready).
Proof.
  apply (help_screen_round_trip w_ready (key "q")); [reflexivity|].
  vm_compute. discriminate.
Defined.

Lemma wait_metrics_before_first_service_witness :
  calculate_average_wait_time w_in_section = Done float_zero w_in_section /\
  calculate_fairness_index w_in_section = Done (float_of_int 1) w_in_section.
Proof.
  apply (wait_metrics_before_first_service w_in_section); [reflexivity|reflexivity|].
  intros i l Hl.
  destruct i as [|[|[|[|i]]]]; vm_compute in Hl; try discriminate;
    injection Hl as <-; reflexivity.
Defined.
